(** * kindle-weather: the feed parser and the template renderer of
    [weather-script.py]

    The development follows the script.  [parse_weather] builds the XML
    parser, has it read the bytes and walks the DOM for the four highs, the
    four lows, the four icon tokens and the first forecast day;
    [render_svg] fills the SVG template by repeated [str.replace].

    Conventions of the embedding.
    - A Python [str] is a [string]: the characters are the code points
      below 256, and [lower], [int] and [strptime] are the functions of
      Python on those.
    - A Python exception is a value of [exn]; a computation that may raise
      returns a [result], and the statements of the script are sequenced
      with the bind of [result], in the order in which Python evaluates
      them.
    - [highs] and [lows] are lists of [option Z]: [None] is Python's
      [None].
    - The network, the Expat parser, the file system and the depth that
      the interpreter's recursion limit leaves are an [environment].  The
      names that the module [xml.dom.expatbuilder] binds are those of the
      standard library: line 52 of the script looks up one of them.
    - [int] and [str] have the limit of 4300 digits that the interpreter
      sets by default. *)

From Stdlib Require Import ZArith Lia List Ascii String DecimalString Permutation.
From Stdlib Require DecimalFacts DecimalPos.
From stdpp Require Import base option list strings.

Set Warnings "-register-all".
Local Open Scope string_scope.
Local Open Scope Z_scope.

(** ** Exceptions and results *)

Inductive exn : Type :=
| ValueError (msg : string)               (* [raise ValueError(msg)] in the script *)
| IntValueError (text : string)           (* [int(text)]: invalid literal *)
| IntTypeError                            (* [int(None)] *)
| NoneAttributeError (attr : string)      (* [None.attr] *)
| NoneSubscriptTypeError                  (* [None[0:10]] *)
| StrptimeValueError (text : string)      (* [strptime]: text rejected *)
| StrValueError                           (* [str(z)]: too many digits *)
| IndexError                              (* list index out of range *)
| OverflowError                           (* date value out of range *)
| ModuleAttributeError (module attr : string) (* [module.attr]: no such name *)
| RecursionError                          (* maximum recursion depth exceeded *)
| ExpatError (msg : string).              (* the bytes are not well-formed XML *)

Inductive result (A : Type) : Type :=
| Ok (a : A)
| Raise (e : exn).
Arguments Ok {A} a.
Arguments Raise {A} e.

#[global] Instance result_ret : MRet result := fun A a => Ok a.
#[global] Instance result_bind : MBind result := fun A B f m =>
  match m with
  | Ok a => f a
  | Raise e => Raise e
  end.

Definition is_Ok {A} (r : result A) : bool :=
  match r with Ok _ => true | Raise _ => false end.

(** [for i in idxs: st = body(i, st)], stopping at the first exception. *)
Fixpoint for_each {S : Type} (idxs : list nat) (body : nat → S → result S) (st : S)
  : result S :=
  match idxs with
  | [] => Ok st
  | i :: idxs' => st' ← body i st; for_each idxs' body st'
  end.

(** [for x in xs: st = body(x, st)]. *)
Fixpoint for_in {X S : Type} (xs : list X) (body : X → S → result S) (st : S)
  : result S :=
  match xs with
  | [] => Ok st
  | x :: xs' => st' ← body x st; for_in xs' body st'
  end.

Definition range (n : nat) : list nat := seq 0 n.

(** ** Python strings *)

Module Str.

Definition code (c : ascii) : N := N_of_ascii c.

Definition in_range (lo hi c : ascii) : bool :=
  (code lo <=? code c)%N && (code c <=? code hi)%N.

Definition is_digit (c : ascii) : bool := in_range "0" "9" c.
Definition is_lower (c : ascii) : bool := in_range "a" "z" c.
Definition is_upper (c : ascii) : bool := in_range "A" "Z" c.

(** Upper-case letters of the Latin-1 supplement: U+00C0..U+00DE but the
    multiplication sign U+00D7. *)
Definition is_upper_latin1 (c : ascii) : bool :=
  (192 <=? code c)%N && (code c <=? 222)%N && negb (code c =? 215)%N.

Definition lower_char (c : ascii) : ascii :=
  if is_upper c || is_upper_latin1 c then ascii_of_N (code c + 32) else c.

(** [s.lower()] *)
Fixpoint lower (s : string) : string :=
  match s with
  | EmptyString => EmptyString
  | String c s' => String (lower_char c) (lower s')
  end.

Fixpoint all_chars (p : ascii → bool) (s : string) : bool :=
  match s with
  | EmptyString => true
  | String c s' => p c && all_chars p s'
  end.

Fixpoint mem_char (c : ascii) (chars : string) : bool :=
  match chars with
  | EmptyString => false
  | String d chars' => Ascii.eqb c d || mem_char c chars'
  end.

Definition is_empty (s : string) : bool :=
  match s with EmptyString => true | String _ _ => false end.

(** [s.split(sep)] for a one-character separator: the pieces between the
    separators, never an empty list. *)
Fixpoint split (sep : ascii) (s : string) : list string :=
  match s with
  | EmptyString => [EmptyString]
  | String c s' =>
      if Ascii.eqb c sep then EmptyString :: split sep s'
      else match split sep s' with
           | [] => [String c EmptyString]
           | w :: ws => String c w :: ws
           end
  end.

(** [pieces[0]] and [pieces[-1]] of a list of pieces. *)
Definition first (pieces : list string) : result string :=
  match pieces with
  | [] => Raise IndexError
  | w :: _ => Ok w
  end.

Fixpoint last (pieces : list string) : result string :=
  match pieces with
  | [] => Raise IndexError
  | [w] => Ok w
  | _ :: ws => last ws
  end.

(** [s.rstrip(chars)]: drop the longest suffix made of characters of
    [chars]. *)
Fixpoint rstrip (chars : string) (s : string) : string :=
  match s with
  | EmptyString => EmptyString
  | String c s' =>
      let r := rstrip chars s' in
      if is_empty r && mem_char c chars then EmptyString else String c r
  end.

Fixpoint lstrip_by (p : ascii → bool) (s : string) : string :=
  match s with
  | EmptyString => EmptyString
  | String c s' => if p c then lstrip_by p s' else s
  end.

Fixpoint rstrip_by (p : ascii → bool) (s : string) : string :=
  match s with
  | EmptyString => EmptyString
  | String c s' =>
      let r := rstrip_by p s' in
      if is_empty r && p c then EmptyString else String c r
  end.

(** [s[0:n]] *)
Definition slice_to (n : nat) (s : string) : string := substring 0 n s.

(** [old] is a prefix of [s]. *)
Fixpoint startswith (old s : string) : bool :=
  match old, s with
  | EmptyString, _ => true
  | String a old', String b s' => Ascii.eqb a b && startswith old' s'
  | String _ _, EmptyString => false
  end.

(** The scan of [s.replace(old, new)] for a non-empty [old]: left to
    right, each match of [old] is replaced by [new] and the scan resumes
    behind the match; [skip] counts the characters of the current match
    still to pass over. *)
Fixpoint replace_scan (old new : string) (skip : nat) (s : string) : string :=
  match s with
  | EmptyString => EmptyString
  | String c s' =>
      match skip with
      | S k => replace_scan old new k s'
      | O =>
          if startswith old s
          then new +:+ replace_scan old new (String.length old - 1) s'
          else String c (replace_scan old new O s')
      end
  end.

Fixpoint interleave (new s : string) : string :=
  match s with
  | EmptyString => EmptyString
  | String c s' => String c (new +:+ interleave new s')
  end.

(** [s.replace(old, new)]; an empty [old] matches before every character
    and at the end. *)
Definition replace (old new s : string) : string :=
  if is_empty old then new +:+ interleave new s
  else replace_scan old new O s.

(** The decimal digits of an integer, behind a minus sign when it is
    negative. *)
Definition of_int (z : Z) : string := NilZero.string_of_int (Z.to_int z).

End Str.

(** ** [int(x)] *)

Module Int.

(** The white space that [int] strips from a [str]: the ASCII characters
    of [Py_ISSPACE] and, of the code points from 128 on, those of
    [Py_UNICODE_ISSPACE] (U+0085 and U+00A0).  U+001C..U+001F are not
    stripped. *)
Definition is_space (c : ascii) : bool :=
  let n := Str.code c in
  ((9 <=? n) && (n <=? 13) || (n =? 32) || (n =? 133) || (n =? 160))%N.

Definition digit_val (c : ascii) : option Z :=
  if Str.is_digit c then Some (Z.of_N (Str.code c) - 48) else None.

Inductive scan_state := AtStart | AfterDigit | AfterUnderscore.

(** Digits with single underscores between them; the value and the
    number of digits. *)
Fixpoint digits (s : string) (st : scan_state) (acc : Z) (n : nat)
  : option (Z * nat) :=
  match s with
  | EmptyString =>
      match st with
      | AfterDigit => Some (acc, n)
      | _ => None
      end
  | String c s' =>
      if Ascii.eqb c "_" then
        match st with
        | AfterDigit => digits s' AfterUnderscore acc n
        | _ => None
        end
      else
        match digit_val c with
        | Some v => digits s' AfterDigit (10 * acc + v) (S n)
        | None => None
        end
  end.

(** Default of [sys.get_int_max_str_digits()]. *)
Definition max_str_digits : nat := 4300.

Definition signed (s : string) : bool * string :=
  match s with
  | String "-" s' => (true, s')
  | String "+" s' => (false, s')
  | _ => (false, s)
  end.

(** [int(text)] on a string: optional white space around an optional
    sign and the digits. *)
Definition of_str (text : string) : option Z :=
  let t := Str.rstrip_by is_space (Str.lstrip_by is_space text) in
  let '(neg, body) := signed t in
  match digits body AtStart 0 0 with
  | Some (v, n) =>
      if (n <=? max_str_digits)%nat then Some (if neg then - v else v) else None
  | None => None
  end.

(** [str(z)] for an integer: the same limit on the number of digits. *)
Definition str (z : Z) : result string :=
  if (String.length (Str.of_int (Z.abs z)) <=? max_str_digits)%nat
  then Ok (Str.of_int z) else Raise StrValueError.

(** [int(x)] where [x] is a string or [None]. *)
Definition int (x : option string) : result Z :=
  match x with
  | None => Raise IntTypeError
  | Some text =>
      match of_str text with
      | Some z => Ok z
      | None => Raise (IntValueError text)
      end
  end.

End Int.

(** ** The DOM of [xml.dom.minidom] *)

Module Dom.

Inductive node : Type :=
| Element (tagName : string) (attributes : list (string * string))
          (childNodes : list node)
| Text (data : string)                   (* also a CDATA section *)
| Comment (data : string)
| ProcessingInstruction (target data : string).

(** The document node: its children are the root element and the
    comments and processing instructions around it. *)
Record document : Type := Document { documentChildren : list node }.

Definition childNodes (n : node) : list node :=
  match n with
  | Element _ _ kids => kids
  | _ => []
  end.

Definition firstChild (n : node) : option node := head (childNodes n).

Definition nodeValue (n : node) : option string :=
  match n with
  | Element _ _ _ => None
  | Text data => Some data
  | Comment data => Some data
  | ProcessingInstruction _ data => Some data
  end.

Fixpoint lookup_attr (name : string) (attrs : list (string * string))
  : option string :=
  match attrs with
  | [] => None
  | (k, v) :: attrs' => if String.eqb k name then Some v else lookup_attr name attrs'
  end.

(** [element.getAttribute(name)]: the empty string when absent. *)
Definition getAttribute (n : node) (name : string) : string :=
  match n with
  | Element _ attrs _ => default "" (lookup_attr name attrs)
  | _ => ""
  end.

Definition tag_matches (name : string) (n : node) : bool :=
  match n with
  | Element tag _ _ => String.eqb name "*" || String.eqb tag name
  | _ => false
  end.

(** One step of [_get_elements_by_tagName_helper]: the node itself when
    it matches, then the matches below it, in document order. *)
Fixpoint collect (name : string) (n : node) : list node :=
  ((if tag_matches name n then [n] else [])
   ++ match n with
      | Element _ _ kids => flat_map (collect name) kids
      | _ => []
      end)%list.

Definition elements_below (name : string) (kids : list node) : list node :=
  flat_map (collect name) kids.

(** [element.getElementsByTagName(name)] *)
Definition getElementsByTagName (n : node) (name : string) : list node :=
  elements_below name (childNodes n).

(** [document.getElementsByTagName(name)] *)
Definition documentElementsByTagName (d : document) (name : string) : list node :=
  elements_below name (documentChildren d).

(** [_get_elements_by_tagName_helper(parent, name, rc)] as the interpreter
    runs it: one frame for the call on [parent] and, inside it, one call
    for every child, text nodes included.  [frames] is the number of
    nested calls that still fit under the recursion limit; [kids] are the
    children of [parent]. *)
Fixpoint get_elements_by_tagName_helper (frames : nat) (kids : list node)
    (name : string) : result (list node) :=
  match frames with
  | O => Raise RecursionError
  | S frames' =>
      for_in kids
        (fun node rc =>
           let rc := if tag_matches name node then (rc ++ [node])%list else rc in
           below ← get_elements_by_tagName_helper frames' (childNodes node) name;
           Ok (rc ++ below)%list)
        []
  end.

End Dom.

(** ** [datetime]: the calendar of the standard library *)

Module Datetime.

(** A [datetime.datetime] at midnight, as [strptime] with [%Y-%m-%d]
    builds it. *)
Record datetime : Type := mk_datetime { year : Z; month : Z; day : Z }.

Definition MINYEAR : Z := 1.
Definition MAXYEAR : Z := 9999.
Definition MAXORDINAL : Z := 3652059.

Definition is_leap (y : Z) : bool :=
  (y mod 4 =? 0) && (negb (y mod 100 =? 0) || (y mod 400 =? 0)).

Definition days_before_year (y : Z) : Z :=
  let y1 := y - 1 in y1 * 365 + y1 / 4 - y1 / 100 + y1 / 400.

Definition DAYS_IN_MONTH : list Z :=
  [31; 28; 31; 30; 31; 30; 31; 31; 30; 31; 30; 31].

Definition DAYS_BEFORE_MONTH : list Z :=
  [0; 31; 59; 90; 120; 151; 181; 212; 243; 273; 304; 334].

Definition days_in_month (y m : Z) : Z :=
  if (m =? 2) && is_leap y then 29
  else nth (Z.to_nat (m - 1)) DAYS_IN_MONTH 0.

Definition days_before_month (y m : Z) : Z :=
  nth (Z.to_nat (m - 1)) DAYS_BEFORE_MONTH 0
  + (if (2 <? m) && is_leap y then 1 else 0).

Definition ymd2ord (y m d : Z) : Z :=
  days_before_year y + days_before_month y m + d.

Definition DI400Y : Z := 146097.
Definition DI100Y : Z := 36524.
Definition DI4Y : Z := 1461.

Definition ord2ymd (n : Z) : Z * Z * Z :=
  let n := n - 1 in
  let n400 := n / DI400Y in
  let n := n mod DI400Y in
  let y := n400 * 400 + 1 in
  let n100 := n / DI100Y in
  let n := n mod DI100Y in
  let n4 := n / DI4Y in
  let n := n mod DI4Y in
  let n1 := n / 365 in
  let n := n mod 365 in
  let y := y + n100 * 100 + n4 * 4 + n1 in
  if (n1 =? 4) || (n100 =? 4) then (y - 1, 12, 31)
  else
    let leapyear := (n1 =? 3) && (negb (n4 =? 24) || (n100 =? 3)) in
    let m := Z.shiftr (n + 50) 5 in
    let preceding :=
      nth (Z.to_nat (m - 1)) DAYS_BEFORE_MONTH 0
      + (if (2 <? m) && leapyear then 1 else 0) in
    if n <? preceding then
      let m' := m - 1 in
      let preceding' :=
        preceding - (nth (Z.to_nat (m' - 1)) DAYS_IN_MONTH 0
                     + (if (m' =? 2) && leapyear then 1 else 0)) in
      (y, m', n - preceding' + 1)
    else (y, m, n - preceding + 1).

Definition toordinal (t : datetime) : Z := ymd2ord (year t) (month t) (day t).

Definition fromordinal (n : Z) : datetime :=
  let '(y, m, d) := ord2ymd n in mk_datetime y m d.

(** The check of the [datetime] constructor. *)
Definition valid (y m d : Z) : bool :=
  (MINYEAR <=? y) && (y <=? MAXYEAR) && (1 <=? m) && (m <=? 12)
  && (1 <=? d) && (d <=? days_in_month y m).

(** [t + timedelta(days=n)] *)
Definition add_days (t : datetime) (n : Z) : result datetime :=
  let o := toordinal t + n in
  if (0 <? o) && (o <=? MAXORDINAL) then Ok (fromordinal o)
  else Raise OverflowError.

(** [t.weekday()]: Monday is 0. *)
Definition weekday (t : datetime) : Z := (toordinal t + 6) mod 7.

(** *** [strptime(text, "%Y-%m-%d")]

    The format compiles to the regular expression
    [(\d\d\d\d)-(1[0-2]|0[1-9]|[1-9])-(3[0-1]|[1-2]\d|0[1-9]|[1-9]| [1-9])],
    matched at the start of the text.  A group is a function from the
    text to the list of its matches, in the order in which the regular
    expression engine tries them. *)

Definition matcher (A : Type) : Type := string → list (A * string).

Definition digit : matcher Z := fun s =>
  match s with
  | String c r => match Int.digit_val c with Some v => [(v, r)] | None => [] end
  | EmptyString => []
  end.

Definition digit_in (lo hi : Z) : matcher Z := fun s =>
  '(v, r) ← digit s; if (lo <=? v) && (v <=? hi) then [(v, r)] else [].

Definition lit (c : ascii) : matcher unit := fun s =>
  match s with
  | String d r => if Ascii.eqb c d then [(tt, r)] else []
  | EmptyString => []
  end.

Definition group_Y : matcher Z := fun s =>
  '(a, s) ← digit s; '(b, s) ← digit s; '(c, s) ← digit s; '(d, s) ← digit s;
  [(1000 * a + 100 * b + 10 * c + d, s)].

Definition group_m : matcher Z := fun s =>
  (('(_, r) ← lit "1" s; '(b, r) ← digit_in 0 2 r; [(10 + b, r)])
   ++ ('(_, r) ← lit "0" s; digit_in 1 9 r)
   ++ digit_in 1 9 s)%list.

Definition group_d : matcher Z := fun s =>
  (('(_, r) ← lit "3" s; '(b, r) ← digit_in 0 1 r; [(30 + b, r)])
   ++ ('(a, r) ← digit_in 1 2 s; '(b, r) ← digit r; [(10 * a + b, r)])
   ++ ('(_, r) ← lit "0" s; digit_in 1 9 r)
   ++ digit_in 1 9 s
   ++ ('(_, r) ← lit " " s; digit_in 1 9 r))%list.

Definition format_regex : matcher (Z * Z * Z) := fun s =>
  '(y, s) ← group_Y s; '(_, s) ← lit "-" s;
  '(m, s) ← group_m s; '(_, s) ← lit "-" s;
  '(d, s) ← group_d s; [((y, m, d), s)].

(** The first match of the regular expression must cover the text, and
    the fields must form a date. *)
Definition strptime (text : string) : result datetime :=
  match head (format_regex text) with
  | None => Raise (StrptimeValueError text)
  | Some ((y, m, d), rest) =>
      if Str.is_empty rest && valid y m d then Ok (mk_datetime y m d)
      else Raise (StrptimeValueError text)
  end.

End Datetime.

(** ** [weather-script.py] *)

Definition NUM_DAYS : nat := 4.

(** [ICON_TOKEN_RE.fullmatch]: the pattern is [^[a-z0-9_-]+$]. *)
Definition icon_token_char (c : ascii) : bool :=
  Str.is_lower c || Str.is_digit c || Ascii.eqb c "_" || Ascii.eqb c "-".

Definition ICON_TOKEN_RE_fullmatch (s : string) : bool :=
  negb (Str.is_empty s) && Str.all_chars icon_token_char s.

(** The inner loop over the values of one temperature element, into
    [highs] or into [lows]:

      for i in range(min(NUM_DAYS, len(values))):
          if values[i].firstChild is not None:
              slots[i] = int(values[i].firstChild.nodeValue) *)
Definition fill_body (values : list Dom.node) (i : nat) (slots : list (option Z))
  : result (list (option Z)) :=
  match values !! i with
  | None => Raise IndexError
  | Some v =>
      match Dom.firstChild v with
      | None => Ok slots
      | Some fc => z ← Int.int (Dom.nodeValue fc); Ok (<[i := Some z]> slots)
      end
  end.

Definition fill_slots (values : list Dom.node) (slots : list (option Z))
  : result (list (option Z)) :=
  for_each (range (NUM_DAYS `min` length values)) (fill_body values) slots.

(** *** The loops of [parse_weather] on the elements of the document

    Here the elements are those that [Dom.getElementsByTagName] and
    [Dom.documentElementsByTagName] find, the traversal without a recursion
    limit; the statements as the interpreter runs them follow below. *)

(** The body of the loop over the temperature elements. *)
Definition temperature_step (item : Dom.node)
    (st : list (option Z) * list (option Z))
  : result (list (option Z) * list (option Z)) :=
  let '(highs, lows) := st in
  let values := Dom.getElementsByTagName item "value" in
  highs ← (if String.eqb (Dom.getAttribute item "type") "maximum"
           then fill_slots values highs else Ok highs);
  lows ← (if String.eqb (Dom.getAttribute item "type") "minimum"
          then fill_slots values lows else Ok lows);
  Ok (highs, lows).

Definition temperatures (dom : Dom.document)
  : result (list (option Z) * list (option Z)) :=
  for_in (Dom.documentElementsByTagName dom "temperature") temperature_step
    (replicate NUM_DAYS None, replicate NUM_DAYS None).

(** The token of day [i]. *)
Definition icon_token (xml_icons : list Dom.node) (i : nat) : result string :=
  match xml_icons !! i with
  | None => Ok "na"
  | Some e =>
      match Dom.firstChild e with
      | None => Ok "na"
      | Some fc =>
          match Dom.nodeValue fc with
          | None => Raise (NoneAttributeError "split")
          | Some text =>
              seg ← Str.last (Str.split "/" text);
              stem ← Str.first (Str.split "." seg);
              let raw := Str.rstrip "0123456789" stem in
              let normalized := Str.lower raw in
              Ok (if ICON_TOKEN_RE_fullmatch normalized then normalized else "na")
          end
      end
  end.

Definition icon_tokens (dom : Dom.document) : result (list string) :=
  let xml_icons := Dom.documentElementsByTagName dom "icon-link" in
  for_each (range NUM_DAYS)
    (fun i icons => token ← icon_token xml_icons i; Ok (icons ++ [token])%list)
    [].

Definition start_day (dom : Dom.document) : result Datetime.datetime :=
  let xml_start_times := Dom.documentElementsByTagName dom "start-valid-time" in
  match xml_start_times with
  | [] => Raise (ValueError "Weather feed did not contain start-valid-time")
  | e :: _ =>
      match Dom.firstChild e with
      | None => Raise (ValueError "Weather feed did not contain start-valid-time")
      | Some fc =>
          match Dom.nodeValue fc with
          | None => Raise NoneSubscriptTypeError
          | Some text => Datetime.strptime (Str.slice_to 10 text)
          end
      end
  end.

Definition is_None (v : option Z) : bool :=
  match v with None => true | Some _ => false end.

(** Lines 55 to 90 on the elements that [Dom.documentElementsByTagName]
    finds, a traversal without a recursion limit: what [parse_fields] below
    computes on a document that the interpreter can walk. *)
Definition parse_document (dom : Dom.document)
  : result (list (option Z) * list (option Z) * list string * Datetime.datetime) :=
  '(highs, lows) ← temperatures dom;
  icons ← icon_tokens dom;
  day_one ← start_day dom;
  if existsb is_None highs || existsb is_None lows
  then Raise (ValueError "Weather feed did not contain complete high/low temperature data")
  else Ok (highs, lows, icons, day_one).

(** *** The statements of [parse_weather] as the interpreter runs them

    Every [getElementsByTagName] of the script goes through the recursive
    helper of [minidom], [frames] calls deep at most. *)

(** Lines 59 to 67. *)
Definition temperature_step_within (frames : nat) (item : Dom.node)
    (st : list (option Z) * list (option Z))
  : result (list (option Z) * list (option Z)) :=
  let '(highs, lows) := st in
  values ← Dom.get_elements_by_tagName_helper frames (Dom.childNodes item) "value";
  highs ← (if String.eqb (Dom.getAttribute item "type") "maximum"
           then fill_slots values highs else Ok highs);
  lows ← (if String.eqb (Dom.getAttribute item "type") "minimum"
          then fill_slots values lows else Ok lows);
  Ok (highs, lows).

(** Lines 55 to 67. *)
Definition temperatures_within (frames : nat) (dom : Dom.document)
  : result (list (option Z) * list (option Z)) :=
  items ← Dom.get_elements_by_tagName_helper frames (Dom.documentChildren dom)
             "temperature";
  for_in items (temperature_step_within frames)
    (replicate NUM_DAYS None, replicate NUM_DAYS None).

(** Lines 69 to 78. *)
Definition icon_tokens_within (frames : nat) (dom : Dom.document)
  : result (list string) :=
  xml_icons ← Dom.get_elements_by_tagName_helper frames (Dom.documentChildren dom)
                 "icon-link";
  for_each (range NUM_DAYS)
    (fun i icons => token ← icon_token xml_icons i; Ok (icons ++ [token])%list)
    [].

(** Lines 80 to 85. *)
Definition start_day_within (frames : nat) (dom : Dom.document)
  : result Datetime.datetime :=
  xml_start_times ← Dom.get_elements_by_tagName_helper frames
                       (Dom.documentChildren dom) "start-valid-time";
  match xml_start_times with
  | [] => Raise (ValueError "Weather feed did not contain start-valid-time")
  | e :: _ =>
      match Dom.firstChild e with
      | None => Raise (ValueError "Weather feed did not contain start-valid-time")
      | Some fc =>
          match Dom.nodeValue fc with
          | None => Raise NoneSubscriptTypeError
          | Some text => Datetime.strptime (Str.slice_to 10 text)
          end
      end
  end.

(** Lines 55 to 90: [parse_weather] behind the parser, on the document
    that line 53 binds to [dom]. *)
Definition parse_fields (frames : nat) (dom : Dom.document)
  : result (list (option Z) * list (option Z) * list string * Datetime.datetime) :=
  '(highs, lows) ← temperatures_within frames dom;
  icons ← icon_tokens_within frames dom;
  day_one ← start_day_within frames dom;
  if existsb is_None highs || existsb is_None lows
  then Raise (ValueError "Weather feed did not contain complete high/low temperature data")
  else Ok (highs, lows, icons, day_one).

(** *** The module [xml.dom.expatbuilder] of the standard library *)

Module Expatbuilder.

(** The names that the module binds. *)
Definition names : list string :=
  ["CDATA_SECTION_NODE"; "DOCUMENT_NODE"; "EMPTY_NAMESPACE"; "EMPTY_PREFIX";
   "ElementInfo"; "ExpatBuilder"; "ExpatBuilderNS"; "FILTER_ACCEPT";
   "FILTER_INTERRUPT"; "FILTER_REJECT"; "FILTER_SKIP"; "FilterCrutch";
   "FilterVisibilityController"; "FragmentBuilder"; "FragmentBuilderNS";
   "InternalSubsetExtractor"; "Namespaces"; "Node"; "NodeFilter"; "ParseEscape";
   "Rejecter"; "Skipper"; "TEXT_NODE"; "XMLNS_NAMESPACE";
   "_ALLOWED_FILTER_RETURNS"; "_FRAGMENT_BUILDER_INTERNAL_SYSTEM_ID";
   "_FRAGMENT_BUILDER_TEMPLATE"; "__builtins__"; "__cached__"; "__doc__";
   "__file__"; "__loader__"; "__name__"; "__package__"; "__spec__";
   "_append_child"; "_intern"; "_parse_ns_name"; "_set_attribute_node";
   "_typeinfo_map"; "expat"; "makeBuilder"; "minidom"; "parse"; "parseFragment";
   "parseFragmentString"; "parseString"; "theDOMImplementation"; "xmlbuilder"].

(** [xml.dom.expatbuilder.name]: the name itself stands for what it is
    bound to. *)
Definition getattr (name : string) : result string :=
  if existsb (String.eqb name) names then Ok name
  else Raise (ModuleAttributeError "xml.dom.expatbuilder" name).

End Expatbuilder.

(** *** What the script does not compute itself

    The answer of [urllib.request.urlopen(url, timeout=...)] read to its
    end, [None] for an exception of the network layer; what an instance of a
    builder class of [xml.dom.expatbuilder] makes of the bytes, the DOM or an
    exception such as [ExpatError]; the number of nested calls of the
    helper of [getElementsByTagName] that the recursion limit leaves where
    [parse_weather] runs, which is taken to leave room for the calls of
    fixed depth that the script makes besides; the text of the template
    file, [None] for an exception of the file system. *)
Record environment : Type := Environment {
  urlopen : string → Z → option string;
  parseString : string → string → result Dom.document;
  frames_left : nat;
  read_text : option string
}.

(** [parse_weather(weather_xml)] *)
Definition parse_weather (E : environment) (weather_xml : string)
  : result (list (option Z) * list (option Z) * list string * Datetime.datetime) :=
  builder ← Expatbuilder.getattr "DefusedExpatBuilderNS";
  dom ← parseString E builder weather_xml;
  parse_fields (frames_left E) dom.

(** [l[i]] *)
Definition item {A : Type} (l : list A) (i : nat) : result A :=
  match l !! i with
  | Some x => Ok x
  | None => Raise IndexError
  end.

(** [str(v)] for an entry of [highs] or [lows]. *)
Definition str (v : option Z) : result string :=
  match v with
  | Some z => Int.str z
  | None => Ok "None"
  end.

Definition days_of_week : list string :=
  ["Monday"; "Tuesday"; "Wednesday"; "Thursday"; "Friday"; "Caturday"; "Sunday"].

(** [days_of_week[(day_one + n * one_day).weekday()]] *)
Definition day_name (day_one : Datetime.datetime) (n : Z) : result string :=
  t ← Datetime.add_days day_one n;
  item days_of_week (Z.to_nat (Datetime.weekday t)).

(** [render_svg], with the text of the template as an argument. *)
Definition render_svg (highs lows : list (option Z)) (icons : list string)
    (day_one : Datetime.datetime) (template : string) : result string :=
  let output := template in
  v ← item icons 0; let output := Str.replace "ICON_ONE" v output in
  v ← item icons 1; let output := Str.replace "ICON_TWO" v output in
  v ← item icons 2; let output := Str.replace "ICON_THREE" v output in
  v ← item icons 3; let output := Str.replace "ICON_FOUR" v output in
  v ← item highs 0; v ← str v; let output := Str.replace "HIGH_ONE" v output in
  v ← item highs 1; v ← str v; let output := Str.replace "HIGH_TWO" v output in
  v ← item highs 2; v ← str v; let output := Str.replace "HIGH_THREE" v output in
  v ← item highs 3; v ← str v; let output := Str.replace "HIGH_FOUR" v output in
  v ← item lows 0; v ← str v; let output := Str.replace "LOW_ONE" v output in
  v ← item lows 1; v ← str v; let output := Str.replace "LOW_TWO" v output in
  v ← item lows 2; v ← str v; let output := Str.replace "LOW_THREE" v output in
  v ← item lows 3; v ← str v; let output := Str.replace "LOW_FOUR" v output in
  v ← day_name day_one 2; let output := Str.replace "DAY_THREE" v output in
  v ← day_name day_one 3; let output := Str.replace "DAY_FOUR" v output in
  Ok output.

(** ** Notions used in the statements *)

(** The exceptions of [int]. *)
Definition int_error (e : exn) : Prop :=
  e = IntTypeError ∨ ∃ text, e = IntValueError text.

(** *** Reading the icon text

    The three steps of the candidate, as relations on strings. *)

(** [seg] is what follows the last [/] of [text], or all of [text]. *)
Definition final_segment (text seg : string) : Prop :=
  Str.mem_char "/" seg = false
  ∧ (text = seg ∨ ∃ pre, text = pre +:+ String "/" seg).

(** [stem] is what precedes the first [.] of [seg], or all of [seg]. *)
Definition before_first_dot (seg stem : string) : Prop :=
  Str.mem_char "." stem = false
  ∧ (seg = stem ∨ ∃ rest, seg = stem +:+ String "." rest).

Fixpoint ends_with_digit (s : string) : bool :=
  match s with
  | EmptyString => false
  | String c EmptyString => Str.is_digit c
  | String _ s' => ends_with_digit s'
  end.

(** [raw] is [stem] without its trailing decimal digits. *)
Definition without_trailing_digits (stem raw : string) : Prop :=
  ends_with_digit raw = false
  ∧ ∃ ds, stem = raw +:+ ds ∧ Str.all_chars Str.is_digit ds = true.

(** The candidate as the specification words it: the extension is the
    text from the last [.] on. *)
Fixpoint strip_extension (seg : string) : string :=
  match seg with
  | EmptyString => EmptyString
  | String c seg' =>
      if Ascii.eqb c "." && negb (Str.mem_char "." seg') then EmptyString
      else String c (strip_extension seg')
  end.

Definition claimed_icon_token (text : string) : result string :=
  seg ← Str.last (Str.split "/" text);
  let normalized := Str.lower (Str.rstrip "0123456789" (strip_extension seg)) in
  Ok (if ICON_TOKEN_RE_fullmatch normalized then normalized else "na").

(** The text of an element: the character data of the text nodes below
    it, in document order.  Comments and processing instructions are not
    text. *)
Fixpoint text_content (n : Dom.node) : string :=
  match n with
  | Dom.Element _ _ kids => String.concat "" (map text_content kids)
  | Dom.Text data => data
  | _ => ""
  end.

(** *** Sample feeds *)

Definition value_element (text : string) : Dom.node :=
  Dom.Element "value" [] [Dom.Text text].

Definition icon_link (text : string) : Dom.node :=
  Dom.Element "icon-link" [] [Dom.Text text].

Definition sample_feed : Dom.document :=
  Dom.Document
    [Dom.Element "dwml" []
       [Dom.Element "start-valid-time" [] [Dom.Text "2024-03-10T00:00:00"];
        Dom.Element "temperature" [("type", "maximum")]
          [Dom.Element "name" [] [Dom.Text "Daily Maximum Temperature"];
           value_element "70"; value_element "72"; value_element "68";
           value_element "65"];
        Dom.Element "temperature" [("type", "minimum")]
          [value_element "55"; value_element "58"; value_element "50";
           value_element "48"];
        icon_link "https://example.com/path/ICON42.png";
        icon_link "http://forecast.weather.gov/images/wtf/bkn.jpg";
        Dom.Element "icon-link" [] [];
        icon_link "bad/../token"]].

(** An icon-link with a comment before its text. *)
Definition commented_icon_link : Dom.node :=
  Dom.Element "icon-link" []
    [Dom.Comment "x/y.z9"; Dom.Text "http://forecast.weather.gov/images/wtf/bkn.jpg"].

(** The feed with a second dot in the name of the first icon. *)
Definition dotted_icon_feed : Dom.document :=
  Dom.Document
    [Dom.Element "dwml" []
       [Dom.Element "start-valid-time" [] [Dom.Text "2024-03-10T00:00:00"];
        Dom.Element "temperature" [("type", "maximum")]
          [value_element "70"; value_element "72"; value_element "68";
           value_element "65"];
        Dom.Element "temperature" [("type", "minimum")]
          [value_element "55"; value_element "58"; value_element "50";
           value_element "48"];
        icon_link "http://forecast.weather.gov/images/wtf/few.v2.png";
        icon_link "12345.png"]].

(** Three highs only, and no start-valid-time. *)
Definition short_feed : Dom.document :=
  Dom.Document
    [Dom.Element "dwml" []
       [Dom.Element "temperature" [("type", "maximum")]
          [value_element "70"; value_element "72"; value_element "68"];
        Dom.Element "temperature" [("type", "minimum")]
          [value_element "55"; value_element "58"; value_element "50";
           value_element "48"]]].

(** Three highs only, with a start-valid-time. *)
Definition short_dated_feed : Dom.document :=
  Dom.Document
    [Dom.Element "dwml" []
       [Dom.Element "start-valid-time" [] [Dom.Text "2024-03-10T00:00:00"];
        Dom.Element "temperature" [("type", "maximum")]
          [value_element "70"; value_element "72"; value_element "68"];
        Dom.Element "temperature" [("type", "minimum")]
          [value_element "55"; value_element "58"; value_element "50";
           value_element "48"]]].

(** A high that is not a number, and no start-valid-time. *)
Definition garbled_feed : Dom.document :=
  Dom.Document
    [Dom.Element "dwml" []
       [Dom.Element "temperature" [("type", "maximum")]
          [value_element "70"; value_element "7o"; value_element "68";
           value_element "65"];
        Dom.Element "temperature" [("type", "minimum")]
          [value_element "55"; value_element "58"; value_element "50";
           value_element "48"]]].

(** The sample feed with the text of the second high in two nodes, the
    text [7] and a CDATA section [o]. *)
Definition split_value_feed : Dom.document :=
  Dom.Document
    [Dom.Element "dwml" []
       [Dom.Element "start-valid-time" [] [Dom.Text "2024-03-10T00:00:00"];
        Dom.Element "temperature" [("type", "maximum")]
          [value_element "70";
           Dom.Element "value" [] [Dom.Text "7"; Dom.Text "o"];
           value_element "68"; value_element "65"];
        Dom.Element "temperature" [("type", "minimum")]
          [value_element "55"; value_element "58"; value_element "50";
           value_element "48"]]].

(** The sample feed with a comment before the text of the
    start-valid-time. *)
Definition commented_date_feed : Dom.document :=
  Dom.Document
    [Dom.Element "dwml" []
       [Dom.Element "start-valid-time" []
          [Dom.Comment "2001-01-01"; Dom.Text "2024-03-10T00:00:00"];
        Dom.Element "temperature" [("type", "maximum")]
          [value_element "70"; value_element "72"; value_element "68";
           value_element "65"];
        Dom.Element "temperature" [("type", "minimum")]
          [value_element "55"; value_element "58"; value_element "50";
           value_element "48"]]].

(** *** Who writes a slot

    [value_text values i] is the text handed to [int] for position [i]:
    the [nodeValue] of the first child of [values[i]], when there is a first
    child. *)
Definition value_text (values : list Dom.node) (i : nat) : option (option string) :=
  v ← values !! i; fc ← Dom.firstChild v; Some (Dom.nodeValue fc).

Definition slot_source (values : list Dom.node) (i : nat) : option (option string) :=
  if (i <? NUM_DAYS `min` length values)%nat then value_text values i else None.

(** The temperature element [item], of type [kind], assigns slot [i] from
    the text [x]. *)
Definition assigns (kind : string) (item : Dom.node) (i : nat) (x : option string)
  : Prop :=
  Dom.getAttribute item "type" = kind
  ∧ slot_source (Dom.getElementsByTagName item "value") i = Some x.

(** Slot [i] holds what the last element that assigns it wrote, and is
    unset when no element assigns it. *)
Definition last_write_wins (slots : list (option Z)) (kind : string)
    (items : list Dom.node) (i : nat) : Prop :=
  (slots !! i = Some None ↔ ∀ item x, item ∈ items → ¬ assigns kind item i x)
  ∧ ∀ z, slots !! i = Some (Some z) ↔
         ∃ before item after x,
           items = (before ++ item :: after)%list ∧ assigns kind item i x
           ∧ Int.int x = Ok z
           ∧ ∀ item' x', item' ∈ after → ¬ assigns kind item' i x'.

(** The text of the last element of [items] that assigns slot [i]. *)
Fixpoint last_source (kind : string) (items : list Dom.node) (i : nat)
  : option (option string) :=
  match items with
  | [] => None
  | item :: rest =>
      match last_source kind rest i with
      | Some x => Some x
      | None =>
          if String.eqb (Dom.getAttribute item "type") kind
          then slot_source (Dom.getElementsByTagName item "value") i
          else None
      end
  end.

Definition to_slot (x : option string) : option (option Z) :=
  match Int.int x with
  | Ok z => Some (Some z)
  | Raise _ => None
  end.

(** The temperature loop as the claim words it: only the value elements
    that are children of the temperature element count. *)
Definition value_children (item : Dom.node) : list Dom.node :=
  filter (λ n, Dom.tag_matches "value" n = true) (Dom.childNodes item).

Definition claimed_temperature_step (item : Dom.node)
    (st : list (option Z) * list (option Z))
  : result (list (option Z) * list (option Z)) :=
  let '(highs, lows) := st in
  let values := value_children item in
  highs ← (if String.eqb (Dom.getAttribute item "type") "maximum"
           then fill_slots values highs else Ok highs);
  lows ← (if String.eqb (Dom.getAttribute item "type") "minimum"
          then fill_slots values lows else Ok lows);
  Ok (highs, lows).

Definition claimed_temperatures (dom : Dom.document)
  : result (list (option Z) * list (option Z)) :=
  for_in (Dom.documentElementsByTagName dom "temperature") claimed_temperature_step
    (replicate NUM_DAYS None, replicate NUM_DAYS None).

(** There are at least two temperature elements of type [kind]. *)
Definition several (kind : string) (dom : Dom.document) : Prop :=
  (2 ≤ length (filter (λ item, Dom.getAttribute item "type" = kind)
                 (Dom.documentElementsByTagName dom "temperature")))%nat.

(** Two maximum and two minimum elements; the values of the second
    maximum element sit one level below it. *)
Definition nested_feed : Dom.document :=
  Dom.Document
    [Dom.Element "dwml" []
       [Dom.Element "start-valid-time" [] [Dom.Text "2024-03-10T00:00:00"];
        Dom.Element "temperature" [("type", "maximum")]
          [value_element "70"; value_element "72"; value_element "68";
           value_element "65"];
        Dom.Element "temperature" [("type", "minimum")]
          [value_element "55"; value_element "58"; value_element "50";
           value_element "48"];
        Dom.Element "temperature" [("type", "maximum")]
          [Dom.Element "values" [] [value_element "80"; value_element "81"]];
        Dom.Element "temperature" [("type", "minimum")]
          [value_element "60"]]].

(** Two maximum elements; the second has three values, the second of them
    without text. *)
Definition repeated_feed : Dom.document :=
  Dom.Document
    [Dom.Element "dwml" []
       [Dom.Element "start-valid-time" [] [Dom.Text "2024-03-10T00:00:00"];
        Dom.Element "temperature" [("type", "maximum")]
          [value_element "70"; value_element "72"; value_element "68";
           value_element "65"; value_element "61"];
        Dom.Element "temperature" [("type", "minimum")]
          [value_element "55"; value_element "58"; value_element "50";
           value_element "48"];
        Dom.Element "temperature" [("type", "maximum")]
          [value_element "80"; Dom.Element "value" [] []; value_element "88"]]].

(** *** The shape [YYYY-MM-DD]

    The fields of a text of exactly four digits, a hyphen, two digits, a
    hyphen and two digits. *)
Definition iso_fields (s : string) : option (Z * Z * Z) :=
  match s with
  | String y1 (String y2 (String y3 (String y4 (String h1
      (String m1 (String m2 (String h2 (String d1 (String d2 EmptyString))))))))) =>
      if Ascii.eqb h1 "-" && Ascii.eqb h2 "-" then
        a ← Int.digit_val y1; b ← Int.digit_val y2;
        c ← Int.digit_val y3; d ← Int.digit_val y4;
        m1 ← Int.digit_val m1; m2 ← Int.digit_val m2;
        d1 ← Int.digit_val d1; d2 ← Int.digit_val d2;
        Some (1000 * a + 100 * b + 10 * c + d, 10 * m1 + m2, 10 * d1 + d2)
      else None
  | _ => None
  end.

(** A start-valid-time without the leading zeros. *)
Definition unpadded_date_feed : Dom.document :=
  Dom.Document
    [Dom.Element "dwml" []
       [Dom.Element "start-valid-time" [] [Dom.Text "2024-3-5"];
        Dom.Element "temperature" [("type", "maximum")]
          [value_element "70"; value_element "72"; value_element "68";
           value_element "65"];
        Dom.Element "temperature" [("type", "minimum")]
          [value_element "55"; value_element "58"; value_element "50";
           value_element "48"]]].

(** *** The calendar *)

(** The month and the day of the [n]-th day (from 0) of a year, as the
    tail of [ord2ymd] computes them. *)
Definition month_day (leapyear : bool) (n : Z) : Z * Z :=
  let m := Z.shiftr (n + 50) 5 in
  let preceding :=
    nth (Z.to_nat (m - 1)) Datetime.DAYS_BEFORE_MONTH 0
    + (if (2 <? m) && leapyear then 1 else 0) in
  if n <? preceding then
    let m' := m - 1 in
    let preceding' :=
      preceding - (nth (Z.to_nat (m' - 1)) Datetime.DAYS_IN_MONTH 0
                   + (if (m' =? 2) && leapyear then 1 else 0)) in
    (m', n - preceding' + 1)
  else (m, n - preceding + 1).

(** The check that [month_day] inverts [days_before_month] on day [n]. *)
Definition month_day_ok (leapyear : bool) (n : Z) : bool :=
  let '(m, d) := month_day leapyear n in
  (nth (Z.to_nat (m - 1)) Datetime.DAYS_BEFORE_MONTH 0
   + (if (2 <? m) && leapyear then 1 else 0) + d =? n + 1)
  && (1 <=? m) && (m <=? 12) && (1 <=? d)
  && (d <=? (if (m =? 2) && leapyear then 29
             else nth (Z.to_nat (m - 1)) Datetime.DAYS_IN_MONTH 0)).

(** *** Rendering as a list of replacements *)

(** The replacements of [render_svg], in its order, and what each of the
    two halves of the function looks up. *)
Definition value_steps (highs lows : list (option Z)) (icons : list string)
  : result (list (string * string)) :=
  i0 ← item icons 0; i1 ← item icons 1; i2 ← item icons 2; i3 ← item icons 3;
  h0 ← item highs 0; h0 ← str h0; h1 ← item highs 1; h1 ← str h1;
  h2 ← item highs 2; h2 ← str h2; h3 ← item highs 3; h3 ← str h3;
  l0 ← item lows 0; l0 ← str l0; l1 ← item lows 1; l1 ← str l1;
  l2 ← item lows 2; l2 ← str l2; l3 ← item lows 3; l3 ← str l3;
  Ok [("ICON_ONE", i0); ("ICON_TWO", i1); ("ICON_THREE", i2); ("ICON_FOUR", i3);
      ("HIGH_ONE", h0); ("HIGH_TWO", h1); ("HIGH_THREE", h2); ("HIGH_FOUR", h3);
      ("LOW_ONE", l0); ("LOW_TWO", l1); ("LOW_THREE", l2); ("LOW_FOUR", l3)].

Definition day_steps (day_one : Datetime.datetime) : result (list (string * string)) :=
  d3 ← day_name day_one 2; d4 ← day_name day_one 3;
  Ok [("DAY_THREE", d3); ("DAY_FOUR", d4)].

Definition substitutions (highs lows : list (option Z)) (icons : list string)
    (day_one : Datetime.datetime) : result (list (string * string)) :=
  vs ← value_steps highs lows icons; ds ← day_steps day_one; Ok (vs ++ ds)%list.

Definition apply_all (steps : list (string * string)) (s : string) : string :=
  fold_left (λ out step, Str.replace step.1 step.2 out) steps s.

Definition placeholders : list string :=
  ["ICON_ONE"; "ICON_TWO"; "ICON_THREE"; "ICON_FOUR";
   "HIGH_ONE"; "HIGH_TWO"; "HIGH_THREE"; "HIGH_FOUR";
   "LOW_ONE"; "LOW_TWO"; "LOW_THREE"; "LOW_FOUR"; "DAY_THREE"; "DAY_FOUR"].

(** *** Matches of a pattern in a text *)

(** [old] occurs in [s]. *)
Definition occurs (old s : string) : Prop := ∃ x y, s = x +:+ old +:+ y.

Fixpoint occursb (old s : string) : bool :=
  Str.startswith old s
  || match s with
     | EmptyString => false
     | String _ s' => occursb old s'
     end.

(** No match of [old] in [x +:+ r] begins in [x]. *)
Definition free (old x r : string) : Prop :=
  ∀ x1 x2, x = x1 +:+ x2 → x2 ≠ "" → Str.startswith old (x2 +:+ r) = false.

(** One of [a] and [b] is a prefix of the other. *)
Definition compat (a b : string) : bool := Str.startswith a b || Str.startswith b a.

(** [p] holds of every non-empty suffix of [s]. *)
Fixpoint suffixes_ok (p : string → bool) (s : string) : bool :=
  match s with
  | EmptyString => true
  | String _ s' => p s && suffixes_ok p s'
  end.

Definition tail (s : string) : string :=
  match s with
  | EmptyString => EmptyString
  | String _ s' => s'
  end.

(** No match of [old] that begins before a piece [w] of text reaches into
    [w]; no match of [old] begins inside [w]; both. *)
Definition detached (old w : string) : bool :=
  suffixes_ok (λ q, negb (compat q w)) (tail old).

Definition closed (old w : string) : bool :=
  negb (Str.is_empty w) && suffixes_ok (λ u, negb (compat old u)) w.

Definition inert (old w : string) : bool := detached old w && closed old w.

(** The characters of the placeholders, and their layout: capital letters
    and underscores, a capital letter first and after every underscore. *)
Definition marker_char (c : ascii) : bool := Str.is_upper c || Ascii.eqb c "_".

Fixpoint guarded (s : string) : bool :=
  match s with
  | EmptyString => true
  | String c s' =>
      (if Ascii.eqb c "_"
       then match s' with
            | EmptyString => false
            | String d _ => Str.is_upper d
            end
       else true)
      && guarded s'
  end.

Definition marker_pattern (old : string) : bool :=
  match old with
  | EmptyString => false
  | String c _ => Str.is_upper c
  end
  && Str.all_chars marker_char old && guarded old.

(** The replacements of a rendering: the placeholders in the order of
    [render_svg], each with a text that no match of a placeholder touches. *)
Definition clear_steps (steps : list (string * string)) : Prop :=
  steps.*1 = placeholders
  ∧ ∀ st q, st ∈ steps → q ∈ placeholders → inert q st.2 = true.

(** The values of the end-to-end scenario, and the same with ["_"] as the
    first icon token. *)
Definition sample_highs : list (option Z) := [Some 70; Some 72; Some 68; Some 65].
Definition sample_lows : list (option Z) := [Some 55; Some 58; Some 50; Some 48].
Definition sample_icons : list string := ["few"; "bkn"; "na"; "rain"].
Definition underscore_icons : list string := ["_"; "bkn"; "na"; "rain"].
Definition sample_day : Datetime.datetime := Datetime.mk_datetime 2024 6 3.

Definition sample_steps : list (string * string) :=
  [("ICON_ONE", "few"); ("ICON_TWO", "bkn"); ("ICON_THREE", "na");
   ("ICON_FOUR", "rain");
   ("HIGH_ONE", "70"); ("HIGH_TWO", "72"); ("HIGH_THREE", "68"); ("HIGH_FOUR", "65");
   ("LOW_ONE", "55"); ("LOW_TWO", "58"); ("LOW_THREE", "50"); ("LOW_FOUR", "48");
   ("DAY_THREE", "Wednesday"); ("DAY_FOUR", "Thursday")].

(** The replacements with the icon token ["_"], in the order of
    [render_svg] and with the first replacement made last. *)
Definition underscore_steps : list (string * string) :=
  ("ICON_ONE", "_") :: tl sample_steps.

Definition underscore_steps_rotated : list (string * string) :=
  (tl sample_steps ++ [("ICON_ONE", "_")])%list.

(** ** [fetch_weather_xml] and [main] *)

Module Url.

(** The characters that [urllib.parse.quote] never escapes. *)
Definition always_safe (c : ascii) : bool :=
  Str.is_lower c || Str.is_upper c || Str.is_digit c || Str.mem_char c "_.-~".

Definition hex_digit (n : N) : ascii :=
  nth (N.to_nat n) (list_ascii_of_string "0123456789ABCDEF") "0"%char.

Definition percent (byte : N) : string :=
  String "%" (String (hex_digit (byte / 16)) (String (hex_digit (byte mod 16)) "")).

(** The UTF-8 bytes of a code point below 256. *)
Definition utf8 (c : ascii) : list N :=
  let n := Str.code c in
  if (n <? 128)%N then [n] else [192 + n / 64; 128 + n mod 64]%N.

(** [quote_plus(s)]: a space becomes [+], every other character outside
    the safe ones is escaped byte by byte. *)
Fixpoint quote_plus (s : string) : string :=
  match s with
  | EmptyString => EmptyString
  | String c s' =>
      (if always_safe c then String c ""
       else if Ascii.eqb c " " then "+"
       else String.concat "" (map percent (utf8 c)))
      +:+ quote_plus s'
  end.

(** [urlencode(params)] for a dict of strings, in the order of insertion. *)
Definition urlencode (params : list (string * string)) : string :=
  String.concat "&"
    (map (λ kv, quote_plus kv.1 +:+ "=" +:+ quote_plus kv.2) params).

End Url.

Definition NWS_ENDPOINT : string :=
  "https://graphical.weather.gov/xml/SOAP_server/ndfdSOAPclientByDay.php".
Definition REQUEST_TIMEOUT_SECONDS : Z := 15.

(** How a run ends: with a value, or with an exception of the network
    layer, of the file system, or of the script and the parser. *)
Inductive outcome (A : Type) : Type :=
| Done (a : A)
| UrlopenRaised
| ReadTextRaised
| Raised (e : exn).
Arguments Done {A} a.
Arguments UrlopenRaised {A}.
Arguments ReadTextRaised {A}.
Arguments Raised {A} e.

Definition fetch_weather_xml (E : environment) : outcome string :=
  match Int.str (Z.of_nat NUM_DAYS) with
  | Raise e => Raised e
  | Ok num_days =>
      let params :=
        [("whichClient", "NDFDgenByDay"); ("lat", "38.7197"); ("lon", "-77.1546");
         ("format", "24 hourly"); ("numDays", num_days); ("Unit", "e")] in
      let query := Url.urlencode params in
      let url := NWS_ENDPOINT +:+ "?" +:+ query in
      match urlopen E url REQUEST_TIMEOUT_SECONDS with
      | Some body => Done body
      | None => UrlopenRaised
      end
  end.

(** [main]: the value is the text handed to [OUTPUT_SVG.write_text]. *)
Definition main (E : environment) : outcome string :=
  match fetch_weather_xml E with
  | Done weather_xml =>
      match parse_weather E weather_xml with
      | Raise e => Raised e
      | Ok (highs, lows, icons, day_one) =>
          match read_text E with
          | None => ReadTextRaised
          | Some template =>
              match render_svg highs lows icons day_one template with
              | Ok output => Done output
              | Raise e => Raised e
              end
          end
      end
  | UrlopenRaised => UrlopenRaised
  | ReadTextRaised => ReadTextRaised
  | Raised e => Raised e
  end.

(** ** More notions *)

(** The recursion limit leaves room for the traversal of the document. *)
Definition walkable (frames : nat) (dom : Dom.document) : Prop :=
  ∃ found,
    Dom.get_elements_by_tagName_helper frames (Dom.documentChildren dom) "*"
    = Ok found.

(** The exceptions that leave lines 55 to 90 of [parse_weather] on a
    document that the interpreter can walk. *)
Definition parse_error (e : exn) : Prop :=
  int_error e
  ∨ e = NoneAttributeError "split"
  ∨ e = NoneSubscriptTypeError
  ∨ (∃ text, e = StrptimeValueError text)
  ∨ e = ValueError "Weather feed did not contain start-valid-time"
  ∨ e = ValueError "Weather feed did not contain complete high/low temperature data".

(** A temperature element that the loop reads. *)
Definition high_or_low (item : Dom.node) : bool :=
  String.eqb (Dom.getAttribute item "type") "maximum"
  || String.eqb (Dom.getAttribute item "type") "minimum".

(** The first child of the [i]-th icon-link is an element: it has no
    [nodeValue]. *)
Definition icon_without_text (xml_icons : list Dom.node) (i : nat) : Prop :=
  ∃ e fc, xml_icons !! i = Some e ∧ Dom.firstChild e = Some fc
          ∧ Dom.nodeValue fc = None.

(** The sample feed with an element inside the second icon-link, and
    with a fifth icon-link of that kind. *)
Definition marked_up_icon_feed : Dom.document :=
  Dom.Document
    [Dom.Element "dwml" []
       [Dom.Element "start-valid-time" [] [Dom.Text "2024-03-10T00:00:00"];
        Dom.Element "temperature" [("type", "maximum")]
          [value_element "70"; value_element "72"; value_element "68";
           value_element "65"];
        Dom.Element "temperature" [("type", "minimum")]
          [value_element "55"; value_element "58"; value_element "50";
           value_element "48"];
        icon_link "https://example.com/path/ICON42.png";
        Dom.Element "icon-link" [] [Dom.Element "b" [] [Dom.Text "bkn.jpg"]]]].

Definition five_icons_feed : Dom.document :=
  Dom.Document
    [Dom.Element "dwml" []
       [Dom.Element "start-valid-time" [] [Dom.Text "2024-03-10T00:00:00"];
        Dom.Element "temperature" [("type", "maximum")]
          [Dom.Element "name" [] [Dom.Text "Daily Maximum Temperature"];
           value_element "70"; value_element "72"; value_element "68";
           value_element "65"; value_element "n/a"];
        Dom.Element "temperature" [("type", "apparent")]
          [value_element "warm"];
        Dom.Element "temperature" [("type", "minimum")]
          [value_element "55"; value_element "58"; value_element "50";
           value_element "48"];
        icon_link "https://example.com/path/ICON42.png";
        icon_link "http://forecast.weather.gov/images/wtf/bkn.jpg";
        Dom.Element "icon-link" [] [];
        icon_link "bad/../token";
        Dom.Element "icon-link" [] [Dom.Element "b" [] []]]].

(** *** Decimal digits *)

(** The digits [d] behind one more leading digit, of value [v]. *)
Definition push_digit (v : Z) (d : Decimal.uint) : Decimal.uint :=
  match v with
  | 0 => Decimal.D0 d
  | 1 => Decimal.D1 d
  | 2 => Decimal.D2 d
  | 3 => Decimal.D3 d
  | 4 => Decimal.D4 d
  | 5 => Decimal.D5 d
  | 6 => Decimal.D6 d
  | 7 => Decimal.D7 d
  | 8 => Decimal.D8 d
  | _ => Decimal.D9 d
  end.

(** *** Plain text *)

(** Letters, digits, the underscore and the hyphen: characters without a
    meaning in XML. *)
Definition plain_char (c : ascii) : bool :=
  Str.is_lower c || Str.is_upper c || Str.is_digit c
  || Ascii.eqb c "_" || Ascii.eqb c "-".

(** A run in which the network answers, the parser would build the
    sample feed and the template file holds the given text. *)
Definition sample_environment (template : string) : environment :=
  Environment (λ _ _, Some "<dwml/>") (λ _ _, Ok sample_feed) 900 (Some template).
(** * Properties *)

(** ** The result monad and the loops *)

Lemma bind_Ok {A B : Type} (m : result A) (f : A → result B) (b : B) :
  m ≫= f = Ok b → ∃ a, m = Ok a ∧ f a = Ok b.
Proof. destruct m as [a|e]; simpl; [eauto | discriminate]. Qed.

Lemma bind_Raise {A B : Type} (m : result A) (f : A → result B) (e : exn) :
  m ≫= f = Raise e → m = Raise e ∨ ∃ a, m = Ok a ∧ f a = Raise e.
Proof. destruct m as [a|e']; simpl; [eauto | intros [= ->]; eauto]. Qed.

Ltac inv_bind H :=
  let a := fresh "a" in
  let Ha := fresh "Hm" in
  apply bind_Ok in H; destruct H as (a & Ha & H).

Section Loops.
Context {X S : Type}.

(** An invariant of the body is an invariant of the loop. *)
Lemma for_in_invariant (I : S → Prop) (xs : list X) (body : X → S → result S) :
  (∀ x st st', x ∈ xs → I st → body x st = Ok st' → I st') →
  ∀ st st', I st → for_in xs body st = Ok st' → I st'.
Proof.
  induction xs as [|x xs IH]; intros Hbody st st' Hst H; simpl in H.
  - by injection H as <-.
  - inv_bind H. eapply IH; [| |exact H].
    + intros y s s' Hy; apply Hbody; by right.
    + eapply Hbody; [by left|exact Hst|done].
Qed.

(** Every exception of the loop is an exception of its body. *)
Lemma for_in_Raise (xs : list X) (body : X → S → result S) (st : S) (e : exn) :
  for_in xs body st = Raise e → ∃ x st0, x ∈ xs ∧ body x st0 = Raise e.
Proof.
  revert st; induction xs as [|x xs IH]; intros st H; simpl in H; [discriminate|].
  apply bind_Raise in H as [H|(st1 & _ & H)].
  - exists x, st; split; [by left|done].
  - destruct (IH _ H) as (y & st0 & Hy & Hb). exists y, st0; split; [by right|done].
Qed.

(** A step that raises from every state makes the loop raise. *)
Lemma for_in_must_raise (P : exn → Prop) (xs : list X) (body : X → S → result S) :
  (∀ x st e, x ∈ xs → body x st = Raise e → P e) →
  (∃ x, x ∈ xs ∧ ∀ st, ∃ e, body x st = Raise e) →
  ∀ st, ∃ e, for_in xs body st = Raise e ∧ P e.
Proof.
  intros Hall (x & Hx & Hbad) st.
  destruct (for_in xs body st) as [st'|e] eqn:H.
  - exfalso. revert st st' H. induction xs as [|y xs IH]; intros st st' H.
    + by apply elem_of_nil in Hx.
    + simpl in H. inv_bind H. apply elem_of_cons in Hx as [->|Hx].
      * destruct (Hbad st) as (e & He). congruence.
      * eapply IH; [|exact Hx|exact H]. intros z s e Hz; apply Hall; by right.
  - exists e; split; [done|]. apply for_in_Raise in H as (y & st0 & Hy & Hb).
    eapply Hall; eauto.
Qed.

End Loops.

Lemma for_each_for_in {S : Type} (idxs : list nat) (body : nat → S → result S) (st : S) :
  for_each idxs body st = for_in idxs body st.
Proof. revert st; induction idxs as [|i idxs IH]; intros st; simpl; [done|].
  destruct (body i st); simpl; auto. Qed.

(** ** Filling the slots of one temperature element *)

Lemma fill_slots_unfold (values : list Dom.node) (slots : list (option Z)) :
  fill_slots values slots
  = for_in (range (NUM_DAYS `min` length values)) (fill_body values) slots.
Proof. unfold fill_slots. by rewrite for_each_for_in. Qed.

Lemma int_Raise (x : option string) (e : exn) : Int.int x = Raise e → int_error e.
Proof.
  destruct x as [text|]; simpl.
  - destruct (Int.of_str text); [discriminate|]. intros [= <-]. right; eauto.
  - intros [= <-]. by left.
Qed.

Lemma elem_of_range (i n : nat) : i ∈ range n ↔ (i < n)%nat.
Proof. unfold range. rewrite elem_of_seq. lia. Qed.

Lemma fill_body_Raise (values : list Dom.node) (i : nat) slots e :
  (i < length values)%nat → fill_body values i slots = Raise e → int_error e.
Proof.
  intros Hi. unfold fill_body.
  destruct (lookup_lt_is_Some_2 values i Hi) as [v ->].
  destruct (Dom.firstChild v) as [fc|]; [|discriminate].
  intros H. apply bind_Raise in H as [H|(z & _ & H)]; [|discriminate].
  by eapply int_Raise.
Qed.

Lemma fill_slots_Raise (values : list Dom.node) slots e :
  fill_slots values slots = Raise e → int_error e.
Proof.
  rewrite fill_slots_unfold. intros H.
  apply for_in_Raise in H as (i & st0 & Hi & H).
  apply elem_of_range in Hi. eapply fill_body_Raise; [|exact H]. lia.
Qed.

Lemma fill_body_length (values : list Dom.node) (i : nat) slots slots' :
  fill_body values i slots = Ok slots' → length slots' = length slots.
Proof.
  unfold fill_body. destruct (values !! i) as [v|]; [|discriminate].
  destruct (Dom.firstChild v) as [fc|]; [|by intros [= <-]].
  intros H. inv_bind H. injection H as <-. by rewrite length_insert.
Qed.

Lemma fill_slots_length (values : list Dom.node) slots slots' :
  fill_slots values slots = Ok slots' → length slots' = length slots.
Proof.
  rewrite fill_slots_unfold.
  apply (for_in_invariant (fun s => length s = length slots)); [|done].
  intros i st st' _ Hst H. apply fill_body_length in H. congruence.
Qed.

(** ** The temperature loop *)

Lemma temperature_step_length item highs lows highs' lows' :
  temperature_step item (highs, lows) = Ok (highs', lows') →
  length highs' = length highs ∧ length lows' = length lows.
Proof.
  unfold temperature_step. intros H.
  apply bind_Ok in H as (hs & Hh & H). apply bind_Ok in H as (ls & Hl & H).
  injection H as <- <-. split.
  - destruct (String.eqb _ "maximum"); [by eapply fill_slots_length|congruence].
  - destruct (String.eqb _ "minimum"); [by eapply fill_slots_length|congruence].
Qed.

Lemma temperatures_length dom highs lows :
  temperatures dom = Ok (highs, lows) →
  length highs = NUM_DAYS ∧ length lows = NUM_DAYS.
Proof.
  unfold temperatures. intros H.
  pose (I := fun st : list (option Z) * list (option Z) =>
               length st.1 = NUM_DAYS ∧ length st.2 = NUM_DAYS).
  change (I (highs, lows)). eapply (for_in_invariant I); [| |exact H].
  - intros item [hs ls] [hs' ls'] _ [Hh Hl] Hs; unfold I in *; simpl in *.
    apply temperature_step_length in Hs as [-> ->]. done.
  - unfold I; simpl. done.
Qed.

Lemma temperature_step_Raise item st e :
  temperature_step item st = Raise e → int_error e.
Proof.
  destruct st as [highs lows]. unfold temperature_step. intros H.
  apply bind_Raise in H as [H|(hs & _ & H)].
  - destruct (String.eqb _ "maximum"); [by eapply fill_slots_Raise|discriminate].
  - apply bind_Raise in H as [H|(ls & _ & H)]; [|discriminate].
    destruct (String.eqb _ "minimum"); [by eapply fill_slots_Raise|discriminate].
Qed.

Lemma temperatures_Raise dom e : temperatures dom = Raise e → int_error e.
Proof.
  unfold temperatures. intros H.
  apply for_in_Raise in H as (item & st0 & _ & H). by eapply temperature_step_Raise.
Qed.

Lemma existsb_is_None (slots : list (option Z)) :
  existsb is_None slots = false ↔ Forall (λ v, ∃ z : Z, v = Some z) slots.
Proof.
  induction slots as [|v slots IH]; simpl.
  - split; [constructor|done].
  - rewrite orb_false_iff, IH, Forall_cons. destruct v; simpl; split.
    + intros [_ H]; eauto.
    + intros [_ H]; eauto.
    + intros [? _]; discriminate.
    + intros [[z ?] _]; discriminate.
Qed.

(** ** The icon tokens *)

Lemma icon_tokens_unfold dom :
  icon_tokens dom =
  let xml_icons := Dom.documentElementsByTagName dom "icon-link" in
  t0 ← icon_token xml_icons 0; t1 ← icon_token xml_icons 1;
  t2 ← icon_token xml_icons 2; t3 ← icon_token xml_icons 3;
  Ok [t0; t1; t2; t3].
Proof.
  unfold icon_tokens; simpl.
  destruct (icon_token _ 0); simpl; [|done].
  destruct (icon_token _ 1); simpl; [|done].
  destruct (icon_token _ 2); simpl; [|done].
  destruct (icon_token _ 3); simpl; done.
Qed.

Lemma icon_tokens_Ok dom icons :
  icon_tokens dom = Ok icons →
  length icons = NUM_DAYS ∧
  ∀ i, (i < NUM_DAYS)%nat →
       ∃ t, icons !! i = Some t
            ∧ icon_token (Dom.documentElementsByTagName dom "icon-link") i = Ok t.
Proof.
  rewrite icon_tokens_unfold; simpl. intros H.
  apply bind_Ok in H as (t0 & H0 & H). apply bind_Ok in H as (t1 & H1 & H).
  apply bind_Ok in H as (t2 & H2 & H). apply bind_Ok in H as (t3 & H3 & H).
  injection H as <-. split; [done|].
  intros i Hi. unfold NUM_DAYS in Hi.
  destruct i as [|[|[|[|i]]]]; simpl; eauto. lia.
Qed.

Lemma icon_token_allowed xml_icons i t :
  icon_token xml_icons i = Ok t → ICON_TOKEN_RE_fullmatch t = true.
Proof.
  unfold icon_token.
  destruct (xml_icons !! i) as [e|]; [|by intros [= <-]].
  destruct (Dom.firstChild e) as [fc|]; [|by intros [= <-]].
  destruct (Dom.nodeValue fc) as [text|]; [|discriminate].
  intros H. apply bind_Ok in H as (seg & _ & H). apply bind_Ok in H as (stem & _ & H).
  injection H as <-.
  destruct (ICON_TOKEN_RE_fullmatch (Str.lower _)) eqn:E; [exact E|done].
Qed.

(** ** What lines 55 to 90 return *)

Lemma parse_document_Ok dom highs lows icons day_one :
  parse_document dom = Ok (highs, lows, icons, day_one) ↔
  temperatures dom = Ok (highs, lows) ∧ icon_tokens dom = Ok icons
  ∧ start_day dom = Ok day_one
  ∧ existsb is_None highs = false ∧ existsb is_None lows = false.
Proof.
  unfold parse_document. split.
  - intros H. apply bind_Ok in H as ([hs ls] & Ht & H).
    apply bind_Ok in H as (ic & Hi & H). apply bind_Ok in H as (d & Hd & H).
    destruct (existsb is_None hs) eqn:Eh; [discriminate|].
    destruct (existsb is_None ls) eqn:El; [discriminate|].
    simpl in H. injection H as <- <- <- <-. done.
  - intros (Ht & Hi & Hd & Hh & Hl).
    rewrite Ht; simpl. rewrite Hi; simpl. rewrite Hd; simpl. by rewrite Hh, Hl.
Qed.

Lemma parse_document_shape dom highs lows icons day_one :
  parse_document dom = Ok (highs, lows, icons, day_one) →
  (length highs = NUM_DAYS ∧ length lows = NUM_DAYS ∧ length icons = NUM_DAYS)
  ∧ Forall (λ v, ∃ z : Z, v = Some z) highs
  ∧ Forall (λ v, ∃ z : Z, v = Some z) lows
  ∧ Forall (λ t, ICON_TOKEN_RE_fullmatch t = true) icons
  ∧ ICON_TOKEN_RE_fullmatch "na" = true.
Proof.
  rewrite parse_document_Ok. intros (Ht & Hi & _ & Hh & Hl).
  apply temperatures_length in Ht as [Hlh Hll].
  apply icon_tokens_Ok in Hi as [Hli Hi].
  repeat split; try done.
  - by apply existsb_is_None.
  - by apply existsb_is_None.
  - apply Forall_lookup. intros i t Hit.
    destruct (Hi i) as (t' & Ht' & Htok).
    { rewrite <- Hli. by eapply lookup_lt_Some. }
    rewrite Hit in Ht'. injection Ht' as <-. by eapply icon_token_allowed.
Qed.
(** * The traversal under the recursion limit *)

(** ** Loops *)

Lemma for_in_ext {X S : Type} (xs : list X) (f g : X → S → result S) :
  (∀ x st, x ∈ xs → f x st = g x st) → ∀ st, for_in xs f st = for_in xs g st.
Proof.
  induction xs as [|x xs IH]; intros H st; simpl; [done|].
  rewrite (H x st) by (by left). destruct (g x st); simpl; [|done].
  apply IH. intros y s Hy. apply H. by right.
Qed.

(** In a loop that completes every step has completed. *)
Lemma for_in_Ok_each {X S : Type} (xs : list X) (body : X → S → result S) :
  ∀ st st', for_in xs body st = Ok st' →
            ∀ x, x ∈ xs → ∃ s s', body x s = Ok s'.
Proof.
  induction xs as [|y xs IH]; intros st st' H x Hx.
  - by apply elem_of_nil in Hx.
  - simpl in H. inv_bind H. apply elem_of_cons in Hx as [->|Hx]; [eauto|].
    by eapply IH.
Qed.

(** A loop whose steps all succeed succeeds. *)
Lemma for_in_all_Ok {X S : Type} (xs : list X) (body : X → S → result S) :
  (∀ x st, x ∈ xs → ∃ st', body x st = Ok st') →
  ∀ st, ∃ st', for_in xs body st = Ok st'.
Proof.
  induction xs as [|x xs IH]; intros H st; simpl; [eauto|].
  destruct (H x st) as (st1 & ->); [by left|]. simpl.
  apply IH. intros y s Hy. apply H. by right.
Qed.

(** ** The helper of [getElementsByTagName] *)

Lemma collect_unfold (name : string) (n : Dom.node) :
  Dom.collect name n
  = ((if Dom.tag_matches name n then [n] else [])
     ++ Dom.elements_below name (Dom.childNodes n))%list.
Proof. by destruct n. Qed.

Lemma helper_S (frames : nat) (kids : list Dom.node) (name : string) :
  Dom.get_elements_by_tagName_helper (S frames) kids name
  = for_in kids
      (λ node rc,
         below ← Dom.get_elements_by_tagName_helper frames (Dom.childNodes node) name;
         Ok ((if Dom.tag_matches name node then (rc ++ [node])%list else rc)
             ++ below)%list)
      [].
Proof. reflexivity. Qed.

(** The calls below one node of the loop. *)
Lemma helper_step (frames : nat) (name : string) (node : Dom.node)
    (rc rc' : list Dom.node) :
  (below ← Dom.get_elements_by_tagName_helper frames (Dom.childNodes node) name;
   Ok ((if Dom.tag_matches name node then (rc ++ [node])%list else rc)
       ++ below)%list) = Ok rc' →
  ∃ below,
    Dom.get_elements_by_tagName_helper frames (Dom.childNodes node) name = Ok below
    ∧ rc' = (rc ++ (if Dom.tag_matches name node then [node] else []) ++ below)%list.
Proof.
  intros H. apply bind_Ok in H as (below & Hb & H). injection H as <-.
  exists below. split; [done|]. destruct (Dom.tag_matches name node); simpl.
  - by rewrite <- app_assoc.
  - done.
Qed.

(** What the helper returns is what [Dom.elements_below] finds. *)
Lemma helper_Ok (frames : nat) : ∀ kids name found,
  Dom.get_elements_by_tagName_helper frames kids name = Ok found →
  found = Dom.elements_below name kids.
Proof.
  induction frames as [|frames IH]; intros kids name found H; [discriminate|].
  rewrite helper_S in H.
  assert (Hloop : ∀ kids rc found,
    for_in kids
      (λ node rc,
         below ← Dom.get_elements_by_tagName_helper frames (Dom.childNodes node) name;
         Ok ((if Dom.tag_matches name node then (rc ++ [node])%list else rc)
             ++ below)%list) rc = Ok found →
    found = (rc ++ Dom.elements_below name kids)%list).
  { clear kids found H. induction kids as [|node kids IHk]; intros rc found H.
    - injection H as <-. unfold Dom.elements_below. simpl. by rewrite app_nil_r.
    - simpl in H. apply bind_Ok in H as (rc' & Hstep & H).
      apply helper_step in Hstep as (below & Hb & ->). apply IH in Hb as ->.
      rewrite (IHk _ _ H). unfold Dom.elements_below at 3. simpl.
      rewrite collect_unfold. by rewrite <- !app_assoc. }
  by rewrite (Hloop _ _ _ H).
Qed.

Lemma helper_Raise (frames : nat) : ∀ kids name e,
  Dom.get_elements_by_tagName_helper frames kids name = Raise e → e = RecursionError.
Proof.
  induction frames as [|frames IH]; intros kids name e H; [by injection H as <-|].
  rewrite helper_S in H. apply for_in_Raise in H as (node & rc & _ & H).
  apply bind_Raise in H as [H|(below & _ & H)]; [by eapply IH|discriminate].
Qed.

(** Whether the helper returns does not depend on the name. *)
Lemma helper_any_name (frames : nat) : ∀ kids name name' found,
  Dom.get_elements_by_tagName_helper frames kids name = Ok found →
  Dom.get_elements_by_tagName_helper frames kids name'
  = Ok (Dom.elements_below name' kids).
Proof.
  induction frames as [|frames IH]; intros kids name name' found H; [discriminate|].
  assert (∃ found', Dom.get_elements_by_tagName_helper (S frames) kids name'
                    = Ok found') as (found' & H').
  { rewrite helper_S in *. apply for_in_all_Ok. intros node rc Hnode.
    destruct (for_in_Ok_each _ _ _ _ H node Hnode) as (s & s' & Hs).
    apply helper_step in Hs as (below & Hb & _).
    rewrite (IH _ _ name' _ Hb). simpl. eauto. }
  by rewrite H', (helper_Ok _ _ _ _ H').
Qed.

(** One frame more does no harm. *)
Lemma helper_more (frames : nat) : ∀ kids name found,
  Dom.get_elements_by_tagName_helper frames kids name = Ok found →
  Dom.get_elements_by_tagName_helper (S frames) kids name = Ok found.
Proof.
  induction frames as [|frames IH]; intros kids name found H; [discriminate|].
  assert (∃ found', Dom.get_elements_by_tagName_helper (S (S frames)) kids name
                    = Ok found') as (found' & H').
  { rewrite (helper_S (S frames)). rewrite helper_S in H.
    apply for_in_all_Ok. intros node rc Hnode.
    destruct (for_in_Ok_each _ _ _ _ H node Hnode) as (s & s' & Hs).
    apply helper_step in Hs as (below & Hb & _).
    rewrite (IH _ _ _ Hb). simpl. eauto. }
  rewrite H'. f_equal. by rewrite (helper_Ok _ _ _ _ H'), (helper_Ok _ _ _ _ H).
Qed.

(** Below an element that the helper has found it returns again. *)
Lemma helper_below (frames : nat) : ∀ kids name name' found item,
  Dom.get_elements_by_tagName_helper frames kids name = Ok found →
  item ∈ found →
  Dom.get_elements_by_tagName_helper frames (Dom.childNodes item) name'
  = Ok (Dom.elements_below name' (Dom.childNodes item)).
Proof.
  induction frames as [|frames IH]; intros kids name name' found item H Hitem;
    [discriminate|].
  pose proof (helper_Ok _ _ _ _ H) as ->.
  unfold Dom.elements_below in Hitem. apply list_elem_of_In in Hitem.
  apply in_flat_map in Hitem as (node & Hnode & Hitem).
  apply list_elem_of_In in Hnode, Hitem.
  rewrite helper_S in H.
  destruct (for_in_Ok_each _ _ _ _ H node Hnode) as (s & s' & Hs).
  apply helper_step in Hs as (below & Hb & _).
  rewrite collect_unfold in Hitem. apply elem_of_app in Hitem as [Hitem|Hitem].
  - destruct (Dom.tag_matches name node); [|by apply elem_of_nil in Hitem].
    apply list_elem_of_singleton in Hitem as ->.
    apply helper_more. by eapply helper_any_name.
  - apply helper_more. eapply (IH _ name); [exact Hb|].
    by rewrite (helper_Ok _ _ _ _ Hb).
Qed.

(** ** The steps of [parse_weather] under the limit *)

Lemma walkable_dec (frames : nat) (dom : Dom.document) :
  walkable frames dom ∨ ¬ walkable frames dom.
Proof.
  unfold walkable.
  destruct (Dom.get_elements_by_tagName_helper frames (Dom.documentChildren dom) "*")
    as [found|e]; [left; eauto|right]. by intros (found & H).
Qed.

Lemma walkable_helper (frames : nat) (dom : Dom.document) (name : string) :
  walkable frames dom →
  Dom.get_elements_by_tagName_helper frames (Dom.documentChildren dom) name
  = Ok (Dom.documentElementsByTagName dom name).
Proof. intros (found & H). by eapply helper_any_name. Qed.

Lemma helper_walkable (frames : nat) (dom : Dom.document) (name : string) found :
  Dom.get_elements_by_tagName_helper frames (Dom.documentChildren dom) name = Ok found →
  walkable frames dom.
Proof. intros H. eexists. by eapply helper_any_name. Qed.

Lemma not_walkable_helper (frames : nat) (dom : Dom.document) (name : string) :
  ¬ walkable frames dom →
  Dom.get_elements_by_tagName_helper frames (Dom.documentChildren dom) name
  = Raise RecursionError.
Proof.
  intros Hn.
  destruct (Dom.get_elements_by_tagName_helper frames (Dom.documentChildren dom) name)
    as [found|e] eqn:H.
  - destruct Hn. by eapply helper_walkable.
  - by apply helper_Raise in H as ->.
Qed.

Lemma temperature_step_walkable (frames : nat) (dom : Dom.document) item st :
  walkable frames dom → item ∈ Dom.documentElementsByTagName dom "temperature" →
  temperature_step_within frames item st = temperature_step item st.
Proof.
  intros Hw Hitem. unfold temperature_step_within, temperature_step.
  destruct st as [highs lows].
  rewrite (helper_below frames (Dom.documentChildren dom) "temperature" "value"
             _ item (walkable_helper _ _ _ Hw) Hitem).
  reflexivity.
Qed.

Lemma temperatures_walkable (frames : nat) (dom : Dom.document) :
  walkable frames dom → temperatures_within frames dom = temperatures dom.
Proof.
  intros Hw. unfold temperatures_within, temperatures.
  rewrite (walkable_helper _ _ _ Hw). cbn [mbind result_bind].
  apply for_in_ext. intros item st Hitem. by eapply temperature_step_walkable.
Qed.

Lemma icon_tokens_walkable (frames : nat) (dom : Dom.document) :
  walkable frames dom → icon_tokens_within frames dom = icon_tokens dom.
Proof. intros Hw. unfold icon_tokens_within. by rewrite (walkable_helper _ _ _ Hw). Qed.

Lemma start_day_walkable (frames : nat) (dom : Dom.document) :
  walkable frames dom → start_day_within frames dom = start_day dom.
Proof. intros Hw. unfold start_day_within. by rewrite (walkable_helper _ _ _ Hw). Qed.

(** Within the limit lines 55 to 90 are [parse_document]. *)
Lemma parse_fields_walkable (frames : nat) (dom : Dom.document) :
  walkable frames dom → parse_fields frames dom = parse_document dom.
Proof.
  intros Hw. unfold parse_fields, parse_document.
  by rewrite temperatures_walkable, icon_tokens_walkable, start_day_walkable.
Qed.

(** Beyond it the first traversal, of line 58, raises. *)
Lemma temperatures_limit (frames : nat) (dom : Dom.document) :
  ¬ walkable frames dom → temperatures_within frames dom = Raise RecursionError.
Proof. intros Hn. unfold temperatures_within. by rewrite not_walkable_helper. Qed.

Lemma parse_fields_limit (frames : nat) (dom : Dom.document) :
  ¬ walkable frames dom → parse_fields frames dom = Raise RecursionError.
Proof. intros Hn. unfold parse_fields. by rewrite temperatures_limit. Qed.

Lemma temperatures_within_Ok (frames : nat) (dom : Dom.document) highs_lows :
  temperatures_within frames dom = Ok highs_lows ↔
  walkable frames dom ∧ temperatures dom = Ok highs_lows.
Proof.
  split.
  - intros H. destruct (walkable_dec frames dom) as [Hw|Hn].
    + by rewrite temperatures_walkable in H.
    + rewrite temperatures_limit in H by done. discriminate.
  - intros [Hw H]. by rewrite temperatures_walkable.
Qed.

Lemma parse_fields_Ok (frames : nat) (dom : Dom.document) r :
  parse_fields frames dom = Ok r ↔ walkable frames dom ∧ parse_document dom = Ok r.
Proof.
  split.
  - intros H. destruct (walkable_dec frames dom) as [Hw|Hn].
    + by rewrite parse_fields_walkable in H.
    + rewrite parse_fields_limit in H by done. discriminate.
  - intros [Hw H]. by rewrite parse_fields_walkable.
Qed.

Lemma parse_fields_Raise (frames : nat) (dom : Dom.document) e :
  parse_fields frames dom = Raise e ↔
  (¬ walkable frames dom ∧ e = RecursionError)
  ∨ (walkable frames dom ∧ parse_document dom = Raise e).
Proof.
  split.
  - intros H. destruct (walkable_dec frames dom) as [Hw|Hn].
    + right. by rewrite parse_fields_walkable in H.
    + left. rewrite parse_fields_limit in H by done. split; congruence.
  - intros [[Hn ->]|[Hw H]].
    + by apply parse_fields_limit.
    + by rewrite parse_fields_walkable.
Qed.

(** ** Line 52 *)

(** The module binds no [DefusedExpatBuilderNS]: [parse_weather] raises
    before it has a parser. *)
Lemma parse_weather_line_52 (E : environment) (weather_xml : string) :
  parse_weather E weather_xml
  = Raise (ModuleAttributeError "xml.dom.expatbuilder" "DefusedExpatBuilderNS").
Proof. reflexivity. Qed.

(** C2: when lines 55 to 90 return, and so whenever [parse_weather]
    returns, [highs], [lows] and [icons] have [NUM_DAYS] entries each, no
    entry of [highs] or [lows] is [None], and every icon token matches
    [^[a-z0-9_-]+$], as the fallback ["na"] does. *)
Theorem parse_weather_shape E weather_xml frames dom highs lows icons day_one :
  parse_fields frames dom = Ok (highs, lows, icons, day_one)
  ∨ parse_weather E weather_xml = Ok (highs, lows, icons, day_one) →
  (length highs = NUM_DAYS ∧ length lows = NUM_DAYS ∧ length icons = NUM_DAYS)
  ∧ Forall (λ v, ∃ z : Z, v = Some z) highs
  ∧ Forall (λ v, ∃ z : Z, v = Some z) lows
  ∧ Forall (λ t, ICON_TOKEN_RE_fullmatch t = true) icons
  ∧ ICON_TOKEN_RE_fullmatch "na" = true.
Proof.
  intros [H|H].
  - apply parse_fields_Ok in H as [_ H]. by eapply parse_document_shape.
  - unfold parse_weather in H. apply bind_Ok in H as (builder & _ & H).
    apply bind_Ok in H as (dom' & _ & H).
    apply parse_fields_Ok in H as [_ H]. by eapply parse_document_shape.
Qed.

Lemma parse_weather_shape_witness :
  parse_fields 100 sample_feed
  = Ok ([Some 70; Some 72; Some 68; Some 65], [Some 55; Some 58; Some 50; Some 48],
        ["icon"; "bkn"; "na"; "token"], Datetime.mk_datetime 2024 3 10)
  ∧ length ["icon"; "bkn"; "na"; "token"] = NUM_DAYS.
Proof.
  assert (H : parse_fields 100 sample_feed
              = Ok ([Some 70; Some 72; Some 68; Some 65],
                    [Some 55; Some 58; Some 50; Some 48],
                    ["icon"; "bkn"; "na"; "token"], Datetime.mk_datetime 2024 3 10))
    by (vm_compute; reflexivity).
  split; [exact H|].
  exact (proj2 (proj2 (proj1 (parse_weather_shape (sample_environment "") ""
                                 _ _ _ _ _ _ (or_introl H))))).
Defined.

(** ** Strings *)

Lemma sapp_nil_l (s : string) : "" +:+ s = s.
Proof. reflexivity. Qed.

Lemma sapp_cons (c : ascii) (s t : string) : String c s +:+ t = String c (s +:+ t).
Proof. reflexivity. Qed.

Lemma sapp_nil_r (s : string) : s +:+ "" = s.
Proof. induction s as [|c s IH]; [done|]. by rewrite sapp_cons, IH. Qed.

Lemma sapp_assoc (s t u : string) : (s +:+ t) +:+ u = s +:+ (t +:+ u).
Proof. induction s as [|c s IH]; [done|]. by rewrite !sapp_cons, IH. Qed.

Lemma slength_app (s t : string) :
  String.length (s +:+ t) = (String.length s + String.length t)%nat.
Proof. induction s as [|c s IH]; [done|]. rewrite sapp_cons; simpl. by rewrite IH. Qed.

Lemma sapp_eq_nil (s t : string) : s +:+ t = "" → s = "" ∧ t = "".
Proof. destruct s; [rewrite sapp_nil_l; by intros ->|rewrite sapp_cons; discriminate]. Qed.

Lemma mem_char_app (c : ascii) (s t : string) :
  Str.mem_char c (s +:+ t) = Str.mem_char c s || Str.mem_char c t.
Proof.
  induction s as [|d s IH]; [done|]. rewrite sapp_cons; simpl.
  by rewrite IH, orb_assoc.
Qed.

Lemma all_chars_app (p : ascii → bool) (s t : string) :
  Str.all_chars p (s +:+ t) = Str.all_chars p s && Str.all_chars p t.
Proof.
  induction s as [|d s IH]; [done|]. rewrite sapp_cons; simpl.
  by rewrite IH, andb_assoc.
Qed.

(** Case analysis on a character: its eight bits. *)
Ltac by_char c := destruct c as [[] [] [] [] [] [] [] []]; vm_compute; try congruence; auto.

Lemma is_digit_decimal (c : ascii) :
  Str.is_digit c = true → Str.mem_char c "0123456789" = true.
Proof. by_char c. Qed.

Lemma decimal_is_digit (c : ascii) :
  Str.mem_char c "0123456789" = true → Str.is_digit c = true.
Proof. by_char c. Qed.

(** *** [split] *)

(** The first piece stops at the first separator; the other pieces are the
    pieces of what follows it. *)
Lemma split_first (sep : ascii) (s : string) :
  ∃ w ws, Str.split sep s = w :: ws ∧ Str.mem_char sep w = false
          ∧ ((ws = [] ∧ s = w)
             ∨ ∃ rest, s = w +:+ String sep rest ∧ ws = Str.split sep rest).
Proof.
  induction s as [|c s (w & ws & Hs & Hw & IH)]; simpl.
  - exists "", []. auto.
  - destruct (Ascii.eqb_spec c sep) as [->|Hc].
    + exists "", (Str.split sep s). split_and!; [done..|]. right; exists s; done.
    + rewrite Hs. exists (String c w), ws. split_and!; [done| |].
      * simpl. rewrite Hw, orb_false_r. apply Ascii.eqb_neq. congruence.
      * destruct IH as [[-> ->]|(rest & -> & ->)]; [by left|].
        right. exists rest. done.
Qed.

Lemma split_nonempty (sep : ascii) (s : string) : Str.split sep s ≠ [].
Proof. destruct (split_first sep s) as (w & ws & -> & _). done. Qed.

Lemma last_cons_nonempty (w : string) (ws : list string) :
  ws ≠ [] → Str.last (w :: ws) = Str.last ws.
Proof. destruct ws; [done|]. done. Qed.

(** The last piece is what follows the last separator. *)
Lemma split_last (sep : ascii) (s : string) :
  ∃ seg, Str.last (Str.split sep s) = Ok seg ∧ Str.mem_char sep seg = false
         ∧ (s = seg ∨ ∃ pre, s = pre +:+ String sep seg).
Proof.
  induction s as [|c s (seg & Hl & Hseg & IH)]; simpl.
  - exists "". auto.
  - destruct (Ascii.eqb_spec c sep) as [->|Hc].
    + exists seg. rewrite last_cons_nonempty by apply split_nonempty.
      split_and!; [done..|]. right. destruct IH as [->|(pre & ->)].
      * by exists "".
      * by exists (String sep pre).
    + destruct (split_first sep s) as (w & ws & Hs & Hw & Hfirst). rewrite Hs in *.
      destruct Hfirst as [[-> ->]|(rest & Hrest & Hws)].
      * simpl in Hl. injection Hl as <-. exists (String c w). split_and!; [done| |by left].
        simpl. rewrite Hw, orb_false_r. apply Ascii.eqb_neq. congruence.
      * assert (ws ≠ []) by (rewrite Hws; apply split_nonempty).
        rewrite last_cons_nonempty in Hl by done.
        exists seg. rewrite last_cons_nonempty by done. split_and!; [done..|].
        right. destruct IH as [Heq|(pre & ->)].
        -- exfalso. rewrite <- Heq, Hrest, mem_char_app in Hseg. simpl in Hseg.
           rewrite Ascii.eqb_refl in Hseg. by rewrite orb_true_r in Hseg.
        -- by exists (String c pre).
Qed.

Lemma first_split (sep : ascii) (s : string) :
  ∃ w, Str.first (Str.split sep s) = Ok w ∧ Str.mem_char sep w = false
       ∧ (s = w ∨ ∃ rest, s = w +:+ String sep rest).
Proof.
  destruct (split_first sep s) as (w & ws & -> & Hw & H). exists w.
  split_and!; [done..|]. destruct H as [[_ ->]|(rest & -> & _)]; eauto.
Qed.

(** What follows the last separator, and what precedes the first one, are
    determined by the text. *)
Lemma after_last_unique (sep : ascii) (p1 p2 s1 s2 : string) :
  Str.mem_char sep s1 = false → Str.mem_char sep s2 = false →
  p1 +:+ String sep s1 = p2 +:+ String sep s2 → s1 = s2.
Proof.
  intros H1 H2. revert p2. induction p1 as [|c p1 IH]; intros [|d p2] H;
    rewrite ?sapp_nil_l, ?sapp_cons in H.
  - congruence.
  - injection H as <- ->. rewrite mem_char_app in H1; simpl in H1.
    rewrite Ascii.eqb_refl, orb_true_r in H1. done.
  - injection H as -> <-. rewrite mem_char_app in H2; simpl in H2.
    rewrite Ascii.eqb_refl, orb_true_r in H2. done.
  - injection H as _ H. eauto.
Qed.

Lemma before_first_unique (sep : ascii) (s1 s2 r1 r2 : string) :
  Str.mem_char sep s1 = false → Str.mem_char sep s2 = false →
  s1 +:+ String sep r1 = s2 +:+ String sep r2 → s1 = s2.
Proof.
  revert s2. induction s1 as [|c s1 IH]; intros [|d s2] H1 H2 H;
    rewrite ?sapp_nil_l, ?sapp_cons in H; simpl in *.
  - done.
  - injection H as <- _. by rewrite Ascii.eqb_refl in H2.
  - injection H as -> _. by rewrite Ascii.eqb_refl in H1.
  - injection H as <- H. apply orb_false_iff in H1 as [_ H1].
    apply orb_false_iff in H2 as [_ H2]. f_equal. eauto.
Qed.

Lemma final_segment_split (text : string) :
  ∃ seg, Str.last (Str.split "/" text) = Ok seg ∧ final_segment text seg.
Proof. destruct (split_last "/" text) as (seg & ? & ? & ?). exists seg. by split_and!. Qed.

Lemma final_segment_unique (text seg1 seg2 : string) :
  final_segment text seg1 → final_segment text seg2 → seg1 = seg2.
Proof.
  intros [H1 [E1|(p1 & E1)]] [H2 [E2|(p2 & E2)]]; subst.
  - done.
  - rewrite mem_char_app in H1; simpl in H1. by rewrite orb_true_r in H1.
  - rewrite mem_char_app in H2; simpl in H2. by rewrite orb_true_r in H2.
  - by eapply after_last_unique.
Qed.

Lemma before_first_dot_split (seg : string) :
  ∃ stem, Str.first (Str.split "." seg) = Ok stem ∧ before_first_dot seg stem.
Proof. destruct (first_split "." seg) as (w & ? & ? & ?). exists w. by split_and!. Qed.

Lemma before_first_dot_unique (seg stem1 stem2 : string) :
  before_first_dot seg stem1 → before_first_dot seg stem2 → stem1 = stem2.
Proof.
  intros [H1 [E1|(r1 & E1)]] [H2 [E2|(r2 & E2)]]; subst.
  - done.
  - rewrite mem_char_app in H1; simpl in H1. by rewrite orb_true_r in H1.
  - rewrite mem_char_app in H2; simpl in H2. by rewrite orb_true_r in H2.
  - by eapply before_first_unique.
Qed.

(** *** [rstrip] *)

Lemma rstrip_cons (chars : string) (c : ascii) (s : string) :
  Str.rstrip chars (String c s)
  = if Str.is_empty (Str.rstrip chars s) && Str.mem_char c chars then ""
    else String c (Str.rstrip chars s).
Proof. reflexivity. Qed.

Lemma rstrip_all_digits (s : string) :
  Str.all_chars Str.is_digit s = true → Str.rstrip "0123456789" s = "".
Proof.
  induction s as [|c s IH]; [done|]. simpl Str.all_chars.
  rewrite andb_true_iff. intros [Hc Hs]. rewrite rstrip_cons, (IH Hs).
  by rewrite (is_digit_decimal c Hc).
Qed.

Lemma all_digits_ends (s : string) :
  Str.all_chars Str.is_digit s = true → ends_with_digit s = false → s = "".
Proof.
  induction s as [|c s IH]; [done|]. simpl Str.all_chars.
  rewrite andb_true_iff. intros [Hc Hs] He. exfalso.
  destruct s as [|d s]; simpl in He; [congruence|].
  by specialize (IH Hs He).
Qed.

Lemma ends_with_digit_cons (c : ascii) (s : string) :
  ends_with_digit (String c s) = false → ends_with_digit s = false.
Proof. destruct s; [done|]. done. Qed.

Lemma rstrip_spec (stem : string) :
  without_trailing_digits stem (Str.rstrip "0123456789" stem).
Proof.
  induction stem as [|c s [He (ds & Hs & Hds)]].
  - split; [done|]. by exists "".
  - rewrite rstrip_cons. destruct (Str.rstrip "0123456789" s) as [|d r] eqn:Er.
    + cbn [Str.is_empty andb]. destruct (Str.mem_char c "0123456789") eqn:Ec.
      * split; [done|]. exists (String c s). rewrite sapp_nil_l. split; [done|].
        simpl. rewrite (decimal_is_digit c Ec); simpl. rewrite sapp_nil_l in Hs.
        by rewrite Hs.
      * split.
        -- simpl. destruct (Str.is_digit c) eqn:E; [|done].
           by rewrite (is_digit_decimal c E) in Ec.
        -- exists ds. rewrite sapp_cons. split; [by rewrite Hs|done].
    + cbn [Str.is_empty andb]. split; [done|]. exists ds. rewrite sapp_cons. by rewrite Hs.
Qed.

Lemma without_trailing_digits_unique (stem raw1 raw2 : string) :
  without_trailing_digits stem raw1 → without_trailing_digits stem raw2 →
  raw1 = raw2.
Proof.
  intros [He1 (ds1 & -> & Hd1)] [He2 (ds2 & E & Hd2)].
  revert raw2 He2 E. induction raw1 as [|c r1 IH]; intros [|d r2] He2 E;
    rewrite ?sapp_nil_l, ?sapp_cons in E.
  - done.
  - exfalso. subst ds1. change (String d (r2 +:+ ds2)) with (String d r2 +:+ ds2) in Hd1.
    rewrite all_chars_app, andb_true_iff in Hd1. destruct Hd1 as [Hd1 _].
    by specialize (all_digits_ends _ Hd1 He2).
  - exfalso. subst ds2. change (String c (r1 +:+ ds1)) with (String c r1 +:+ ds1) in Hd2.
    rewrite all_chars_app, andb_true_iff in Hd2. destruct Hd2 as [Hd2 _].
    by specialize (all_digits_ends _ Hd2 He1).
  - injection E as <- E. f_equal. apply IH; [|by eapply ends_with_digit_cons|done].
    by eapply ends_with_digit_cons.
Qed.

(** ** The token of one day *)

Lemma icon_token_text xml_icons i e fc text seg stem raw :
  xml_icons !! i = Some e → Dom.firstChild e = Some fc →
  Dom.nodeValue fc = Some text →
  final_segment text seg → before_first_dot seg stem →
  without_trailing_digits stem raw →
  icon_token xml_icons i
  = Ok (if ICON_TOKEN_RE_fullmatch (Str.lower raw) then Str.lower raw else "na").
Proof.
  intros He Hfc Htext Hseg Hstem Hraw. unfold icon_token. rewrite He, Hfc, Htext.
  destruct (final_segment_split text) as (seg' & -> & Hseg'). simpl.
  rewrite <- (final_segment_unique _ _ _ Hseg Hseg').
  destruct (before_first_dot_split seg) as (stem' & -> & Hstem'). simpl.
  rewrite <- (before_first_dot_unique _ _ _ Hstem Hstem').
  by rewrite <- (without_trailing_digits_unique _ _ _ Hraw (rstrip_spec stem)).
Qed.

Lemma icon_token_absent xml_icons i :
  xml_icons !! i = None ∨ (∃ e, xml_icons !! i = Some e ∧ Dom.firstChild e = None) →
  icon_token xml_icons i = Ok "na".
Proof. unfold icon_token. intros [->|(e & -> & ->)]; done. Qed.

Lemma parse_document_icon dom highs lows icons day_one i :
  (i < NUM_DAYS)%nat → parse_document dom = Ok (highs, lows, icons, day_one) →
  ∃ t, icons !! i = Some t
       ∧ icon_token (Dom.documentElementsByTagName dom "icon-link") i = Ok t.
Proof.
  intros Hi H. apply parse_document_Ok in H as (_ & H & _).
  apply icon_tokens_Ok in H as [_ H]. auto.
Qed.

(** C1, amended: the candidate of day [i] is read from the value of the
    first child node of the entry alone: its final path segment, cut at its
    first dot, without its trailing decimal digits, in lower case; the token
    is the candidate when it matches [^[a-z0-9_-]+$] and ["na"] otherwise,
    or when there is no entry at that index or the entry has no child
    node; the token of day [i] is entry [i] of the list that the loop builds;
    an entry whose only child is the text
    [https://example.com/path/ICON42.png] gives ["icon"]. *)
Theorem icon_token_derivation dom i :
  (i < NUM_DAYS)%nat →
  let xml_icons := Dom.documentElementsByTagName dom "icon-link" in
  (∀ e fc text seg stem raw,
      xml_icons !! i = Some e → Dom.firstChild e = Some fc →
      Dom.nodeValue fc = Some text →
      final_segment text seg → before_first_dot seg stem →
      without_trailing_digits stem raw →
      icon_token xml_icons i
      = Ok (if ICON_TOKEN_RE_fullmatch (Str.lower raw) then Str.lower raw else "na"))
  ∧ (xml_icons !! i = None
     ∨ (∃ e, xml_icons !! i = Some e ∧ Dom.firstChild e = None) →
     icon_token xml_icons i = Ok "na")
  ∧ (∀ icons,
        icon_tokens dom = Ok icons →
        ∃ t, icons !! i = Some t ∧ icon_token xml_icons i = Ok t)
  ∧ icon_token [icon_link "https://example.com/path/ICON42.png"] 0 = Ok "icon".
Proof.
  intros Hi xml_icons. split_and!.
  - intros *. apply icon_token_text.
  - apply icon_token_absent.
  - intros icons H. apply icon_tokens_Ok in H as [_ H]. by apply H.
  - reflexivity.
Qed.

Lemma icon_token_derivation_witness :
  icon_token (Dom.documentElementsByTagName sample_feed "icon-link") 0 = Ok "icon".
Proof.
  assert (Hi : (0 < NUM_DAYS)%nat) by (unfold NUM_DAYS; lia).
  refine (proj1 (icon_token_derivation sample_feed 0 Hi)
            (icon_link "https://example.com/path/ICON42.png")
            (Dom.Text "https://example.com/path/ICON42.png")
            "https://example.com/path/ICON42.png" "ICON42.png" "ICON42" "ICON"
            eq_refl eq_refl eq_refl _ _ _).
  - split; [reflexivity|]. right. exists "https://example.com/path". reflexivity.
  - split; [reflexivity|]. right. exists "png". reflexivity.
  - split; [reflexivity|]. exists "42". split; reflexivity.
Defined.

(** C1 as stated fails twice: the code keeps what precedes the first dot
    of the segment, not what precedes its last dot; and it reads the first
    child node of the entry, a comment as well as a text, not the text of
    the entry. *)
Lemma icon_token_last_dot_counterexample :
  ¬ (∀ xml_icons i e text,
        (i < NUM_DAYS)%nat → xml_icons !! i = Some e →
        Dom.firstChild e = Some (Dom.Text text) →
        icon_token xml_icons i = claimed_icon_token text)
  ∧ ¬ (∀ xml_icons i e,
          (i < NUM_DAYS)%nat → xml_icons !! i = Some e → text_content e ≠ "" →
          icon_token xml_icons i = icon_token [icon_link (text_content e)] 0).
Proof.
  split.
  - intros H.
    specialize (H (Dom.documentElementsByTagName dotted_icon_feed "icon-link") 0%nat
                  (icon_link "http://forecast.weather.gov/images/wtf/few.v2.png")
                  "http://forecast.weather.gov/images/wtf/few.v2.png"
                  ltac:(unfold NUM_DAYS; lia) eq_refl eq_refl).
    vm_compute in H. discriminate H.
  - intros H.
    specialize (H [commented_icon_link] 0%nat commented_icon_link
                  ltac:(unfold NUM_DAYS; lia) eq_refl ltac:(discriminate)).
    vm_compute in H. discriminate H.
Qed.

(** C10: when what precedes the first dot of the final segment is made of
    decimal digits only, stripping the digits leaves the empty string, the
    empty string does not match [^[a-z0-9_-]+$], and the token is ["na"],
    in the list of the icon loop and in the tuple of lines 55 to 90. *)
Theorem all_digit_stem_gives_na xml_icons i e fc text seg stem :
  xml_icons !! i = Some e → Dom.firstChild e = Some fc →
  Dom.nodeValue fc = Some text →
  final_segment text seg → before_first_dot seg stem →
  Str.all_chars Str.is_digit stem = true →
  Str.rstrip "0123456789" stem = ""
  ∧ ICON_TOKEN_RE_fullmatch (Str.lower "") = false
  ∧ icon_token xml_icons i = Ok "na"
  ∧ ∀ dom icons,
      xml_icons = Dom.documentElementsByTagName dom "icon-link" →
      (i < NUM_DAYS)%nat →
      icon_tokens dom = Ok icons
      ∨ (∃ frames highs lows day_one,
            parse_fields frames dom = Ok (highs, lows, icons, day_one)) →
      icons !! i = Some "na".
Proof.
  intros He Hfc Htext Hseg Hstem Hdigits.
  assert (Hraw : Str.rstrip "0123456789" stem = "") by by apply rstrip_all_digits.
  assert (Htok : icon_token xml_icons i = Ok "na").
  { rewrite (icon_token_text _ _ _ _ _ _ _ "" He Hfc Htext Hseg Hstem); [done|].
    rewrite <- Hraw. apply rstrip_spec. }
  split_and!; [done..|].
  intros dom icons -> Hi [H|(frames & highs & lows & day_one & H)].
  - apply icon_tokens_Ok in H as [_ H].
    destruct (H i Hi) as (t & Ht & Ht'). congruence.
  - apply parse_fields_Ok in H as [_ H].
    destruct (parse_document_icon _ _ _ _ _ _ Hi H) as (t & Ht & Ht'). congruence.
Qed.

Lemma all_digit_stem_gives_na_witness :
  icon_token (Dom.documentElementsByTagName dotted_icon_feed "icon-link") 1 = Ok "na".
Proof.
  refine (proj1 (proj2 (proj2
            (all_digit_stem_gives_na
               (Dom.documentElementsByTagName dotted_icon_feed "icon-link") 1
               (icon_link "12345.png") (Dom.Text "12345.png") "12345.png"
               "12345.png" "12345" eq_refl eq_refl eq_refl _ _ eq_refl)))).
  - split; [reflexivity|]. left. reflexivity.
  - split; [reflexivity|]. right. exists "png". reflexivity.
Defined.

(** ** Text that [int] rejects *)

Lemma fill_slots_bad_text values i v fc text slots :
  (i < NUM_DAYS)%nat → values !! i = Some v → Dom.firstChild v = Some fc →
  Dom.nodeValue fc = Some text → Int.of_str text = None →
  ∃ e, fill_slots values slots = Raise e ∧ int_error e.
Proof.
  intros Hi Hv Hfc Htext Hbad. rewrite fill_slots_unfold.
  apply (for_in_must_raise int_error).
  - intros j st e Hj. apply fill_body_Raise. apply elem_of_range in Hj. lia.
  - exists i. split.
    + apply elem_of_range. apply lookup_lt_Some in Hv. lia.
    + intros st. exists (IntValueError text). unfold fill_body.
      rewrite Hv, Hfc, Htext. simpl. by rewrite Hbad.
Qed.

Lemma temperature_step_bad_text item i v fc text st :
  Dom.getAttribute item "type" = "maximum"
  ∨ Dom.getAttribute item "type" = "minimum" →
  (i < NUM_DAYS)%nat → Dom.getElementsByTagName item "value" !! i = Some v →
  Dom.firstChild v = Some fc → Dom.nodeValue fc = Some text →
  Int.of_str text = None →
  ∃ e, temperature_step item st = Raise e.
Proof.
  intros Hty Hi Hv Hfc Htext Hbad. destruct st as [highs lows].
  unfold temperature_step. destruct Hty as [-> | ->]; simpl.
  - destruct (fill_slots_bad_text _ _ _ _ _ highs Hi Hv Hfc Htext Hbad) as (e & -> & _).
    by exists e.
  - destruct (fill_slots_bad_text _ _ _ _ _ lows Hi Hv Hfc Htext Hbad) as (e & -> & _).
    by exists e.
Qed.

Lemma parse_document_bad_text dom item i v fc text :
  item ∈ Dom.documentElementsByTagName dom "temperature" →
  Dom.getAttribute item "type" = "maximum"
  ∨ Dom.getAttribute item "type" = "minimum" →
  (i < NUM_DAYS)%nat → Dom.getElementsByTagName item "value" !! i = Some v →
  Dom.firstChild v = Some fc → Dom.nodeValue fc = Some text →
  Int.of_str text = None →
  ∃ e, parse_document dom = Raise e ∧ int_error e.
Proof.
  intros Hitem Hty Hi Hv Hfc Htext Hbad.
  assert (H : ∃ e, temperatures dom = Raise e ∧ int_error e).
  { unfold temperatures. apply (for_in_must_raise int_error).
    - intros x st e _. apply temperature_step_Raise.
    - exists item. split; [done|]. intros st.
      by eapply temperature_step_bad_text. }
  destruct H as (e & He & Hint). exists e. split; [|done].
  unfold parse_document. by rewrite He.
Qed.

(** C9, amended: when the traversal of line 58 has returned the
    temperature elements, a value among the first [NUM_DAYS] values of a
    maximum or minimum element whose first child node carries a text that
    [int] rejects makes lines 55 to 90 raise the exception of [int]; no
    tuple is returned. *)
Theorem bad_temperature_text_raises frames dom items item i v fc text :
  Dom.get_elements_by_tagName_helper frames (Dom.documentChildren dom) "temperature"
  = Ok items →
  item ∈ items →
  Dom.getAttribute item "type" = "maximum"
  ∨ Dom.getAttribute item "type" = "minimum" →
  (i < NUM_DAYS)%nat → Dom.getElementsByTagName item "value" !! i = Some v →
  Dom.firstChild v = Some fc → Dom.nodeValue fc = Some text →
  Int.of_str text = None →
  ∃ e, parse_fields frames dom = Raise e ∧ int_error e.
Proof.
  intros Hitems Hitem Hty Hi Hv Hfc Htext Hbad.
  pose proof (helper_walkable _ _ _ _ Hitems) as Hw.
  apply helper_Ok in Hitems as ->.
  rewrite (parse_fields_walkable _ _ Hw). by eapply parse_document_bad_text.
Qed.

Lemma bad_temperature_text_raises_witness :
  ∃ e, parse_fields 100 garbled_feed = Raise e ∧ int_error e.
Proof.
  refine (bad_temperature_text_raises 100 garbled_feed _
            (Dom.Element "temperature" [("type", "maximum")]
               [value_element "70"; value_element "7o"; value_element "68";
                value_element "65"])
            1 (value_element "7o") (Dom.Text "7o") "7o" eq_refl _ _ _ eq_refl eq_refl
            eq_refl eq_refl).
  - vm_compute. apply list_elem_of_here.
  - left. reflexivity.
  - unfold NUM_DAYS. lia.
Defined.

(** C9 as stated fails: [int] is given the first child node of the value,
    not its text.  The value whose text [7o] comes in two nodes, [7] and a
    CDATA section [o], is read as 7, and a tuple is returned. *)
Lemma bad_temperature_text_counterexample :
  ¬ (∀ frames dom items item i v,
        Dom.get_elements_by_tagName_helper frames (Dom.documentChildren dom)
          "temperature" = Ok items →
        item ∈ items →
        Dom.getAttribute item "type" = "maximum"
        ∨ Dom.getAttribute item "type" = "minimum" →
        (i < NUM_DAYS)%nat → Dom.getElementsByTagName item "value" !! i = Some v →
        text_content v ≠ "" → Int.of_str (text_content v) = None →
        ∃ e, parse_fields frames dom = Raise e).
Proof.
  intros H.
  destruct (H 100%nat split_value_feed _
              (Dom.Element "temperature" [("type", "maximum")]
                 [value_element "70";
                  Dom.Element "value" [] [Dom.Text "7"; Dom.Text "o"];
                  value_element "68"; value_element "65"])
              1%nat (Dom.Element "value" [] [Dom.Text "7"; Dom.Text "o"])
              eq_refl ltac:(vm_compute; apply list_elem_of_here)
              ltac:(left; reflexivity) ltac:(unfold NUM_DAYS; lia) eq_refl
              ltac:(discriminate) eq_refl)
    as (e & He).
  vm_compute in He. discriminate He.
Qed.

(** ** Incomplete temperatures *)

Lemma existsb_is_None_true (slots : list (option Z)) :
  None ∈ slots → existsb is_None slots = true.
Proof.
  induction slots as [|v slots IH]; intros H.
  - by apply elem_of_nil in H.
  - apply elem_of_cons in H as [<-|H]; simpl; [done|]. rewrite IH by done.
    by rewrite orb_true_r.
Qed.

(** C3, amended: when a high or a low is still unset after the temperature
    loop, lines 55 to 90 return no tuple; they raise the exception of the
    icon loop or of the start-valid-time step when one of them raises, and
    the [ValueError] on incomplete data otherwise. *)
Theorem incomplete_temperatures_raise frames dom highs lows :
  temperatures_within frames dom = Ok (highs, lows) →
  None ∈ highs ∨ None ∈ lows →
  (∀ r, parse_fields frames dom ≠ Ok r)
  ∧ (∀ e, icon_tokens_within frames dom = Raise e → parse_fields frames dom = Raise e)
  ∧ (∀ icons e,
        icon_tokens_within frames dom = Ok icons →
        start_day_within frames dom = Raise e →
        parse_fields frames dom = Raise e)
  ∧ (∀ icons day_one,
        icon_tokens_within frames dom = Ok icons →
        start_day_within frames dom = Ok day_one →
        parse_fields frames dom
        = Raise (ValueError
                   "Weather feed did not contain complete high/low temperature data")).
Proof.
  intros Ht Hnone.
  assert (Hex : existsb is_None highs || existsb is_None lows = true).
  { destruct Hnone as [H|H]; apply existsb_is_None_true in H; rewrite H;
      [done|by rewrite orb_true_r]. }
  unfold parse_fields. rewrite Ht. simpl. split_and!.
  - intros r. destruct (icon_tokens_within frames dom); simpl; [|done].
    destruct (start_day_within frames dom); simpl; [|done]. by rewrite Hex.
  - by intros e ->.
  - by intros icons e -> ->.
  - intros icons day_one -> ->. simpl. by rewrite Hex.
Qed.

Lemma incomplete_temperatures_raise_witness :
  parse_fields 100 short_dated_feed
  = Raise (ValueError
             "Weather feed did not contain complete high/low temperature data").
Proof.
  refine (proj2 (proj2 (proj2
            (incomplete_temperatures_raise 100 short_dated_feed
               [Some 70; Some 72; Some 68; None]
               [Some 55; Some 58; Some 50; Some 48] eq_refl _)))
            ["na"; "na"; "na"; "na"] (Datetime.mk_datetime 2024 3 10) eq_refl eq_refl).
  left. do 3 apply list_elem_of_further. apply list_elem_of_here.
Defined.

(** C3 as stated fails: with a high missing and no start-valid-time, the
    exception is the one of the start-valid-time step, which comes first. *)
Lemma incomplete_temperatures_counterexample :
  ¬ (∀ frames dom highs lows,
        temperatures_within frames dom = Ok (highs, lows) →
        None ∈ highs ∨ None ∈ lows →
        parse_fields frames dom
        = Raise (ValueError
                   "Weather feed did not contain complete high/low temperature data")).
Proof.
  intros H.
  specialize (H 100%nat short_feed [Some 70; Some 72; Some 68; None]
                [Some 55; Some 58; Some 50; Some 48] eq_refl).
  assert (Hp : parse_fields 100 short_feed
               = Raise (ValueError "Weather feed did not contain start-valid-time"))
    by reflexivity.
  rewrite Hp in H. discriminate H.
  left. do 3 apply list_elem_of_further. apply list_elem_of_here.
Qed.

(** ** Which element writes a slot *)

Lemma fill_body_lookup values a slots slots1 :
  fill_body values a slots = Ok slots1 → (a < length slots)%nat →
  ∀ j, slots1 !! j
       = if decide (j = a)
         then match value_text values a with
              | Some x => to_slot x
              | None => slots !! a
              end
         else slots !! j.
Proof.
  unfold fill_body, value_text, to_slot. intros H Ha j.
  destruct (values !! a) as [v|]; [|discriminate]. simpl.
  destruct (Dom.firstChild v) as [fc|]; simpl.
  - apply bind_Ok in H as (z & -> & H). injection H as <-.
    destruct (decide (j = a)) as [->|Hj].
    + by rewrite list_lookup_insert_eq.
    + by rewrite list_lookup_insert_ne.
  - injection H as <-. by destruct (decide (j = a)) as [->|].
Qed.

Lemma fill_seq_lookup values k : ∀ a slots slots',
  for_in (seq a k) (fill_body values) slots = Ok slots' →
  (a + k ≤ length slots)%nat →
  ∀ j, slots' !! j
       = if decide (a ≤ j < a + k)%nat
         then match value_text values j with
              | Some x => to_slot x
              | None => slots !! j
              end
         else slots !! j.
Proof.
  induction k as [|k IH]; intros a slots slots' H Hlen j; simpl in H.
  - injection H as <-. destruct (decide _); [lia|done].
  - apply bind_Ok in H as (slots1 & H1 & H).
    pose proof (fill_body_length _ _ _ _ H1) as Hl1.
    rewrite (IH _ _ _ H) by lia.
    rewrite !(fill_body_lookup _ _ _ _ H1) by lia.
    destruct (decide (j = a)) as [->|Hj].
    + destruct (decide (S a ≤ a < S a + k)%nat); [lia|].
      destruct (decide (a ≤ a < a + S k)%nat); [|lia]. done.
    + destruct (decide (S a ≤ j < S a + k)%nat), (decide (a ≤ j < a + S k)%nat);
        try lia; done.
Qed.

Lemma fill_slots_lookup values slots slots' :
  fill_slots values slots = Ok slots' → length slots = NUM_DAYS →
  ∀ j, slots' !! j
       = match slot_source values j with
         | Some x => to_slot x
         | None => slots !! j
         end.
Proof.
  rewrite fill_slots_unfold. unfold range. intros H Hlen j.
  rewrite (fill_seq_lookup _ _ _ _ _ H) by lia.
  unfold slot_source.
  destruct (decide _) as [Hj|Hj], (Nat.ltb_spec j (NUM_DAYS `min` length values));
    try lia; done.
Qed.

Lemma temperature_step_lookup item highs lows highs' lows' :
  temperature_step item (highs, lows) = Ok (highs', lows') →
  length highs = NUM_DAYS → length lows = NUM_DAYS →
  ∀ j, highs' !! j
       = match last_source "maximum" [item] j with
         | Some x => to_slot x
         | None => highs !! j
         end
     ∧ lows' !! j
       = match last_source "minimum" [item] j with
         | Some x => to_slot x
         | None => lows !! j
         end.
Proof.
  unfold temperature_step. intros H Hh Hl j.
  apply bind_Ok in H as (hs & Hhs & H). apply bind_Ok in H as (ls & Hls & H).
  injection H as <- <-. simpl. split.
  - destruct (String.eqb _ "maximum").
    + by apply fill_slots_lookup.
    + by injection Hhs as <-.
  - destruct (String.eqb _ "minimum").
    + by apply fill_slots_lookup.
    + by injection Hls as <-.
Qed.

Lemma last_source_cons kind item rest i :
  last_source kind (item :: rest) i
  = match last_source kind rest i with
    | Some x => Some x
    | None => last_source kind [item] i
    end.
Proof. simpl. by destruct (last_source kind rest i). Qed.

Lemma temperatures_lookup items : ∀ highs lows highs' lows',
  for_in items temperature_step (highs, lows) = Ok (highs', lows') →
  length highs = NUM_DAYS → length lows = NUM_DAYS →
  ∀ j, highs' !! j
       = match last_source "maximum" items j with
         | Some x => to_slot x
         | None => highs !! j
         end
     ∧ lows' !! j
       = match last_source "minimum" items j with
         | Some x => to_slot x
         | None => lows !! j
         end.
Proof.
  induction items as [|item rest IH]; intros highs lows highs' lows' H Hh Hl j.
  - simpl in H. by injection H as <- <-.
  - simpl in H. apply bind_Ok in H as ([hs ls] & H1 & H).
    destruct (temperature_step_length _ _ _ _ _ H1) as [Hh1 Hl1].
    destruct (IH _ _ _ _ H ltac:(congruence) ltac:(congruence) j) as [-> ->].
    destruct (temperature_step_lookup _ _ _ _ _ H1 Hh Hl j) as [-> ->].
    rewrite !(last_source_cons _ item rest).
    split.
    + by destruct (last_source "maximum" rest j).
    + by destruct (last_source "minimum" rest j).
Qed.

Lemma last_source_single kind item i x :
  last_source kind [item] i = Some x ↔ assigns kind item i x.
Proof.
  unfold assigns; simpl. destruct (String.eqb_spec (Dom.getAttribute item "type") kind).
  - split; [done|]. by intros [_ ?].
  - split; [done|]. by intros [? _].
Qed.

Lemma last_source_None kind items i :
  last_source kind items i = None ↔ ∀ item x, item ∈ items → ¬ assigns kind item i x.
Proof.
  induction items as [|item rest IH].
  - split; [|done]. intros _ item x H. by apply elem_of_nil in H.
  - rewrite last_source_cons. split.
    + destruct (last_source kind rest i) eqn:E; [done|]. intros H1 item' x Hin Ha.
      apply elem_of_cons in Hin as [->|Hin].
      * apply last_source_single in Ha. congruence.
      * by eapply (proj1 IH).
    + intros H. rewrite (proj2 IH).
      * destruct (last_source kind [item] i) as [x|] eqn:E; [|done].
        apply last_source_single in E. exfalso. eapply H; [|done]. by left.
      * intros item' x Hin. apply H. by right.
Qed.

Lemma last_source_Some kind items i x :
  last_source kind items i = Some x ↔
  ∃ before item after,
    items = (before ++ item :: after)%list ∧ assigns kind item i x
    ∧ ∀ item' x', item' ∈ after → ¬ assigns kind item' i x'.
Proof.
  revert x. induction items as [|item rest IH]; intros x.
  - split; [done|]. intros (before & it & after & H & _). by destruct before.
  - rewrite last_source_cons. split.
    + destruct (last_source kind rest i) as [y|] eqn:E.
      * intros [= ->].
        destruct (proj1 (IH x) eq_refl) as (before & it & after & -> & Ha & Hafter).
        by exists (item :: before), it, after.
      * intros H. apply last_source_single in H. exists [], item, rest.
        split_and!; [done..|]. by apply last_source_None.
    + intros (before & it & after & Heq & Ha & Hafter).
      destruct before as [|b before]; simpl in Heq; injection Heq as <- ->.
      * rewrite (proj2 (last_source_None kind after i)) by done.
        by apply last_source_single.
      * rewrite (proj2 (IH x)); [done|]. by exists before, it, after.
Qed.

Lemma to_slot_Some x z : to_slot x = Some (Some z) ↔ Int.int x = Ok z.
Proof. unfold to_slot. destruct (Int.int x); split; congruence. Qed.

Lemma to_slot_not_unset x : to_slot x ≠ Some None.
Proof. unfold to_slot. by destruct (Int.int x). Qed.

Lemma last_write_wins_intro slots kind items i :
  slots !! i = match last_source kind items i with
               | Some x => to_slot x
               | None => Some None
               end →
  last_write_wins slots kind items i.
Proof.
  intros H. split.
  - rewrite <- last_source_None. rewrite H.
    destruct (last_source kind items i) as [x|]; [|done].
    split; [|done]. intros Hx. by apply to_slot_not_unset in Hx.
  - intros z. rewrite H. split.
    + destruct (last_source kind items i) as [x|] eqn:E; [|done].
      intros Hz. apply to_slot_Some in Hz.
      apply last_source_Some in E as (before & item & after & ? & ? & ?).
      by exists before, item, after, x.
    + intros (before & item & after & x & Heq & Ha & Hz & Hafter).
      rewrite (proj2 (last_source_Some kind items i x)).
      * by apply to_slot_Some.
      * by exists before, item, after.
Qed.

Lemma fill_slots_total values slots :
  (∀ i x, slot_source values i = Some x → ∃ z, Int.int x = Ok z) →
  ∃ slots', fill_slots values slots = Ok slots'.
Proof.
  intros H. rewrite fill_slots_unfold. apply for_in_all_Ok.
  intros i st Hi. apply elem_of_range in Hi. unfold fill_body.
  destruct (lookup_lt_is_Some_2 values i ltac:(lia)) as [v Hv].
  specialize (H i). unfold slot_source, value_text in H.
  destruct (Nat.ltb_spec i (NUM_DAYS `min` length values)); [|lia].
  rewrite Hv in *. simpl in H.
  destruct (Dom.firstChild v) as [fc|]; simpl in *; [|eauto].
  destruct (H _ eq_refl) as (z & ->). simpl. eauto.
Qed.




(** ** The first forecast day *)

Lemma digit_cases (c : ascii) (v : Z) :
  Int.digit_val c = Some v →
  (c = "0"%char ∧ v = 0) ∨ (c = "1"%char ∧ v = 1) ∨ (c = "2"%char ∧ v = 2)
  ∨ (c = "3"%char ∧ v = 3) ∨ (c = "4"%char ∧ v = 4) ∨ (c = "5"%char ∧ v = 5)
  ∨ (c = "6"%char ∧ v = 6) ∨ (c = "7"%char ∧ v = 7) ∨ (c = "8"%char ∧ v = 8)
  ∨ (c = "9"%char ∧ v = 9).
Proof.
  destruct c as [[] [] [] [] [] [] [] []]; vm_compute; intros [= <-];
    repeat (first [left; split; reflexivity | right]); split; reflexivity.
Qed.

Ltac digit_case H :=
  apply digit_cases in H;
  destruct H as [[-> ->]|[[-> ->]|[[-> ->]|[[-> ->]|[[-> ->]|[[-> ->]
                |[[-> ->]|[[-> ->]|[[-> ->]|[-> ->]]]]]]]]]].

Lemma group_Y_iso y1 y2 y3 y4 a b c d rest :
  Int.digit_val y1 = Some a → Int.digit_val y2 = Some b →
  Int.digit_val y3 = Some c → Int.digit_val y4 = Some d →
  Datetime.group_Y (String y1 (String y2 (String y3 (String y4 rest))))
  = [(1000 * a + 100 * b + 10 * c + d, rest)].
Proof.
  intros Ha Hb Hc Hd. unfold Datetime.group_Y, Datetime.digit.
  rewrite Ha; cbn. rewrite Hb; cbn. rewrite Hc; cbn. rewrite Hd; cbn. done.
Qed.

(** The first match of the regular expression behind the year, on two
    month characters and two day characters that are digits. *)
Lemma head_month_day (y : Z) m1 m2 d1 d2 a b c d :
  Int.digit_val m1 = Some a → Int.digit_val m2 = Some b →
  Int.digit_val d1 = Some c → Int.digit_val d2 = Some d →
  let s := String "-" (String m1 (String m2 (String "-" (String d1 (String d2 ""))))) in
  let r := head ('(_, s) ← Datetime.lit "-" s;
                 '(m, s) ← Datetime.group_m s; '(_, s) ← Datetime.lit "-" s;
                 '(d, s) ← Datetime.group_d s; [((y, m, d), s)]) in
  if (1 <=? 10 * a + b) && (10 * a + b <=? 12)
     && (1 <=? 10 * c + d) && (10 * c + d <=? 31)
  then r = Some ((y, 10 * a + b, 10 * c + d), "")
  else match r with Some (_, rest) => rest ≠ "" | None => True end.
Proof.
  intros Ha Hb Hc Hd.
  digit_case Ha; digit_case Hb;
    first [ by vm_compute
          | digit_case Hc; digit_case Hd; by vm_compute ].
Qed.

Lemma days_in_month_le (y m : Z) : Datetime.days_in_month y m ≤ 31.
Proof.
  unfold Datetime.days_in_month.
  destruct ((m =? 2) && Datetime.is_leap y); [lia|].
  destruct (Z.to_nat (m - 1)) as [|[|[|[|[|[|[|[|[|[|[|[|n]]]]]]]]]]]];
    simpl; try lia. destruct n; simpl; lia.
Qed.

Lemma valid_ranges (y m d : Z) :
  Datetime.valid y m d = true →
  1 ≤ y ≤ 9999 ∧ 1 ≤ m ≤ 12 ∧ 1 ≤ d ≤ Datetime.days_in_month y m ∧ d ≤ 31.
Proof.
  unfold Datetime.valid, Datetime.MINYEAR, Datetime.MAXYEAR.
  rewrite !andb_true_iff, !Z.leb_le. pose proof (days_in_month_le y m). lia.
Qed.

(** On a text of the shape [YYYY-MM-DD], [strptime] succeeds exactly when
    the fields form a date. *)
Lemma strptime_iso (s : string) (y m d : Z) :
  iso_fields s = Some (y, m, d) →
  Datetime.strptime s
  = if Datetime.valid y m d then Ok (Datetime.mk_datetime y m d)
    else Raise (StrptimeValueError s).
Proof.
  unfold iso_fields.
  destruct s as [|y1 [|y2 [|y3 [|y4 [|h1 [|m1 [|m2 [|h2 [|d1 [|d2 [|]]]]]]]]]]];
    try discriminate.
  destruct (Ascii.eqb_spec h1 "-") as [->|]; [|discriminate].
  destruct (Ascii.eqb_spec h2 "-") as [->|]; [|discriminate]. simpl andb. cbv iota.
  destruct (Int.digit_val y1) as [a|] eqn:Ea; [|discriminate].
  destruct (Int.digit_val y2) as [b|] eqn:Eb; [|discriminate].
  destruct (Int.digit_val y3) as [c|] eqn:Ec; [|discriminate].
  destruct (Int.digit_val y4) as [e|] eqn:Ee; [|discriminate].
  destruct (Int.digit_val m1) as [ma|] eqn:Ema; [|discriminate].
  destruct (Int.digit_val m2) as [mb|] eqn:Emb; [|discriminate].
  destruct (Int.digit_val d1) as [da|] eqn:Eda; [|discriminate].
  destruct (Int.digit_val d2) as [db|] eqn:Edb; [|discriminate].
  intros [= <- <- <-].
  set (Y := 1000 * a + 100 * b + 10 * c + e).
  pose proof (head_month_day Y _ _ _ _ _ _ _ _ Ema Emb Eda Edb) as H.
  cbv zeta in H. unfold Datetime.strptime, Datetime.format_regex.
  rewrite (group_Y_iso _ _ _ _ _ _ _ _ _ Ea Eb Ec Ee). fold Y.
  change ([(Y, ?r)] ≫= ?f) with (f (Y, r) ++ [])%list.
  rewrite app_nil_r. cbv beta iota.
  destruct ((1 <=? 10 * ma + mb) && (10 * ma + mb <=? 12)
            && (1 <=? 10 * da + db) && (10 * da + db <=? 31)) eqn:Erange.
  - rewrite H. simpl. done.
  - destruct (Datetime.valid Y (10 * ma + mb) (10 * da + db)) eqn:Ev.
    + apply valid_ranges in Ev. exfalso.
      rewrite !andb_false_iff, !Z.leb_gt in Erange. lia.
    + destruct (head _) as [[[[y' m'] d'] rest]|]; [|done].
      destruct rest; [done|]. done.
Qed.

Lemma slice_to_prefix (n : nat) (text : string) :
  (∃ rest, text = Str.slice_to n text +:+ rest)
  ∧ String.length (Str.slice_to n text) = (n `min` String.length text)%nat.
Proof.
  unfold Str.slice_to. revert text. induction n as [|n IH]; intros text.
  - destruct text; simpl; (split; [by eexists|done]).
  - destruct text as [|c text]; simpl; [split; [by exists ""|done]|].
    destruct (IH text) as [[rest Hrest] Hlen]. split.
    + exists rest. rewrite sapp_cons. by rewrite <- Hrest.
    + by rewrite Hlen.
Qed.

Lemma strptime_Ok_valid (text : string) (t : Datetime.datetime) :
  Datetime.strptime text = Ok t →
  Datetime.valid (Datetime.year t) (Datetime.month t) (Datetime.day t) = true.
Proof.
  unfold Datetime.strptime.
  destruct (head _) as [[[[y m] d] rest]|]; [|discriminate].
  destruct (Str.is_empty rest); [|discriminate]. simpl.
  destruct (Datetime.valid y m d) eqn:E; [|discriminate]. by intros [= <-].
Qed.

Lemma parse_document_start_day dom highs_lows icons :
  temperatures dom = Ok highs_lows → icon_tokens dom = Ok icons →
  ∀ e, start_day dom = Raise e → parse_document dom = Raise e.
Proof.
  intros Ht Hi e He. unfold parse_document. rewrite Ht. destruct highs_lows. simpl.
  rewrite Hi. simpl. by rewrite He.
Qed.

Lemma start_day_document dom highs_lows icons :
  temperatures dom = Ok highs_lows → icon_tokens dom = Ok icons →
  let xml_start_times := Dom.documentElementsByTagName dom "start-valid-time" in
  (xml_start_times = []
   ∨ (∃ e rest, xml_start_times = e :: rest ∧ Dom.firstChild e = None) →
   parse_document dom
   = Raise (ValueError "Weather feed did not contain start-valid-time"))
  ∧ ∀ e rest fc text,
      xml_start_times = e :: rest → Dom.firstChild e = Some fc →
      Dom.nodeValue fc = Some text →
      let day_text := Str.slice_to 10 text in
      ((∃ tail, text = day_text +:+ tail)
       ∧ String.length day_text = (10 `min` String.length text)%nat)
      ∧ start_day dom = Datetime.strptime day_text
      ∧ (∀ err, Datetime.strptime day_text = Raise err →
                parse_document dom = Raise err)
      ∧ (∀ y m d, iso_fields day_text = Some (y, m, d) →
                  Datetime.strptime day_text
                  = if Datetime.valid y m d then Ok (Datetime.mk_datetime y m d)
                    else Raise (StrptimeValueError day_text))
      ∧ (∀ t, Datetime.strptime day_text = Ok t →
              Datetime.valid (Datetime.year t) (Datetime.month t) (Datetime.day t)
              = true).
Proof.
  intros Ht Hi xml_start_times. split.
  - intros H. eapply parse_document_start_day; [done..|]. unfold start_day.
    fold xml_start_times. by destruct H as [->|(e & rest & -> & ->)].
  - intros e rest fc text Hx Hfc Htext day_text.
    assert (Hs : start_day dom = Datetime.strptime day_text).
    { unfold start_day. fold xml_start_times. by rewrite Hx, Hfc, Htext. }
    split_and!.
    + apply slice_to_prefix.
    + apply slice_to_prefix.
    + done.
    + intros err Herr. eapply parse_document_start_day; [done..|]. by rewrite Hs.
    + apply strptime_iso.
    + apply strptime_Ok_valid.
Qed.





(** ** The calendar: ordinals and dates *)

Lemma Z_range_forallb (f : Z → bool) (n : nat) :
  forallb f (map Z.of_nat (seq 0 n)) = true → ∀ z, 0 ≤ z < Z.of_nat n → f z = true.
Proof.
  intros H z Hz. rewrite forallb_forall in H. apply H.
  apply in_map_iff. exists (Z.to_nat z). split; [lia|]. apply in_seq. lia.
Qed.

Lemma month_day_spec (leapyear : bool) (n : Z) :
  0 ≤ n < (if leapyear then 366 else 365) → month_day_ok leapyear n = true.
Proof.
  intros Hn. destruct leapyear.
  - apply (Z_range_forallb (month_day_ok true) 366); [by vm_compute|lia].
  - apply (Z_range_forallb (month_day_ok false) 365); [by vm_compute|lia].
Qed.

Lemma ord2ymd_unfold (n : Z) :
  Datetime.ord2ymd n =
    let n0 := n - 1 in
    let n400 := n0 / Datetime.DI400Y in
    let r400 := n0 mod Datetime.DI400Y in
    let n100 := r400 / Datetime.DI100Y in
    let r100 := r400 mod Datetime.DI100Y in
    let n4 := r100 / Datetime.DI4Y in
    let r4 := r100 mod Datetime.DI4Y in
    let n1 := r4 / 365 in
    let r1 := r4 mod 365 in
    let y := n400 * 400 + 1 + n100 * 100 + n4 * 4 + n1 in
    if (n1 =? 4) || (n100 =? 4) then (y - 1, 12, 31)
    else
      let leapyear := (n1 =? 3) && (negb (n4 =? 24) || (n100 =? 3)) in
      let '(m, d) := month_day leapyear r1 in (y, m, d).
Proof.
  unfold Datetime.ord2ymd, month_day. cbv zeta.
  destruct (_ || _); [done|]. by destruct (_ <? _).
Qed.

Ltac b2p H :=
  rewrite ?andb_true_iff, ?andb_false_iff, ?orb_true_iff, ?orb_false_iff,
    ?negb_true_iff, ?negb_false_iff, ?Z.eqb_eq, ?Z.eqb_neq in H.

(** The year that [ord2ymd] finds: the ordinal falls in it, and the leap
    year test of [ord2ymd] agrees with [is_leap]. *)
Lemma ord2ymd_year (n : Z) :
  1 ≤ n ≤ Datetime.MAXORDINAL →
  let n0 := n - 1 in
  let n400 := n0 / Datetime.DI400Y in
  let r400 := n0 mod Datetime.DI400Y in
  let n100 := r400 / Datetime.DI100Y in
  let r100 := r400 mod Datetime.DI100Y in
  let n4 := r100 / Datetime.DI4Y in
  let r4 := r100 mod Datetime.DI4Y in
  let n1 := r4 / 365 in
  let r1 := r4 mod 365 in
  let y := n400 * 400 + 1 + n100 * 100 + n4 * 4 + n1 in
  if (n1 =? 4) || (n100 =? 4)
  then Datetime.days_before_year (y - 1) + 334
       + (if Datetime.is_leap (y - 1) then 1 else 0) + 31 = n
       ∧ 1 ≤ y - 1 ≤ 9999
  else Datetime.is_leap y = (n1 =? 3) && (negb (n4 =? 24) || (n100 =? 3))
       ∧ Datetime.days_before_year y + r1 + 1 = n
       ∧ 0 ≤ r1 < (if Datetime.is_leap y then 366 else 365)
       ∧ 1 ≤ y ≤ 9999.
Proof.
  intros Hn. cbv zeta.
  unfold Datetime.MAXORDINAL, Datetime.DI400Y, Datetime.DI100Y, Datetime.DI4Y,
    Datetime.days_before_year, Datetime.is_leap in *.
  set (n0 := n - 1).
  assert (0 ≤ n0 ≤ 3652058) by (unfold n0; lia).
  pose proof (Z.div_mod n0 146097 ltac:(lia)) as E400.
  pose proof (Z.mod_pos_bound n0 146097 ltac:(lia)) as B400.
  set (n400 := n0 / 146097) in *. set (r400 := n0 mod 146097) in *.
  pose proof (Z.div_mod r400 36524 ltac:(lia)) as E100.
  pose proof (Z.mod_pos_bound r400 36524 ltac:(lia)) as B100.
  set (n100 := r400 / 36524) in *. set (r100 := r400 mod 36524) in *.
  pose proof (Z.div_mod r100 1461 ltac:(lia)) as E4.
  pose proof (Z.mod_pos_bound r100 1461 ltac:(lia)) as B4.
  set (n4 := r100 / 1461) in *. set (r4 := r100 mod 1461) in *.
  pose proof (Z.div_mod r4 365 ltac:(lia)) as E1.
  pose proof (Z.mod_pos_bound r4 365 ltac:(lia)) as B1.
  set (n1 := r4 / 365) in *. set (r1 := r4 mod 365) in *.
  assert (0 ≤ n400 ≤ 24) by (unfold n400; split; [apply Z.div_pos; lia|lia]).
  assert (0 ≤ n100 ≤ 4) by lia.
  assert (0 ≤ n4 ≤ 24) by lia.
  assert (0 ≤ n1 ≤ 4) by lia.
  clearbody n400 r400 n100 r100 n4 r4 n1 r1.
  assert (Hcase : n1 = 4 ∨ n1 ≠ 4 ∧ n100 = 4 ∨ n1 ≠ 4 ∧ n100 ≠ 4) by lia.
  destruct Hcase as [->|[[Hn1 ->]|[Hn1 Hn100]]].
  - simpl.
    destruct ((_ mod 4 =? 0) && _) eqn:El; b2p El;
      (split; Z.div_mod_to_equations; lia).
  - rewrite (proj2 (Z.eqb_neq n1 4) Hn1). simpl.
    destruct ((_ mod 4 =? 0) && _) eqn:El; b2p El;
      (split; Z.div_mod_to_equations; lia).
  - rewrite (proj2 (Z.eqb_neq n1 4) Hn1), (proj2 (Z.eqb_neq n100 4) Hn100). simpl.
    destruct ((_ mod 4 =? 0) && _) eqn:El; b2p El;
    destruct ((n1 =? 3) && _) eqn:Er; b2p Er;
      (split; [first [reflexivity | exfalso; Z.div_mod_to_equations; lia]
              |split_and!; Z.div_mod_to_equations; lia]).
Qed.

(** Every ordinal of the calendar is the ordinal of the date that
    [fromordinal] makes of it, and that date exists. *)
Lemma toordinal_fromordinal (n : Z) :
  1 ≤ n ≤ Datetime.MAXORDINAL →
  Datetime.toordinal (Datetime.fromordinal n) = n
  ∧ Datetime.valid (Datetime.year (Datetime.fromordinal n))
      (Datetime.month (Datetime.fromordinal n))
      (Datetime.day (Datetime.fromordinal n)) = true.
Proof.
  intros Hn. pose proof (ord2ymd_year n Hn) as H. cbv zeta in H.
  unfold Datetime.toordinal, Datetime.fromordinal. rewrite ord2ymd_unfold. cbv zeta.
  destruct (_ || _).
  - destruct H as [H Hy]. cbn [Datetime.year Datetime.month Datetime.day].
    unfold Datetime.ymd2ord, Datetime.days_before_month, Datetime.valid,
      Datetime.days_in_month, Datetime.MINYEAR, Datetime.MAXYEAR.
    change (nth (Z.to_nat (12 - 1)) Datetime.DAYS_BEFORE_MONTH 0) with 334.
    change (2 <? 12) with true. change (12 =? 2) with false.
    change (nth (Z.to_nat (12 - 1)) Datetime.DAYS_IN_MONTH 0) with 31.
    cbn [andb]. split; [lia|].
    rewrite !andb_true_iff, !Z.leb_le. lia.
  - destruct H as (Hleap & Hy & Hr & Hyear).
    rewrite <- Hleap in *.
    pose proof (month_day_spec _ _ Hr) as Hmd. unfold month_day_ok in Hmd.
    destruct (month_day _ _) as [m d].
    cbn [Datetime.year Datetime.month Datetime.day].
    rewrite !andb_true_iff, !Z.leb_le, Z.eqb_eq in Hmd.
    destruct Hmd as ((((Hsum & Hm1) & Hm2) & Hd1) & Hd2).
    unfold Datetime.ymd2ord, Datetime.days_before_month, Datetime.valid,
      Datetime.days_in_month, Datetime.MINYEAR, Datetime.MAXYEAR.
    split; [lia|]. rewrite !andb_true_iff, !Z.leb_le. lia.
Qed.

Lemma days_before_month_nonneg (y m : Z) : 0 ≤ Datetime.days_before_month y m.
Proof.
  unfold Datetime.days_before_month.
  assert (0 ≤ nth (Z.to_nat (m - 1)) Datetime.DAYS_BEFORE_MONTH 0).
  { destruct (Z.to_nat (m - 1)) as [|[|[|[|[|[|[|[|[|[|[|[|n]]]]]]]]]]]];
      simpl; try lia. destruct n; simpl; lia. }
  destruct (_ && _); lia.
Qed.

Lemma toordinal_pos (t : Datetime.datetime) :
  Datetime.valid (Datetime.year t) (Datetime.month t) (Datetime.day t) = true →
  1 ≤ Datetime.toordinal t.
Proof.
  intros Hv. apply valid_ranges in Hv as (Hy & _ & Hd & _).
  unfold Datetime.toordinal, Datetime.ymd2ord, Datetime.days_before_year.
  pose proof (days_before_month_nonneg (Datetime.year t) (Datetime.month t)).
  assert (0 ≤ (Datetime.year t - 1) * 365 + (Datetime.year t - 1) / 4
              - (Datetime.year t - 1) / 100 + (Datetime.year t - 1) / 400)
    by (Z.div_mod_to_equations; lia).
  lia.
Qed.

(** [day_one + timedelta(days=k)] is the date [k] days later, when the
    calendar has one. *)
Lemma add_days_Ok (t : Datetime.datetime) (k : Z) :
  Datetime.valid (Datetime.year t) (Datetime.month t) (Datetime.day t) = true →
  0 ≤ k → Datetime.toordinal t + k ≤ Datetime.MAXORDINAL →
  ∃ t', Datetime.add_days t k = Ok t'
        ∧ Datetime.toordinal t' = Datetime.toordinal t + k
        ∧ Datetime.valid (Datetime.year t') (Datetime.month t') (Datetime.day t')
          = true
        ∧ Datetime.weekday t' = (Datetime.weekday t + k) mod 7.
Proof.
  intros Hv Hk Hmax. pose proof (toordinal_pos t Hv) as Hpos.
  unfold Datetime.add_days.
  destruct (Z.ltb_spec 0 (Datetime.toordinal t + k)); [|lia].
  destruct (Z.leb_spec (Datetime.toordinal t + k) Datetime.MAXORDINAL); [|lia].
  simpl. eexists; split; [reflexivity|].
  destruct (toordinal_fromordinal (Datetime.toordinal t + k) ltac:(lia)) as [Ho Hv'].
  split_and!; [done..|].
  unfold Datetime.weekday. rewrite Ho.
  rewrite Zplus_mod_idemp_l. f_equal. lia.
Qed.

Lemma add_days_overflow (t : Datetime.datetime) (k : Z) :
  Datetime.MAXORDINAL < Datetime.toordinal t + k →
  Datetime.add_days t k = Raise OverflowError.
Proof.
  intros H. unfold Datetime.add_days.
  destruct (Z.leb_spec (Datetime.toordinal t + k) Datetime.MAXORDINAL); [lia|].
  by rewrite andb_false_r.
Qed.

Lemma weekday_range (t : Datetime.datetime) : 0 ≤ Datetime.weekday t < 7.
Proof. unfold Datetime.weekday. apply Z.mod_pos_bound. lia. Qed.

(** *** Dates and ordinals correspond one to one *)

Lemma days_before_year_succ (y : Z) :
  Datetime.days_before_year (y + 1)
  = Datetime.days_before_year y + 365 + (if Datetime.is_leap y then 1 else 0).
Proof.
  unfold Datetime.days_before_year, Datetime.is_leap. cbv zeta.
  replace (y + 1 - 1) with y by lia.
  destruct ((_ mod 4 =? 0) && _) eqn:El; b2p El; Z.div_mod_to_equations; lia.
Qed.

Lemma days_before_year_mono (a b : Z) :
  a ≤ b → Datetime.days_before_year a ≤ Datetime.days_before_year b.
Proof.
  intros H. unfold Datetime.days_before_year. cbv zeta.
  Z.div_mod_to_equations. lia.
Qed.

(** The days before a month and the days of the month, by the month. *)
Lemma month_table (y m : Z) :
  1 ≤ m ≤ 12 →
  let leap := if Datetime.is_leap y then 1 else 0 in
  (m = 1 ∧ Datetime.days_before_month y m = 0 ∧ Datetime.days_in_month y m = 31)
  ∨ (m = 2 ∧ Datetime.days_before_month y m = 31
     ∧ Datetime.days_in_month y m = 28 + leap)
  ∨ (m = 3 ∧ Datetime.days_before_month y m = 59 + leap
     ∧ Datetime.days_in_month y m = 31)
  ∨ (m = 4 ∧ Datetime.days_before_month y m = 90 + leap
     ∧ Datetime.days_in_month y m = 30)
  ∨ (m = 5 ∧ Datetime.days_before_month y m = 120 + leap
     ∧ Datetime.days_in_month y m = 31)
  ∨ (m = 6 ∧ Datetime.days_before_month y m = 151 + leap
     ∧ Datetime.days_in_month y m = 30)
  ∨ (m = 7 ∧ Datetime.days_before_month y m = 181 + leap
     ∧ Datetime.days_in_month y m = 31)
  ∨ (m = 8 ∧ Datetime.days_before_month y m = 212 + leap
     ∧ Datetime.days_in_month y m = 31)
  ∨ (m = 9 ∧ Datetime.days_before_month y m = 243 + leap
     ∧ Datetime.days_in_month y m = 30)
  ∨ (m = 10 ∧ Datetime.days_before_month y m = 273 + leap
     ∧ Datetime.days_in_month y m = 31)
  ∨ (m = 11 ∧ Datetime.days_before_month y m = 304 + leap
     ∧ Datetime.days_in_month y m = 30)
  ∨ (m = 12 ∧ Datetime.days_before_month y m = 334 + leap
     ∧ Datetime.days_in_month y m = 31).
Proof.
  intros Hm. cbv zeta.
  unfold Datetime.days_before_month, Datetime.days_in_month.
  assert (Hc : m = 1 ∨ m = 2 ∨ m = 3 ∨ m = 4 ∨ m = 5 ∨ m = 6 ∨ m = 7 ∨ m = 8
               ∨ m = 9 ∨ m = 10 ∨ m = 11 ∨ m = 12) by lia.
  destruct (Datetime.is_leap y);
    repeat (destruct Hc as [-> | Hc]; [simpl; tauto|]); subst m; simpl; tauto.
Qed.

(** The day of the year of a date. *)
Lemma day_of_year_range (y m d : Z) :
  Datetime.valid y m d = true →
  1 ≤ Datetime.days_before_month y m + d
  ≤ 365 + (if Datetime.is_leap y then 1 else 0).
Proof.
  intros (_ & Hm & Hd & _)%valid_ranges.
  pose proof (month_table y m Hm) as H. cbv zeta in H.
  destruct (Datetime.is_leap y); lia.
Qed.

Lemma day_of_year_inj (y m d m' d' : Z) :
  Datetime.valid y m d = true → Datetime.valid y m' d' = true →
  Datetime.days_before_month y m + d = Datetime.days_before_month y m' + d' →
  m = m' ∧ d = d'.
Proof.
  intros (_ & Hm & Hd & _)%valid_ranges (_ & Hm' & Hd' & _)%valid_ranges.
  pose proof (month_table y m Hm) as H. pose proof (month_table y m' Hm') as H'.
  cbv zeta in H, H'. destruct (Datetime.is_leap y); lia.
Qed.

Lemma ymd2ord_lt_year (y m d y' m' d' : Z) :
  Datetime.valid y m d = true → Datetime.valid y' m' d' = true → y < y' →
  Datetime.ymd2ord y m d < Datetime.ymd2ord y' m' d'.
Proof.
  intros Hv Hv' Hy. unfold Datetime.ymd2ord.
  pose proof (day_of_year_range _ _ _ Hv). pose proof (day_of_year_range _ _ _ Hv').
  pose proof (days_before_year_succ y).
  pose proof (days_before_year_mono (y + 1) y' ltac:(lia)). lia.
Qed.

(** Two dates with the same ordinal are the same date. *)
Lemma toordinal_inj (t t' : Datetime.datetime) :
  Datetime.valid (Datetime.year t) (Datetime.month t) (Datetime.day t) = true →
  Datetime.valid (Datetime.year t') (Datetime.month t') (Datetime.day t') = true →
  Datetime.toordinal t = Datetime.toordinal t' → t = t'.
Proof.
  destruct t as [y m d], t' as [y' m' d']. unfold Datetime.toordinal. simpl.
  intros Hv Hv' Heq.
  assert (y = y') as <-.
  { destruct (Z.lt_trichotomy y y') as [Hlt|[->|Hgt]]; [|done|].
    - pose proof (ymd2ord_lt_year _ _ _ _ _ _ Hv Hv' Hlt). lia.
    - pose proof (ymd2ord_lt_year _ _ _ _ _ _ Hv' Hv ltac:(lia)). lia. }
  unfold Datetime.ymd2ord in Heq.
  destruct (day_of_year_inj y m d m' d' Hv Hv' ltac:(lia)) as [-> ->]. done.
Qed.

Lemma toordinal_max (t : Datetime.datetime) :
  Datetime.valid (Datetime.year t) (Datetime.month t) (Datetime.day t) = true →
  Datetime.toordinal t ≤ Datetime.MAXORDINAL.
Proof.
  intros Hv. pose proof (day_of_year_range _ _ _ Hv).
  pose proof (valid_ranges _ _ _ Hv) as (Hy & _).
  pose proof (days_before_year_succ (Datetime.year t)).
  pose proof (days_before_year_mono (Datetime.year t + 1) 10000 ltac:(lia)) as Hm.
  change (Datetime.days_before_year 10000) with 3652059 in Hm.
  unfold Datetime.toordinal, Datetime.ymd2ord, Datetime.MAXORDINAL. lia.
Qed.

(** Every date is the date that [fromordinal] makes of its ordinal. *)
Lemma fromordinal_toordinal (t : Datetime.datetime) :
  Datetime.valid (Datetime.year t) (Datetime.month t) (Datetime.day t) = true →
  Datetime.fromordinal (Datetime.toordinal t) = t.
Proof.
  intros Hv. pose proof (toordinal_pos t Hv). pose proof (toordinal_max t Hv).
  destruct (toordinal_fromordinal (Datetime.toordinal t) ltac:(lia)) as [Ho Hv'].
  by apply toordinal_inj.
Qed.

(** ** [str.replace] *)

Lemma startswith_app (a s : string) :
  Str.startswith a s = true ↔ ∃ r, s = a +:+ r.
Proof.
  revert s. induction a as [|c a IH]; intros s; simpl.
  - split; [by exists s|done].
  - destruct s as [|d s]; [split; [done|by intros [r ?]]|].
    rewrite andb_true_iff, IH. split.
    + intros [->%Ascii.eqb_eq [r ->]]. by exists r.
    + intros [r [= -> ->]]. split; [apply Ascii.eqb_refl|by exists r].
Qed.

Lemma startswith_refl_app (a r : string) : Str.startswith a (a +:+ r) = true.
Proof. apply startswith_app. by exists r. Qed.

Lemma startswith_mono (a x y : string) :
  Str.startswith a x = true → Str.startswith a (x +:+ y) = true.
Proof.
  rewrite !startswith_app. intros [r ->]. exists (r +:+ y). by rewrite sapp_assoc.
Qed.

Lemma startswith_length (a s : string) :
  Str.startswith a s = true → (String.length a ≤ String.length s)%nat.
Proof. rewrite startswith_app. intros [r ->]. rewrite slength_app. lia. Qed.

(** A prefix no longer than [u] is decided inside [u]. *)
Lemma startswith_within (a u z : string) :
  (String.length a ≤ String.length u)%nat →
  Str.startswith a (u +:+ z) = Str.startswith a u.
Proof.
  revert u. induction a as [|c a IH]; intros u Hlen; [done|].
  destruct u as [|d u]; simpl in Hlen; [lia|]. rewrite sapp_cons. simpl.
  rewrite IH by lia. done.
Qed.

Lemma compat_app (a b y : string) :
  Str.startswith a (b +:+ y) = true → compat a b = true.
Proof.
  unfold compat. revert b. induction a as [|c a IH]; intros b H; [done|].
  destruct b as [|d b]; [by rewrite orb_true_r|].
  rewrite sapp_cons in H. simpl in *. apply andb_true_iff in H as [Hc H].
  apply IH in H. apply Ascii.eqb_eq in Hc as ->. rewrite Ascii.eqb_refl. done.
Qed.

Lemma compat_cons (c d : ascii) (a b : string) :
  compat (String c a) (String d b) = Ascii.eqb c d && compat a b.
Proof.
  unfold compat; simpl. rewrite (Ascii.eqb_sym d c).
  by destruct (Ascii.eqb c d).
Qed.

Lemma suffixes_ok_app (p : string → bool) (s1 s2 : string) :
  suffixes_ok p (s1 +:+ s2) = true → s2 ≠ "" → p s2 = true.
Proof.
  induction s1 as [|c s1 IH]; intros H Hne.
  - rewrite sapp_nil_l in H. destruct s2; [done|]. simpl in H.
    by apply andb_true_iff in H as [? _].
  - rewrite sapp_cons in H. simpl in H. apply andb_true_iff in H as [_ H]. auto.
Qed.

(** A match that stays clear of [w] when it begins before [w] lies wholly
    before [w]. *)
Lemma startswith_before (old w x y : string) :
  suffixes_ok (λ q, negb (compat q w)) old = true →
  Str.startswith old (x +:+ w +:+ y) = true → Str.startswith old x = true.
Proof.
  revert old. induction x as [|d x IH]; intros old Hok H.
  - rewrite sapp_nil_l in H. destruct old as [|c old]; [done|].
    simpl in Hok. apply andb_true_iff in Hok as [Hok _].
    apply compat_app in H. by rewrite H in Hok.
  - destruct old as [|c old]; [done|]. rewrite sapp_cons in H. simpl in *.
    apply andb_true_iff in H as [-> H]. apply andb_true_iff in Hok as [_ Hok].
    by rewrite (IH old).
Qed.

Lemma detached_before (old w x y : string) :
  detached old w = true → x ≠ "" →
  Str.startswith old (x +:+ w +:+ y) = true → Str.startswith old x = true.
Proof.
  unfold detached. intros Hd Hx H.
  destruct x as [|d x]; [done|]. destruct old as [|c old]; [done|].
  rewrite sapp_cons in H. simpl in *. apply andb_true_iff in H as [-> H].
  by rewrite (startswith_before old w x y).
Qed.

Lemma closed_free (old w y : string) : closed old w = true → free old w y.
Proof.
  unfold closed. intros [_ Hc]%andb_true_iff x1 x2 -> Hx2.
  apply (suffixes_ok_app _ x1 x2) in Hc; [|done]. cbv beta in Hc.
  destruct (Str.startswith old (x2 +:+ y)) eqn:E; [|done].
  apply compat_app in E. by rewrite E in Hc.
Qed.

Lemma free_nil (old r : string) : free old "" r.
Proof.
  intros x1 x2 H Hx2. symmetry in H. apply sapp_eq_nil in H as [_ ->]. done.
Qed.

Lemma free_cons (old : string) (c : ascii) (x r : string) :
  Str.startswith old (String c x +:+ r) = false → free old x r →
  free old (String c x) r.
Proof.
  intros Hc Hfree x1 x2 Heq Hx2. destruct x1 as [|d x1].
  - rewrite sapp_nil_l in Heq. by subst x2.
  - rewrite sapp_cons in Heq. injection Heq as _ Heq. by eapply Hfree.
Qed.

Lemma free_tail (old : string) (c : ascii) (x r : string) :
  free old (String c x) r →
  Str.startswith old (String c x +:+ r) = false ∧ free old x r.
Proof.
  intros H. split.
  - by apply (H "" (String c x)).
  - intros x1 x2 -> Hx2. by apply (H (String c x1) x2).
Qed.

Section ReplaceScan.
Variables (old new : string).
Hypothesis old_nonempty : old ≠ "".

Local Abbreviation scan := (Str.replace_scan old new).

Lemma replace_nonempty (s : string) : Str.replace old new s = scan 0%nat s.
Proof. unfold Str.replace. by destruct old. Qed.

Lemma scan_skip (a y : string) : scan (String.length a) (a +:+ y) = scan 0%nat y.
Proof. induction a as [|c a IH]; [done|]. rewrite sapp_cons. simpl. done. Qed.

Lemma scan_cons (c : ascii) (s : string) :
  scan 0%nat (String c s)
  = if Str.startswith old (String c s)
    then new +:+ scan (String.length old - 1) s
    else String c (scan 0%nat s).
Proof. reflexivity. Qed.

Lemma scan_cons_skip (k : nat) (c : ascii) (s : string) :
  scan (S k) (String c s) = scan k s.
Proof. reflexivity. Qed.

Lemma scan_hit (y : string) : scan 0%nat (old +:+ y) = new +:+ scan 0%nat y.
Proof.
  destruct old as [|c o] eqn:E; [done|]. rewrite <- E.
  assert (old +:+ y = String c (o +:+ y)) as -> by (rewrite E; apply sapp_cons).
  rewrite scan_cons.
  assert (Str.startswith old (String c (o +:+ y)) = true) as ->
    by (rewrite <- sapp_cons, <- E; apply startswith_refl_app).
  f_equal.
  assert ((String.length old - 1)%nat = String.length o) as ->
    by (rewrite E; simpl; lia).
  apply scan_skip.
Qed.

Lemma scan_free (x r : string) :
  free old x r → scan 0%nat (x +:+ r) = x +:+ scan 0%nat r.
Proof.
  induction x as [|c x IH]; intros H; [done|].
  apply free_tail in H as [Hc H]. rewrite sapp_cons in *.
  rewrite scan_cons, Hc. by rewrite IH.
Qed.

Lemma scan_no_match (s : string) : free old s "" → scan 0%nat s = s.
Proof.
  intros H. rewrite <- (sapp_nil_r s) at 1. rewrite scan_free by done.
  simpl. by rewrite sapp_nil_r.
Qed.

(** The scan passes over a piece of text that no match touches. *)
Lemma scan_split (w y : string) :
  inert old w = true →
  ∀ x k, (k ≤ String.length x)%nat →
         scan k (x +:+ w +:+ y) = scan k x +:+ w +:+ scan 0%nat y.
Proof.
  unfold inert. intros [Hd Hc]%andb_true_iff.
  induction x as [|c x IH]; intros k Hk.
  - simpl in Hk. assert (k = 0%nat) as -> by lia. rewrite !sapp_nil_l.
    apply scan_free. by apply closed_free.
  - rewrite !sapp_cons. destruct k as [|k].
    + rewrite !scan_cons. rewrite <- !sapp_cons.
      destruct (Str.startswith old (String c x +:+ w +:+ y)) eqn:E.
      * apply detached_before in E; [|done..]. rewrite E.
        rewrite IH; [by rewrite sapp_assoc|].
        apply startswith_length in E. simpl in E. lia.
      * destruct (Str.startswith old (String c x)) eqn:E'.
        { apply (startswith_mono _ _ (w +:+ y)) in E'. congruence. }
        rewrite IH by lia. done.
    + rewrite !scan_cons_skip. apply IH. simpl in Hk. lia.
Qed.

(** The scan replaces a match of a pattern that does not overlap itself,
    wherever the match is. *)
Lemma scan_split_self (y : string) :
  detached old old = true →
  ∀ x k, (k ≤ String.length x)%nat →
         scan k (x +:+ old +:+ y) = scan k x +:+ new +:+ scan 0%nat y.
Proof.
  intros Hd. induction x as [|c x IH]; intros k Hk.
  - simpl in Hk. assert (k = 0%nat) as -> by lia. rewrite !sapp_nil_l.
    apply scan_hit.
  - rewrite !sapp_cons. destruct k as [|k].
    + rewrite !scan_cons. rewrite <- !sapp_cons.
      destruct (Str.startswith old (String c x +:+ old +:+ y)) eqn:E.
      * apply detached_before in E; [|done..]. rewrite E.
        rewrite IH; [by rewrite sapp_assoc|].
        apply startswith_length in E. simpl in E. lia.
      * destruct (Str.startswith old (String c x)) eqn:E'.
        { apply (startswith_mono _ _ (old +:+ y)) in E'. congruence. }
        rewrite IH by lia. done.
    + rewrite !scan_cons_skip. apply IH. simpl in Hk. lia.
Qed.

End ReplaceScan.

(** ** Replacing patterns one after the other *)

Lemma nonempty_length (s : string) : s ≠ "" → (0 < String.length s)%nat.
Proof. destruct s; [done|]. simpl. lia. Qed.

(** A piece of text that no match of [old] touches splits the text. *)
Lemma replace_split (old new w x y : string) :
  old ≠ "" → inert old w = true →
  Str.replace old new (x +:+ w +:+ y)
  = Str.replace old new x +:+ w +:+ Str.replace old new y.
Proof.
  intros Hne Hi. rewrite !replace_nonempty by done.
  apply scan_split; [done..|lia].
Qed.

(** Every match of a pattern that does not overlap itself is replaced. *)
Lemma replace_split_self (old new x y : string) :
  old ≠ "" → detached old old = true →
  Str.replace old new (x +:+ old +:+ y)
  = Str.replace old new x +:+ new +:+ Str.replace old new y.
Proof.
  intros Hne Hd. rewrite !replace_nonempty by done.
  apply scan_split_self; [done..|lia].
Qed.

Lemma replace_free (old new x r : string) :
  old ≠ "" → free old x r →
  Str.replace old new (x +:+ r) = x +:+ Str.replace old new r.
Proof. intros Hne H. rewrite !replace_nonempty by done. by apply scan_free. Qed.

Lemma replace_hit (old new y : string) :
  old ≠ "" → Str.replace old new (old +:+ y) = new +:+ Str.replace old new y.
Proof. intros Hne. rewrite !replace_nonempty by done. by apply scan_hit. Qed.

Lemma replace_no_match (old new s : string) :
  old ≠ "" → free old s "" → Str.replace old new s = s.
Proof. intros Hne H. rewrite replace_nonempty by done. by apply scan_no_match. Qed.

Lemma replace_pass (old new w y : string) :
  old ≠ "" → inert old w = true →
  Str.replace old new (w +:+ y) = w +:+ Str.replace old new y.
Proof.
  intros Hne [_ Hc]%andb_true_iff. apply replace_free; [done|].
  by apply closed_free.
Qed.

Lemma free_not_occurs (old s : string) : ¬ occurs old s → free old s "".
Proof.
  intros Hno x1 x2 -> _. rewrite sapp_nil_r.
  destruct (Str.startswith old x2) eqn:E; [|done].
  apply startswith_app in E as [r ->]. exfalso. apply Hno. by exists x1, r.
Qed.

Lemma occurs_occursb (old s : string) : occurs old s → occursb old s = true.
Proof.
  intros (x & y & ->). induction x as [|c x IH].
  - rewrite sapp_nil_l. destruct (old +:+ y) eqn:E; simpl; rewrite <- E;
      by rewrite startswith_refl_app.
  - rewrite sapp_cons. simpl. rewrite IH. apply orb_true_r.
Qed.

(** The first match of one of two patterns. *)
Lemma first_match (p q s : string) :
  p ≠ "" → q ≠ "" →
  (free p s "" ∧ free q s "")
  ∨ ∃ x t y, s = x +:+ t +:+ y ∧ (t = p ∨ t = q)
             ∧ free p x (t +:+ y) ∧ free q x (t +:+ y).
Proof.
  intros Hp Hq. induction s as [|c s IH].
  - left. split; apply free_nil.
  - destruct (Str.startswith p (String c s)) eqn:Ep.
    { right. apply startswith_app in Ep as [y Ey]. exists "", p, y.
      split_and!; [exact Ey|by left|apply free_nil..]. }
    destruct (Str.startswith q (String c s)) eqn:Eq.
    { right. apply startswith_app in Eq as [y Ey]. exists "", q, y.
      split_and!; [exact Ey|by right|apply free_nil..]. }
    destruct IH as [[Fp Fq]|(x & t & y & -> & Ht & Fp & Fq)].
    + left. split; apply free_cons; by rewrite ?sapp_nil_r.
    + right. exists (String c x), t, y. rewrite sapp_cons.
      split_and!; [done..| |]; apply free_cons; by rewrite ?sapp_cons.
Qed.

Lemma free_change_rest (p x y z : string) :
  free p x (p +:+ y) → free p x (p +:+ z).
Proof.
  intros H x1 x2 Hx Hx2. specialize (H x1 x2 Hx Hx2).
  rewrite <- sapp_assoc in *.
  rewrite startswith_within in H |- *; [done|rewrite slength_app; lia..].
Qed.

Lemma free_detached (q w x y z : string) :
  detached q w = true → free q x y → free q x (w +:+ z).
Proof.
  intros Hd Hfree x1 x2 Hx Hx2.
  destruct (Str.startswith q (x2 +:+ w +:+ z)) eqn:E; [|done].
  apply detached_before in E; [|done..].
  apply (startswith_mono _ _ y) in E. by rewrite (Hfree x1 x2) in E.
Qed.

Section Commute.
Variables (p vp q vq : string).
Hypotheses (p_nonempty : p ≠ "") (q_nonempty : q ≠ "").

(** Where the first match of either pattern is a match of [p], both orders
    replace it and go on behind it. *)
Lemma replace_first_match (x y : string) :
  inert q p = true → inert q vp = true →
  free p x (p +:+ y) → free q x (p +:+ y) →
  Str.replace p vp (Str.replace q vq (x +:+ p +:+ y))
  = x +:+ vp +:+ Str.replace p vp (Str.replace q vq y)
  ∧ Str.replace q vq (Str.replace p vp (x +:+ p +:+ y))
    = x +:+ vp +:+ Str.replace q vq (Str.replace p vp y).
Proof.
  intros Hqp Hqvp Fp Fq. split.
  - rewrite (replace_free q), (replace_pass q) by done.
    rewrite (replace_free p); [|done|by eapply free_change_rest].
    by rewrite replace_hit.
  - rewrite (replace_free p), replace_hit by done.
    rewrite (replace_free q); [|done|].
    + by rewrite (replace_pass q).
    + apply andb_true_iff in Hqvp as [Hd _].
      by eapply free_detached.
Qed.

End Commute.

(** Two replacements whose patterns and texts stay clear of each other
    commute. *)
Lemma replace_comm (p vp q vq : string) :
  p ≠ "" → q ≠ "" →
  inert q p = true → inert p q = true →
  inert q vp = true → inert p vq = true →
  ∀ s, Str.replace p vp (Str.replace q vq s)
       = Str.replace q vq (Str.replace p vp s).
Proof.
  intros Hp Hq Hqp Hpq Hqvp Hpvq s.
  remember (String.length s) as n eqn:Hn. revert s Hn.
  induction n as [n IH] using lt_wf_ind. intros s ->.
  destruct (first_match p q s Hp Hq) as [[Fp Fq]|(x & t & y & -> & Ht & Fp & Fq)].
  - by rewrite (replace_no_match q), !(replace_no_match p), (replace_no_match q).
  - assert (Hy : (String.length y < String.length (x +:+ t +:+ y))%nat).
    { rewrite !slength_app.
      assert (0 < String.length t)%nat
        by (destruct Ht as [-> | ->]; by apply nonempty_length).
      lia. }
    specialize (IH _ Hy y eq_refl).
    destruct Ht as [-> | ->].
    + destruct (replace_first_match p vp q vq Hp Hq x y) as [-> ->]; [done..|].
      by rewrite IH.
    + destruct (replace_first_match q vq p vp Hq Hp x y) as [-> ->]; [done..|].
      by rewrite IH.
Qed.

(** ** Lists of replacements *)

Lemma apply_all_cons (st : string * string) (steps : list (string * string))
    (s : string) :
  apply_all (st :: steps) s = apply_all steps (Str.replace st.1 st.2 s).
Proof. reflexivity. Qed.

Lemma apply_all_app (l1 l2 : list (string * string)) (s : string) :
  apply_all (l1 ++ l2) s = apply_all l2 (apply_all l1 s).
Proof. unfold apply_all. by rewrite fold_left_app. Qed.

Lemma apply_all_pass (steps : list (string * string)) (w : string) :
  (∀ st, st ∈ steps → st.1 ≠ "" ∧ inert st.1 w = true) →
  ∀ x y, apply_all steps (x +:+ w +:+ y)
         = apply_all steps x +:+ w +:+ apply_all steps y.
Proof.
  induction steps as [|st steps IH]; intros H x y; [done|].
  rewrite !apply_all_cons.
  destruct (H st) as [Hne Hi]; [by left|].
  rewrite replace_split by done. apply IH. intros st' Hst'. apply H. by right.
Qed.

(** A match of the pattern of one replacement is replaced by its text, and
    the text around it is rendered on its own. *)
Lemma apply_all_split (l1 l2 : list (string * string)) (p v : string) :
  (∀ st, st ∈ l1 → st.1 ≠ "" ∧ inert st.1 p = true) →
  p ≠ "" → detached p p = true →
  (∀ st, st ∈ l2 → st.1 ≠ "" ∧ inert st.1 v = true) →
  ∀ x y, apply_all (l1 ++ (p, v) :: l2) (x +:+ p +:+ y)
         = apply_all (l1 ++ (p, v) :: l2) x +:+ v
           +:+ apply_all (l1 ++ (p, v) :: l2) y.
Proof.
  intros H1 Hp Hd H2 x y. rewrite !apply_all_app, !apply_all_cons. simpl.
  rewrite (apply_all_pass l1) by done.
  rewrite replace_split_self by done.
  by rewrite (apply_all_pass l2).
Qed.

Lemma apply_all_no_match (steps : list (string * string)) (s : string) :
  (∀ st, st ∈ steps → st.1 ≠ "" ∧ ¬ occurs st.1 s) → apply_all steps s = s.
Proof.
  induction steps as [|st steps IH]; intros H; [done|].
  rewrite apply_all_cons. destruct (H st) as [Hne Hno]; [by left|].
  rewrite replace_no_match; [|done|by apply free_not_occurs].
  apply IH. intros st' Hst'. apply H. by right.
Qed.

(** Replacements that commute two by two can be made in any order. *)
Lemma apply_all_perm (l l' : list (string * string)) :
  Permutation l l' →
  (∀ a b s, a ∈ l → b ∈ l →
            Str.replace a.1 a.2 (Str.replace b.1 b.2 s)
            = Str.replace b.1 b.2 (Str.replace a.1 a.2 s)) →
  ∀ s, apply_all l s = apply_all l' s.
Proof.
  induction 1 as [|x l l' Hperm IH|x y l|l l' l'' H1 IH1 H2 IH2]; intros Hc s.
  - done.
  - rewrite !apply_all_cons. apply IH. intros a b t Ha Hb.
    apply Hc; by right.
  - rewrite !apply_all_cons. f_equal. apply Hc; [right; by left|by left].
  - rewrite IH1 by done. apply IH2. intros a b t Ha Hb.
    apply Hc; by rewrite H1.
Qed.

(** ** The texts that [render_svg] writes *)

Lemma suffixes_ok_intro (p : string → bool) (s : string) :
  (∀ s1 c s2, s = s1 +:+ String c s2 → p (String c s2) = true) →
  suffixes_ok p s = true.
Proof.
  induction s as [|c s IH]; intros H; [done|]. simpl. apply andb_true_iff. split.
  - by apply (H "" c s).
  - apply IH. intros s1 d s2 ->. by apply (H (String c s1) d s2).
Qed.

Lemma all_chars_elem (p : ascii → bool) (s s1 s2 : string) (c : ascii) :
  Str.all_chars p s = true → s = s1 +:+ String c s2 → p c = true.
Proof.
  intros H ->. rewrite all_chars_app in H. simpl in H.
  apply andb_true_iff in H as [_ H]. by apply andb_true_iff in H as [H _].
Qed.

Lemma compat_heads (c d : ascii) (a b : string) :
  c ≠ d → compat (String c a) (String d b) = false.
Proof. intros H. rewrite compat_cons. by apply Ascii.eqb_neq in H as ->. Qed.

(** A text without capital letters and underscores is clear of a pattern
    made of them. *)
Lemma inert_foreign (old w : string) :
  old ≠ "" → w ≠ "" → Str.all_chars marker_char old = true →
  Str.all_chars (λ c, negb (marker_char c)) w = true →
  inert old w = true.
Proof.
  intros Hold Hw Hm Hf. unfold inert, detached, closed.
  destruct old as [|a old]; [done|]. destruct w as [|e w]; [done|].
  assert (He : marker_char e = false).
  { simpl in Hf. apply andb_true_iff in Hf as [Hf _]. by apply negb_true_iff. }
  rewrite !andb_true_iff. split_and!.
  - apply suffixes_ok_intro. intros s1 c s2 Heq. apply negb_true_iff.
    apply compat_heads. intros ->.
    assert (marker_char e = true); [|congruence].
    apply (all_chars_elem marker_char (String a old) (String a s1) s2 e Hm).
    simpl in Heq. rewrite sapp_cons. by rewrite Heq.
  - done.
  - apply suffixes_ok_intro. intros s1 c s2 Heq. apply negb_true_iff.
    apply compat_heads. intros <-.
    assert (negb (marker_char a) = true) as Ha
      by exact (all_chars_elem (λ c, negb (marker_char c)) _ _ _ _ Hf Heq).
    simpl in Hm. apply andb_true_iff in Hm as [Hm _]. by rewrite Hm in Ha.
Qed.

Lemma upper_not_icon (c : ascii) : Str.is_upper c = true → icon_token_char c = false.
Proof. by_char c. Qed.

Lemma icon_marker_underscore (c : ascii) :
  icon_token_char c = true → marker_char c = true → c = "_"%char.
Proof. by_char c. Qed.

(** *** [str] of an integer *)

Lemma string_of_uint_digits (d : Decimal.uint) :
  Str.all_chars (λ c, negb (marker_char c)) (NilEmpty.string_of_uint d) = true.
Proof. induction d; simpl; [done|by rewrite IHd..]. Qed.

Lemma nilzero_string_of_uint (d : Decimal.uint) :
  NilZero.string_of_uint d ≠ ""
  ∧ Str.all_chars (λ c, negb (marker_char c)) (NilZero.string_of_uint d) = true.
Proof.
  split.
  - by destruct d.
  - destruct d; [done|apply (string_of_uint_digits (_ d))..].
Qed.

Lemma of_int_foreign (z : Z) :
  Str.of_int z ≠ ""
  ∧ Str.all_chars (λ c, negb (marker_char c)) (Str.of_int z) = true.
Proof.
  unfold Str.of_int, NilZero.string_of_int.
  destruct (Z.to_int z) as [d|d].
  - apply nilzero_string_of_uint.
  - split; [done|]. simpl. apply nilzero_string_of_uint.
Qed.

(** *** Icon tokens *)

Lemma guarded_cons (c : ascii) (s : string) :
  guarded (String c s) = true → guarded s = true.
Proof. simpl. by intros [_ ?]%andb_true_iff. Qed.

(** No suffix of a pattern of capital letters and guarded underscores
    reaches into an icon token other than ["_"]. *)
Lemma icon_detached (t u : string) :
  ICON_TOKEN_RE_fullmatch t = true → t ≠ "_" →
  Str.all_chars marker_char u = true → guarded u = true →
  suffixes_ok (λ q, negb (compat q t)) u = true.
Proof.
  unfold ICON_TOKEN_RE_fullmatch. intros [Hn Ht]%andb_true_iff Hne.
  destruct t as [|e t]; [done|]. clear Hn. simpl in Ht. apply andb_true_iff in Ht as [He Ht].
  induction u as [|c u IH]; intros Hm Hg; [done|].
  simpl in Hm. apply andb_true_iff in Hm as [Hc Hm].
  simpl suffixes_ok. apply andb_true_iff. split.
  - apply negb_true_iff. rewrite compat_cons.
    destruct (Ascii.eqb_spec c e) as [->|]; [|done]. simpl.
    pose proof (icon_marker_underscore e He Hc) as ->.
    simpl in Hg. apply andb_true_iff in Hg as [Hg _].
    destruct u as [|d u]; [done|]. destruct t as [|f t]; [done|].
    simpl in Ht. apply andb_true_iff in Ht as [Hf _].
    apply compat_heads. intros ->. by rewrite (upper_not_icon f Hg) in Hf.
  - apply IH; [done|by eapply guarded_cons].
Qed.

Lemma icon_closed (old t : string) (a : ascii) :
  Str.is_upper a = true → Str.all_chars icon_token_char t = true →
  suffixes_ok (λ u, negb (compat (String a old) u)) t = true.
Proof.
  intros Ha. induction t as [|c t IH]; intros Ht; [done|].
  simpl in Ht. apply andb_true_iff in Ht as [Hc Ht].
  simpl. apply andb_true_iff. split; [|by apply IH].
  apply negb_true_iff, compat_heads. intros ->.
  by rewrite (upper_not_icon c Ha) in Hc.
Qed.

(** An icon token other than ["_"] is clear of every placeholder. *)
Lemma icon_inert (old t : string) :
  marker_pattern old = true → ICON_TOKEN_RE_fullmatch t = true → t ≠ "_" →
  inert old t = true.
Proof.
  unfold marker_pattern. intros [[Ha Hm]%andb_true_iff Hg]%andb_true_iff Ht Hne.
  destruct old as [|a old]; [done|].
  unfold inert, detached, closed. rewrite !andb_true_iff. split_and!.
  - simpl tail. apply icon_detached; [done..| |by eapply guarded_cons].
    simpl in Hm. by apply andb_true_iff in Hm as [_ ?].
  - unfold ICON_TOKEN_RE_fullmatch in Ht. by apply andb_true_iff in Ht as [? _].
  - apply icon_closed; [done|].
    unfold ICON_TOKEN_RE_fullmatch in Ht. by apply andb_true_iff in Ht as [_ ?].
Qed.

(** *** The placeholders *)

Lemma forallb_elem {A : Type} (f : A → bool) (l : list A) (x : A) :
  forallb f l = true → x ∈ l → f x = true.
Proof. rewrite forallb_forall. intros H Hx. apply H. by apply list_elem_of_In. Qed.

(** No placeholder is empty or overlaps itself, every placeholder is made
    of capital letters around one underscore, and no match of one
    placeholder touches a match of another. *)
Lemma placeholders_apart (p q : string) :
  p ∈ placeholders → q ∈ placeholders →
  p ≠ "" ∧ detached p p = true ∧ marker_pattern p = true
  ∧ Str.all_chars marker_char p = true
  ∧ (p = q ∨ inert q p = true).
Proof.
  intros Hp Hq.
  assert (H : forallb (λ p, negb (Str.is_empty p) && detached p p
                            && marker_pattern p && Str.all_chars marker_char p
                            && forallb (λ q, String.eqb p q || inert q p)
                                 placeholders) placeholders = true)
    by (vm_compute; reflexivity).
  apply (forallb_elem _ _ p) in H; [|done].
  rewrite !andb_true_iff in H. destruct H as ((((Hne & Hd) & Hmp) & Hm) & H).
  apply (forallb_elem _ _ q) in H; [|done].
  split_and!; [by destruct p|done..|].
  apply orb_true_iff in H as [H%String.eqb_eq|H]; auto.
Qed.

Lemma placeholders_NoDup : NoDup placeholders.
Proof. apply (bool_decide_unpack _). by vm_compute. Qed.

(** The names of the days and [str(None)] are clear of the placeholders. *)
Lemma day_names_inert (q w : string) :
  q ∈ placeholders → w ∈ "None" :: days_of_week → inert q w = true.
Proof.
  intros Hq Hw.
  assert (H : forallb (λ q, forallb (inert q) ("None" :: days_of_week))
                placeholders = true) by (vm_compute; reflexivity).
  apply (forallb_elem _ _ q) in H; [|done]. by apply (forallb_elem _ _ w) in H.
Qed.

(** [DAY_ONE] and [DAY_TWO] are clear of the placeholders. *)
Lemma other_days_inert (q w : string) :
  q ∈ placeholders → w ∈ ["DAY_ONE"; "DAY_TWO"] → inert q w = true.
Proof.
  intros Hq Hw.
  assert (H : forallb (λ q, forallb (inert q) ["DAY_ONE"; "DAY_TWO"])
                placeholders = true) by (vm_compute; reflexivity).
  apply (forallb_elem _ _ q) in H; [|done]. by apply (forallb_elem _ _ w) in H.
Qed.

Lemma str_inert (q : string) (v : option Z) (w : string) :
  q ∈ placeholders → str v = Ok w → inert q w = true.
Proof.
  intros Hq. destruct v as [z|]; simpl.
  - unfold Int.str. destruct (_ <=? _)%nat; [|discriminate]. intros [= <-].
    destruct (placeholders_apart q q Hq Hq) as (Hne & _ & _ & Hm & _).
    destruct (of_int_foreign z). by apply inert_foreign.
  - intros [= <-]. apply day_names_inert; [done|by left].
Qed.

(** ** [render_svg] *)

Lemma item_Ok {A : Type} (l : list A) (i : nat) (x : A) :
  item l i = Ok x ↔ l !! i = Some x.
Proof. unfold item. destruct (l !! i); split; congruence. Qed.

Lemma day_name_Ok (day_one : Datetime.datetime) (n : Z) (w : string) :
  day_name day_one n = Ok w →
  ∃ t, Datetime.add_days day_one n = Ok t
       ∧ days_of_week !! Z.to_nat (Datetime.weekday t) = Some w.
Proof.
  unfold day_name. intros H. apply bind_Ok in H as (t & Ht & H).
  exists t. split; [done|]. by apply item_Ok.
Qed.

(** [render_svg] makes the replacements of [substitutions], in that
    order. *)
Lemma render_svg_steps highs lows icons day_one template :
  render_svg highs lows icons day_one template
  = steps ← substitutions highs lows icons day_one;
    Ok (apply_all steps template).
Proof.
  unfold render_svg, substitutions, value_steps, day_steps.
  repeat match goal with
         | |- context [item ?l ?n] => destruct (item l n); simpl; [|reflexivity]
         | |- context [str ?v] => destruct (str v); simpl; [|reflexivity]
         end.
  destruct (day_name day_one 2); simpl; [|reflexivity].
  destruct (day_name day_one 3); simpl; reflexivity.
Qed.

Lemma value_steps_clear highs lows icons vs :
  value_steps highs lows icons = Ok vs →
  (∀ i t, (i < NUM_DAYS)%nat → icons !! i = Some t →
          ICON_TOKEN_RE_fullmatch t = true) →
  vs.*1 = take 12 placeholders
  ∧ ∀ st q, st ∈ vs → st.2 ≠ "_" → q ∈ placeholders → inert q st.2 = true.
Proof.
  unfold value_steps. intros H Hicons.
  repeat (let x := fresh "x" in let Hx := fresh "Hx" in
          apply bind_Ok in H as (x & Hx & H); try apply item_Ok in Hx).
  injection H as <-. split; [reflexivity|].
  assert (Hicon : ∀ i t q, (i < NUM_DAYS)%nat → icons !! i = Some t → t ≠ "_" →
                           q ∈ placeholders → inert q t = true).
  { intros i t q Hi Ht Hne Hq. pose proof (Hicons i t Hi Ht).
    destruct (placeholders_apart q q Hq Hq) as (_ & _ & Hm & _).
    by apply icon_inert. }
  intros st q Hst Hne Hq.
  repeat (apply elem_of_cons in Hst as [->|Hst];
          [first [ by eapply str_inert
                 | eapply Hicon; [|eassumption|done..]; unfold NUM_DAYS; lia ]|]).
  by apply elem_of_nil in Hst.
Qed.

Lemma day_steps_clear day_one ds :
  day_steps day_one = Ok ds →
  ds.*1 = drop 12 placeholders
  ∧ ∀ st q, st ∈ ds → q ∈ placeholders → inert q st.2 = true.
Proof.
  unfold day_steps. intros H.
  apply bind_Ok in H as (d3 & H3 & H). apply bind_Ok in H as (d4 & H4 & H).
  injection H as <-. split; [reflexivity|].
  apply day_name_Ok in H3 as (t3 & _ & H3). apply day_name_Ok in H4 as (t4 & _ & H4).
  apply list_elem_of_lookup_2 in H3, H4.
  intros st q Hst Hq.
  repeat (apply elem_of_cons in Hst as [->|Hst];
          [apply day_names_inert; [done|by right]|]).
  by apply elem_of_nil in Hst.
Qed.

Lemma substitutions_values highs lows icons day_one steps :
  substitutions highs lows icons day_one = Ok steps →
  (∀ i t, (i < NUM_DAYS)%nat → icons !! i = Some t →
          ICON_TOKEN_RE_fullmatch t = true) →
  steps.*1 = placeholders
  ∧ ∀ st q, st ∈ steps → st.2 ≠ "_" → q ∈ placeholders → inert q st.2 = true.
Proof.
  unfold substitutions. intros H Hicons.
  apply bind_Ok in H as (vs & Hvs & H). apply bind_Ok in H as (ds & Hds & H).
  injection H as <-.
  destruct (value_steps_clear _ _ _ _ Hvs Hicons) as [Hv1 Hv2].
  destruct (day_steps_clear _ _ Hds) as [Hd1 Hd2]. split.
  - rewrite fmap_app, Hv1, Hd1. apply take_drop.
  - intros st q [Hst|Hst]%elem_of_app; eauto.
Qed.

(** The patterns of the replacements, whatever their texts. *)
Lemma substitutions_patterns highs lows icons day_one steps :
  substitutions highs lows icons day_one = Ok steps → steps.*1 = placeholders.
Proof.
  unfold substitutions. intros H.
  apply bind_Ok in H as (vs & Hvs & H). apply bind_Ok in H as (ds & Hds & H).
  injection H as <-.
  assert (vs.*1 = take 12 placeholders) as Hv.
  { unfold value_steps in Hvs.
    repeat (let x := fresh "x" in let Hx := fresh "Hx" in
            apply bind_Ok in Hvs as (x & Hx & Hvs)).
    by injection Hvs as <-. }
  destruct (day_steps_clear _ _ Hds) as [Hd _].
  rewrite fmap_app, Hv, Hd. apply take_drop.
Qed.

Lemma steps_pattern (steps : list (string * string)) (st : string * string) :
  steps.*1 = placeholders → st ∈ steps → st.1 ∈ placeholders.
Proof. intros <- Hst. by apply list_elem_of_fmap_2. Qed.

Lemma steps_same_pattern (steps : list (string * string)) (a b : string * string) :
  NoDup steps.*1 → a ∈ steps → b ∈ steps → a.1 = b.1 → a = b.
Proof.
  induction steps as [|st steps IH]; intros Hnd Ha Hb Hab.
  - by apply elem_of_nil in Ha.
  - rewrite fmap_cons in Hnd. apply NoDup_cons in Hnd as [Hnot Hnd].
    apply elem_of_cons in Ha as [->|Ha]; apply elem_of_cons in Hb as [->|Hb].
    + done.
    + exfalso. apply Hnot. rewrite Hab. by apply list_elem_of_fmap_2.
    + exfalso. apply Hnot. rewrite <- Hab. by apply list_elem_of_fmap_2.
    + by apply IH.
Qed.

Lemma clear_steps_comm (steps : list (string * string)) (a b : string * string)
    (s : string) :
  clear_steps steps → a ∈ steps → b ∈ steps →
  Str.replace a.1 a.2 (Str.replace b.1 b.2 s)
  = Str.replace b.1 b.2 (Str.replace a.1 a.2 s).
Proof.
  intros [Hpat Hval] Ha Hb.
  pose proof (steps_pattern _ _ Hpat Ha) as Hpa.
  pose proof (steps_pattern _ _ Hpat Hb) as Hpb.
  destruct (placeholders_apart a.1 b.1 Hpa Hpb) as (Hane & _ & _ & _ & Hab).
  destruct (placeholders_apart b.1 a.1 Hpb Hpa) as (Hbne & _ & _ & _ & Hba).
  assert (Hsame : a.1 = b.1 → a = b).
  { apply (steps_same_pattern steps); [|done..].
    rewrite Hpat. apply placeholders_NoDup. }
  destruct Hab as [Heq|Hab]; [by rewrite (Hsame Heq)|].
  destruct Hba as [Heq|Hba]; [by rewrite (Hsame (eq_sym Heq))|].
  apply replace_comm; auto.
Qed.

Lemma steps_split (steps : list (string * string)) (old new x y : string) :
  steps.*1 = placeholders → (old, new) ∈ steps →
  (∀ q, q ∈ placeholders → inert q new = true) →
  apply_all steps (x +:+ old +:+ y)
  = apply_all steps x +:+ new +:+ apply_all steps y.
Proof.
  intros Hpat Hst Hval.
  pose proof (steps_pattern _ _ Hpat Hst) as Hold. simpl in Hold.
  destruct (placeholders_apart old old Hold Hold) as (Hne & Hd & _).
  destruct (list_elem_of_split _ _ Hst) as (l1 & l2 & ->).
  assert (Hnd : NoDup (l1.*1 ++ old :: l2.*1)%list).
  { rewrite fmap_app, fmap_cons in Hpat. simpl in Hpat. rewrite Hpat.
    apply placeholders_NoDup. }
  apply NoDup_app in Hnd as (_ & Hnd & _).
  apply apply_all_split; [|done..|].
  - intros st Hst1.
    assert (Hp : st.1 ∈ placeholders).
    { apply (steps_pattern _ _ Hpat). apply elem_of_app. by left. }
    destruct (placeholders_apart old st.1 Hold Hp) as (_ & _ & _ & _ & [Heq|Hi]).
    + exfalso. apply (Hnd st.1); [by apply list_elem_of_fmap_2|].
      rewrite <- Heq. by left.
    + split; [|done]. by destruct (placeholders_apart st.1 old Hp Hold).
  - intros st Hst2.
    assert (Hin : st ∈ (l1 ++ (old, new) :: l2)%list)
      by (apply elem_of_app; right; by right).
    pose proof (steps_pattern _ _ Hpat Hin) as Hp.
    split; [by destruct (placeholders_apart st.1 old Hp Hold)|auto].
Qed.

(** A piece of text that no match of a placeholder touches stays. *)
Lemma steps_pass (steps : list (string * string)) (w x y : string) :
  steps.*1 = placeholders →
  (∀ q, q ∈ placeholders → inert q w = true) →
  apply_all steps (x +:+ w +:+ y) = apply_all steps x +:+ w +:+ apply_all steps y.
Proof.
  intros Hpat Hw. apply apply_all_pass. intros st Hst.
  pose proof (steps_pattern _ _ Hpat Hst) as Hp.
  split; [by destruct (placeholders_apart st.1 st.1 Hp Hp)|auto].
Qed.

Lemma steps_no_match (steps : list (string * string)) (s : string) :
  steps.*1 = placeholders → (∀ q, q ∈ placeholders → ¬ occurs q s) →
  apply_all steps s = s.
Proof.
  intros Hpat Hno. apply apply_all_no_match. intros st Hst.
  pose proof (steps_pattern _ _ Hpat Hst) as Hp.
  split; [by destruct (placeholders_apart st.1 st.1 Hp Hp)|auto].
Qed.

(** ** The three claims on rendering *)

(** C7, amended: [render_svg] replaces the fourteen placeholders one after
    the other; a match of a placeholder is replaced wherever it stands, and
    the text before and behind it is rendered on its own, whenever the text
    written is not the icon token ["_"]; and when no icon token is ["_"],
    the replacements can be made in any order. *)
Theorem render_literal_replacement highs lows icons day_one steps :
  substitutions highs lows icons day_one = Ok steps →
  (∀ i t, (i < NUM_DAYS)%nat → icons !! i = Some t →
          ICON_TOKEN_RE_fullmatch t = true) →
  steps.*1 = placeholders
  ∧ (∀ template,
        render_svg highs lows icons day_one template
        = Ok (apply_all steps template))
  ∧ (∀ old new before after,
        (old, new) ∈ steps → new ≠ "_" →
        apply_all steps (before +:+ old +:+ after)
        = apply_all steps before +:+ new +:+ apply_all steps after)
  ∧ ((∀ old new, (old, new) ∈ steps → new ≠ "_") →
     ∀ steps' template,
       Permutation steps steps' →
       apply_all steps' template = apply_all steps template).
Proof.
  intros Hsteps Hicons.
  destruct (substitutions_values _ _ _ _ _ Hsteps Hicons) as [Hpat Hval].
  split_and!.
  - done.
  - intros template. by rewrite render_svg_steps, Hsteps.
  - intros old new before after Hst Hne. apply steps_split; [done..|].
    intros q Hq. by apply (Hval (old, new)).
  - intros Hne steps' template Hperm. symmetry. apply apply_all_perm; [done|].
    intros a b s Ha Hb. apply (clear_steps_comm steps); [|done..].
    split; [done|]. intros st q Hst Hq. apply Hval; [done| |done].
    destruct st as [old new]. by eapply Hne.
Qed.

Lemma sample_icons_allowed (i : nat) (t : string) :
  (i < NUM_DAYS)%nat → sample_icons !! i = Some t →
  ICON_TOKEN_RE_fullmatch t = true.
Proof.
  intros _ H. destruct i as [|[|[|[|i]]]]; simpl in H; try discriminate;
    injection H as <-; reflexivity.
Defined.

Lemma render_literal_replacement_witness :
  apply_all sample_steps ("<text>" +:+ "HIGH_ONE" +:+ "HIGH_ONE</text>")
  = apply_all sample_steps "<text>" +:+ "70"
    +:+ apply_all sample_steps "HIGH_ONE</text>".
Proof.
  refine (proj1 (proj2 (proj2
            (render_literal_replacement sample_highs sample_lows sample_icons
               sample_day sample_steps eq_refl sample_icons_allowed)))
            "HIGH_ONE" "70" "<text>" "HIGH_ONE</text>" _ _).
  - do 4 apply list_elem_of_further. apply list_elem_of_here.
  - discriminate.
Defined.

(** C7 as stated fails: with the icon token ["_"] the order matters, though
    no text written contains a placeholder. *)
Lemma render_order_counterexample :
  ¬ (∀ highs lows icons day_one steps steps' template,
        substitutions highs lows icons day_one = Ok steps →
        Forall (λ t, ICON_TOKEN_RE_fullmatch t = true) icons →
        Forall (λ st, ∀ q, q ∈ placeholders → ¬ occurs q st.2) steps →
        Permutation steps steps' →
        apply_all steps' template = apply_all steps template).
Proof.
  intros H.
  specialize (H sample_highs sample_lows underscore_icons sample_day
                underscore_steps underscore_steps_rotated "HIGHICON_ONEONE"
                eq_refl).
  assert (Hgo : apply_all underscore_steps_rotated "HIGHICON_ONEONE"
                = apply_all underscore_steps "HIGHICON_ONEONE" → False)
    by (vm_compute; discriminate).
  apply Hgo, H; clear H Hgo.
  - repeat constructor.
  - apply Forall_forall. intros st Hst q Hq Hocc%occurs_occursb.
    assert (Hs : forallb (λ st, forallb (λ q, negb (occursb q st.2)) placeholders)
                   underscore_steps = true) by (vm_compute; reflexivity).
    apply (forallb_elem _ _ st) in Hs; [|done].
    apply (forallb_elem _ _ q) in Hs; [|done]. cbv beta in Hs.
    by rewrite Hocc in Hs.
  - apply Permutation_cons_append.
Qed.

(** C8: [DAY_ONE] and [DAY_TWO] stay where they are, with the text before
    and behind them rendered on its own, and a template in which no
    placeholder occurs is returned as it is. *)
Theorem other_days_verbatim highs lows icons day_one :
  (∀ w before after,
      w ∈ ["DAY_ONE"; "DAY_TWO"] →
      render_svg highs lows icons day_one (before +:+ w +:+ after)
      = (a ← render_svg highs lows icons day_one before;
         b ← render_svg highs lows icons day_one after;
         Ok (a +:+ w +:+ b)))
  ∧ (∀ template out,
        (∀ q, q ∈ placeholders → ¬ occurs q template) →
        render_svg highs lows icons day_one template = Ok out → out = template)
  ∧ (∀ template template',
        is_Ok (render_svg highs lows icons day_one template)
        = is_Ok (render_svg highs lows icons day_one template')).
Proof.
  split_and!.
  - intros w before after Hw. rewrite !render_svg_steps.
    destruct (substitutions highs lows icons day_one) as [steps|e] eqn:E; [|done].
    simpl. f_equal. apply steps_pass.
    + by eapply substitutions_patterns.
    + intros q Hq. by apply other_days_inert.
  - intros template out Hno. rewrite render_svg_steps.
    destruct (substitutions highs lows icons day_one) as [steps|e] eqn:E; [|done].
    simpl. intros [= <-]. apply steps_no_match; [|done].
    by eapply substitutions_patterns.
  - intros template template'. rewrite !render_svg_steps.
    by destruct (substitutions highs lows icons day_one).
Qed.

Lemma other_days_verbatim_witness :
  render_svg sample_highs sample_lows sample_icons sample_day
    ("<a>DAY_THREE</a>" +:+ "DAY_ONE" +:+ "<b>LOW_TWO</b>")
  = Ok "<a>Wednesday</a>DAY_ONE<b>58</b>".
Proof.
  rewrite (proj1 (other_days_verbatim sample_highs sample_lows sample_icons
                    sample_day) "DAY_ONE" "<a>DAY_THREE</a>" "<b>LOW_TWO</b>").
  - reflexivity.
  - apply list_elem_of_here.
Defined.

(** C6, amended: for a start date that is at least three days before the
    last day of the calendar, [DAY_THREE] is replaced by the name of the
    weekday two days after the start date and [DAY_FOUR] by the name of the
    weekday three days after it, from the table Monday .. Sunday in which
    the sixth name is ["Caturday"]; these two dates are the only dates with
    those ordinals; the start-valid-time
    [2024-03-10T00:00:00] gives the start date 2024-03-10 and the names of
    2024-03-12 and 2024-03-13. *)
Theorem render_weekdays highs lows icons day_one vs template :
  Datetime.valid (Datetime.year day_one) (Datetime.month day_one)
    (Datetime.day day_one) = true →
  Datetime.toordinal day_one + 3 ≤ Datetime.MAXORDINAL →
  value_steps highs lows icons = Ok vs →
  (∃ t3 t4 name3 name4,
      (Datetime.add_days day_one 2 = Ok t3 ∧ Datetime.add_days day_one 3 = Ok t4)
      ∧ (Datetime.toordinal t3 = Datetime.toordinal day_one + 2
         ∧ Datetime.toordinal t4 = Datetime.toordinal day_one + 3)
      ∧ (∀ t, Datetime.valid (Datetime.year t) (Datetime.month t) (Datetime.day t)
              = true →
              (Datetime.toordinal t = Datetime.toordinal day_one + 2 ↔ t = t3)
              ∧ (Datetime.toordinal t = Datetime.toordinal day_one + 3 ↔ t = t4))
      ∧ (Datetime.weekday t3 = (Datetime.weekday day_one + 2) mod 7
         ∧ Datetime.weekday t4 = (Datetime.weekday day_one + 3) mod 7)
      ∧ (days_of_week !! Z.to_nat (Datetime.weekday t3) = Some name3
         ∧ days_of_week !! Z.to_nat (Datetime.weekday t4) = Some name4)
      ∧ render_svg highs lows icons day_one template
        = Ok (Str.replace "DAY_FOUR" name4
                (Str.replace "DAY_THREE" name3 (apply_all vs template))))
  ∧ days_of_week
    = ["Monday"; "Tuesday"; "Wednesday"; "Thursday"; "Friday"; "Caturday"; "Sunday"]
  ∧ (∀ t, Datetime.weekday t = 5 →
          days_of_week !! Z.to_nat (Datetime.weekday t) = Some "Caturday")
  ∧ Datetime.toordinal (Datetime.mk_datetime 9999 12 28) + 3 = Datetime.MAXORDINAL
  ∧ (Datetime.strptime (Str.slice_to 10 "2024-03-10T00:00:00")
     = Ok (Datetime.mk_datetime 2024 3 10)
     ∧ Datetime.add_days (Datetime.mk_datetime 2024 3 10) 2
       = Ok (Datetime.mk_datetime 2024 3 12)
     ∧ Datetime.add_days (Datetime.mk_datetime 2024 3 10) 3
       = Ok (Datetime.mk_datetime 2024 3 13)
     ∧ day_name (Datetime.mk_datetime 2024 3 10) 2 = Ok "Tuesday"
     ∧ day_name (Datetime.mk_datetime 2024 3 10) 3 = Ok "Wednesday").
Proof.
  intros Hv Hmax Hvs. split_and!; try reflexivity.
  - destruct (add_days_Ok day_one 2 Hv ltac:(lia) ltac:(lia))
      as (t3 & H3 & Ho3 & Hv3 & Hw3).
    destruct (add_days_Ok day_one 3 Hv ltac:(lia) ltac:(lia))
      as (t4 & H4 & Ho4 & Hv4 & Hw4).
    pose proof (weekday_range t3) as R3. pose proof (weekday_range t4) as R4.
    destruct (lookup_lt_is_Some_2 days_of_week (Z.to_nat (Datetime.weekday t3)))
      as [name3 Hn3]; [simpl; lia|].
    destruct (lookup_lt_is_Some_2 days_of_week (Z.to_nat (Datetime.weekday t4)))
      as [name4 Hn4]; [simpl; lia|].
    exists t3, t4, name3, name4. split_and!; try done.
    { intros t Ht. split; (split; [intros Ho|by intros ->]);
        (apply toordinal_inj; [done|done|congruence]). }
    rewrite render_svg_steps. unfold substitutions, day_steps, day_name.
    rewrite Hvs, H3, H4. simpl. unfold item. rewrite Hn3, Hn4. simpl.
    by rewrite apply_all_app.
  - intros t ->. reflexivity.
Qed.

Lemma render_weekdays_witness :
  ∃ name3 name4,
    render_svg sample_highs sample_lows sample_icons sample_day "DAY_THREE, DAY_FOUR"
    = Ok (Str.replace "DAY_FOUR" name4
            (Str.replace "DAY_THREE" name3
               (apply_all (take 12 sample_steps) "DAY_THREE, DAY_FOUR"))).
Proof.
  destruct (proj1 (render_weekdays sample_highs sample_lows sample_icons sample_day
                     (take 12 sample_steps) "DAY_THREE, DAY_FOUR"
                     eq_refl ltac:(vm_compute; discriminate) eq_refl))
    as (t3 & t4 & name3 & name4 & _ & _ & _ & _ & _ & H).
  exists name3, name4. exact H.
Defined.

(** Behind the last day of the calendar there is no weekday to name. *)
Lemma render_svg_overflow highs lows icons day_one vs template :
  value_steps highs lows icons = Ok vs →
  Datetime.MAXORDINAL < Datetime.toordinal day_one + 3 →
  render_svg highs lows icons day_one template = Raise OverflowError.
Proof.
  intros Hvs Hmax. rewrite render_svg_steps.
  unfold substitutions, day_steps, day_name. rewrite Hvs. simpl.
  destruct (Datetime.add_days day_one 2) as [t3|e] eqn:E3.
  - simpl. pose proof (weekday_range t3) as R3.
    destruct (lookup_lt_is_Some_2 days_of_week (Z.to_nat (Datetime.weekday t3)))
      as [name3 Hn3]; [simpl; lia|].
    unfold item. rewrite Hn3. simpl.
    by rewrite (add_days_overflow day_one 3).
  - unfold Datetime.add_days in E3. destruct (_ && _); [done|].
    by injection E3 as <-.
Qed.

(** C6 as stated fails: two days after 9999-12-30 the calendar has ended,
    and [render_svg] raises [OverflowError] instead of substituting. *)
Lemma render_weekdays_counterexample :
  ¬ (∀ highs lows icons vs day_one template,
        Datetime.valid (Datetime.year day_one) (Datetime.month day_one)
          (Datetime.day day_one) = true →
        value_steps highs lows icons = Ok vs →
        ∃ out, render_svg highs lows icons day_one template = Ok out).
Proof.
  intros H.
  destruct (H sample_highs sample_lows sample_icons (take 12 sample_steps)
              (Datetime.mk_datetime 9999 12 30) "DAY_THREE" eq_refl eq_refl)
    as (out & Hout).
  vm_compute in Hout. discriminate Hout.
Qed.


Example end_to_end_scenario :
  render_svg sample_highs sample_lows sample_icons sample_day
    "ICON_ONE ICON_TWO ICON_THREE ICON_FOUR HIGH_ONE HIGH_TWO HIGH_THREE HIGH_FOUR LOW_ONE LOW_TWO LOW_THREE LOW_FOUR DAY_ONE DAY_TWO DAY_THREE DAY_FOUR"
  = Ok "few bkn na rain 70 72 68 65 55 58 50 48 DAY_ONE DAY_TWO Wednesday Thursday".
Proof. reflexivity. Qed.

Example substring_inside_text :
  render_svg sample_highs sample_lows sample_icons sample_day "xHIGH_ONEHIGH_ONEy"
  = Ok "x7070y".
Proof. reflexivity. Qed.

Example slash_in_icon_text :
  icon_token [icon_link "bad/../token"] 0 = Ok "token"
  ∧ icon_token [icon_link "https://example.com/a b.png"] 0 = Ok "na"
  ∧ icon_token [icon_link "https://example.com/"] 0 = Ok "na".
Proof. by split_and!. Qed.

Example int_examples :
  Int.of_str "70" = Some 70 ∧ Int.of_str " -6_8 " = Some (-68)
  ∧ Int.of_str "+007" = Some 7 ∧ Int.of_str "7o" = None
  ∧ Int.of_str "" = None ∧ Int.of_str "4.5" = None ∧ Int.of_str "1__0" = None
  ∧ Int.of_str "- 5" = None.
Proof. by split_and!. Qed.

Example strptime_examples :
  Datetime.strptime "2024-02-29" = Ok (Datetime.mk_datetime 2024 2 29)
  ∧ Datetime.strptime "2023-02-29" = Raise (StrptimeValueError "2023-02-29")
  ∧ Datetime.strptime "2024-3-5" = Ok (Datetime.mk_datetime 2024 3 5)
  ∧ Datetime.strptime "2024/03/05" = Raise (StrptimeValueError "2024/03/05")
  ∧ Datetime.strptime "0000-01-01" = Raise (StrptimeValueError "0000-01-01")
  ∧ Datetime.weekday (Datetime.mk_datetime 2024 3 10) = 6.
Proof. by split_and!. Qed.
(** * Further properties of lines 55 to 90 *)

(** ** The exceptions of the three parts *)

Lemma icon_token_Raise xml_icons i e :
  icon_token xml_icons i = Raise e →
  e = NoneAttributeError "split" ∧ icon_without_text xml_icons i.
Proof.
  unfold icon_token, icon_without_text.
  destruct (xml_icons !! i) as [el|]; [|discriminate].
  destruct (Dom.firstChild el) as [fc|] eqn:Efc; [|discriminate].
  destruct (Dom.nodeValue fc) as [text|] eqn:Ev.
  - destruct (split_last "/" text) as (seg & -> & _); simpl.
    destruct (first_split "." seg) as (w & -> & _); simpl. discriminate.
  - intros [= <-]. eauto 10.
Qed.

Lemma icon_token_without_text xml_icons i :
  icon_without_text xml_icons i →
  icon_token xml_icons i = Raise (NoneAttributeError "split").
Proof. intros (el & fc & He & Hfc & Hv). unfold icon_token. by rewrite He, Hfc, Hv. Qed.

Lemma icon_tokens_Raise dom e :
  icon_tokens dom = Raise e ↔
  e = NoneAttributeError "split"
  ∧ ∃ i, (i < NUM_DAYS)%nat
         ∧ icon_without_text (Dom.documentElementsByTagName dom "icon-link") i.
Proof.
  rewrite icon_tokens_unfold; cbn zeta. unfold NUM_DAYS. split.
  - intros H.
    apply bind_Raise in H as [H|(t0 & _ & H)];
      [apply icon_token_Raise in H as [-> H]; split; [done|exists 0%nat; split; [lia|done]]|].
    apply bind_Raise in H as [H|(t1 & _ & H)];
      [apply icon_token_Raise in H as [-> H]; split; [done|exists 1%nat; split; [lia|done]]|].
    apply bind_Raise in H as [H|(t2 & _ & H)];
      [apply icon_token_Raise in H as [-> H]; split; [done|exists 2%nat; split; [lia|done]]|].
    apply bind_Raise in H as [H|(t3 & _ & H)];
      [apply icon_token_Raise in H as [-> H]; split; [done|exists 3%nat; split; [lia|done]]|].
    discriminate.
  - intros [-> (i & Hi & H)]. apply icon_token_without_text in H.
    destruct (icon_token _ 0) as [t0|e0] eqn:E0;
      [|by apply icon_token_Raise in E0 as [-> _]]. simpl.
    destruct (icon_token _ 1) as [t1|e1] eqn:E1;
      [|by apply icon_token_Raise in E1 as [-> _]]. simpl.
    destruct (icon_token _ 2) as [t2|e2] eqn:E2;
      [|by apply icon_token_Raise in E2 as [-> _]]. simpl.
    destruct (icon_token _ 3) as [t3|e3] eqn:E3;
      [|by apply icon_token_Raise in E3 as [-> _]]. simpl.
    destruct i as [|[|[|[|i]]]]; [congruence..|lia].
Qed.

Lemma strptime_Raise (text : string) (e : exn) :
  Datetime.strptime text = Raise e → e = StrptimeValueError text.
Proof.
  unfold Datetime.strptime.
  destruct (head _) as [[[[y m] d] rest]|]; [|congruence].
  destruct (_ && _); congruence.
Qed.

Lemma start_day_Raise dom e :
  start_day dom = Raise e →
  e = ValueError "Weather feed did not contain start-valid-time"
  ∨ e = NoneSubscriptTypeError ∨ ∃ text, e = StrptimeValueError text.
Proof.
  unfold start_day.
  destruct (Dom.documentElementsByTagName dom "start-valid-time") as [|el rest];
    [intros [= <-]; by left|].
  destruct (Dom.firstChild el) as [fc|]; [|intros [= <-]; by left].
  destruct (Dom.nodeValue fc) as [text|]; [|intros [= <-]; right; by left].
  intros H. apply strptime_Raise in H. right; right; eauto.
Qed.

Lemma parse_document_Raise dom e : parse_document dom = Raise e → parse_error e.
Proof.
  unfold parse_document. intros H.
  apply bind_Raise in H as [H|([highs lows] & _ & H)];
    [left; by eapply temperatures_Raise|].
  apply bind_Raise in H as [H|(icons & _ & H)];
    [apply icon_tokens_Raise in H as [-> _]; right; by left|].
  apply bind_Raise in H as [H|(day_one & _ & H)].
  - apply start_day_Raise in H as [->|[->|[text ->]]]; unfold parse_error; eauto 10.
  - destruct (_ || _); [|discriminate]. injection H as <-.
    unfold parse_error; eauto 10.
Qed.

(** X1: every exception that leaves lines 55 to 90 is the
    [RecursionError] of a document nested too deep for the traversal, one of
    [int], the [AttributeError] of [None.split], the [TypeError] of
    [None[0:10]], the [ValueError] of [strptime], or one of the two
    [ValueError]s that the function raises itself; no [IndexError] escapes
    from the indexing of [values], of [xml_icons] or of the pieces of the
    icon text. *)
Theorem parse_fields_exceptions frames dom e :
  parse_fields frames dom = Raise e →
  (e = RecursionError ∨ parse_error e) ∧ e ≠ IndexError.
Proof.
  intros H. apply parse_fields_Raise in H as [[_ ->]|[_ H]].
  - split; [by left|discriminate].
  - apply parse_document_Raise in H as He.
    split; [by right|]. intros ->.
    destruct He as [[?|[? ?]]|[?|[?|[[? ?]|[?|?]]]]]; discriminate.
Qed.

Lemma parse_fields_exceptions_witness :
  (IntValueError "7o" = RecursionError ∨ parse_error (IntValueError "7o"))
  ∧ IntValueError "7o" ≠ IndexError.
Proof. apply (parse_fields_exceptions 100 garbled_feed). vm_compute. reflexivity. Defined.

Lemma parse_document_icon_markup dom highs_lows :
  temperatures dom = Ok highs_lows →
  (parse_document dom = Raise (NoneAttributeError "split") ↔
   ∃ i, (i < NUM_DAYS)%nat
        ∧ icon_without_text (Dom.documentElementsByTagName dom "icon-link") i).
Proof.
  intros Ht. unfold parse_document. rewrite Ht. destruct highs_lows as [highs lows].
  simpl. split.
  - intros H. apply bind_Raise in H as [H|(icons & _ & H)];
      [by apply icon_tokens_Raise in H as [_ H]|].
    apply bind_Raise in H as [H|(day_one & _ & H)].
    + apply start_day_Raise in H as [H|[H|[text H]]]; discriminate.
    + destruct (_ || _); discriminate.
  - intros H. by rewrite (proj2 (icon_tokens_Raise dom _) (conj eq_refl H)).
Qed.

(** X2: once the temperature loop has completed, lines 55 to 90 raise
    the [AttributeError] of [None.split] exactly when one of the first
    [NUM_DAYS] icon-link elements has an element as its first child. *)
Theorem icon_markup_raises frames dom highs_lows :
  temperatures_within frames dom = Ok highs_lows →
  (parse_fields frames dom = Raise (NoneAttributeError "split") ↔
   ∃ i, (i < NUM_DAYS)%nat
        ∧ icon_without_text (Dom.documentElementsByTagName dom "icon-link") i).
Proof.
  intros Ht. apply temperatures_within_Ok in Ht as [Hw Ht].
  rewrite (parse_fields_walkable _ _ Hw). by eapply parse_document_icon_markup.
Qed.

Lemma icon_markup_raises_witness :
  parse_fields 100 marked_up_icon_feed = Raise (NoneAttributeError "split").
Proof.
  apply (proj2 (icon_markup_raises 100 marked_up_icon_feed
                  ([Some 70; Some 72; Some 68; Some 65],
                   [Some 55; Some 58; Some 50; Some 48]) eq_refl)).
  exists 1%nat. split; [unfold NUM_DAYS; lia|].
  exists (Dom.Element "icon-link" [] [Dom.Element "b" [] [Dom.Text "bkn.jpg"]]),
    (Dom.Element "b" [] [Dom.Text "bkn.jpg"]).
  split_and!; reflexivity.
Defined.
(** ** What lines 55 to 90 read *)

Lemma icon_token_take xml_icons i :
  (i < NUM_DAYS)%nat →
  icon_token (take NUM_DAYS xml_icons) i = icon_token xml_icons i.
Proof. intros Hi. unfold icon_token. by rewrite lookup_take_lt. Qed.



(** X4: of the value elements of a temperature element the first
    [NUM_DAYS] only are read: the loop over [values] is the loop over
    [values[0:NUM_DAYS]], so that a later value is neither stored nor
    converted. *)
Theorem fill_slots_first_days values slots :
  fill_slots values slots = fill_slots (take NUM_DAYS values) slots.
Proof.
  rewrite !fill_slots_unfold, length_take.
  replace (NUM_DAYS `min` (NUM_DAYS `min` length values))%nat
    with (NUM_DAYS `min` length values)%nat by lia.
  apply for_in_ext. intros i st Hi. apply elem_of_range in Hi.
  unfold fill_body. rewrite lookup_take_lt by lia. done.
Qed.

Lemma fill_slots_first_days_witness :
  fill_slots
    [value_element "70"; value_element "72"; value_element "68"; value_element "65";
     value_element "n/a"]
    (replicate NUM_DAYS None)
  = Ok [Some 70; Some 72; Some 68; Some 65].
Proof. rewrite fill_slots_first_days. reflexivity. Defined.

Lemma temperature_step_other item st :
  high_or_low item = false → temperature_step item st = Ok st.
Proof.
  unfold high_or_low, temperature_step. destruct st as [highs lows].
  intros H. apply orb_false_iff in H as [-> ->]. done.
Qed.

(** X5: a temperature element whose type is neither [maximum] nor
    [minimum] is passed over: the loop over the temperature elements is
    the loop over those of the two types, and the values of the others are
    not converted. *)
Theorem temperatures_other_types dom :
  temperatures dom
  = for_in (filter (λ item, high_or_low item = true)
              (Dom.documentElementsByTagName dom "temperature"))
      temperature_step (replicate NUM_DAYS None, replicate NUM_DAYS None).
Proof.
  unfold temperatures.
  generalize (replicate NUM_DAYS (@None Z), replicate NUM_DAYS (@None Z)).
  induction (Dom.documentElementsByTagName dom "temperature") as [|item items IH];
    intros st; [done|].
  rewrite filter_cons. destruct (decide (high_or_low item = true)) as [Hk|Hk]; simpl.
  - destruct (temperature_step item st); simpl; [apply IH|done].
  - apply not_true_is_false in Hk.
    rewrite (temperature_step_other item st Hk). simpl. apply IH.
Qed.

Lemma temperatures_other_types_witness :
  temperatures five_icons_feed
  = Ok ([Some 70; Some 72; Some 68; Some 65], [Some 55; Some 58; Some 50; Some 48]).
Proof. rewrite temperatures_other_types. reflexivity. Defined.

(** ** When lines 55 to 90 return *)

Lemma fill_body_Ok_int values i slots slots' x :
  fill_body values i slots = Ok slots' → value_text values i = Some x →
  ∃ z, Int.int x = Ok z.
Proof.
  unfold fill_body, value_text.
  destruct (values !! i) as [v|]; [|discriminate]. simpl.
  destruct (Dom.firstChild v) as [fc|]; [|discriminate]. simpl.
  intros H [= <-]. inv_bind H. eauto.
Qed.

Lemma fill_slots_Ok_int values slots slots' i x :
  fill_slots values slots = Ok slots' → slot_source values i = Some x →
  ∃ z, Int.int x = Ok z.
Proof.
  rewrite fill_slots_unfold. unfold slot_source. intros H Hx.
  destruct (Nat.ltb_spec i (NUM_DAYS `min` length values)) as [Hi|]; [|discriminate].
  destruct (for_in_Ok_each _ _ _ _ H i) as (s & s' & Hb); [by apply elem_of_range|].
  by eapply fill_body_Ok_int.
Qed.

Lemma temperature_step_Ok_int item st st' kind i x :
  temperature_step item st = Ok st' →
  kind = "maximum" ∨ kind = "minimum" → assigns kind item i x →
  ∃ z, Int.int x = Ok z.
Proof.
  unfold temperature_step. destruct st as [highs lows]. intros H Hk [Hty Hx].
  apply bind_Ok in H as (hs & Hh & H). apply bind_Ok in H as (ls & Hl & _).
  destruct Hk as [-> | ->]; rewrite Hty in *; simpl in *.
  - by eapply fill_slots_Ok_int.
  - by eapply fill_slots_Ok_int.
Qed.

(** The temperature loop completes exactly when [int] accepts every text
    that an element of type maximum or minimum hands to it. *)
Lemma temperatures_Ok_iff dom :
  (∃ highs_lows, temperatures dom = Ok highs_lows) ↔
  ∀ item kind i x,
    item ∈ Dom.documentElementsByTagName dom "temperature" →
    kind = "maximum" ∨ kind = "minimum" →
    assigns kind item i x → ∃ z, Int.int x = Ok z.
Proof.
  split.
  - intros (hl & H) item kind i x Hitem Hk Ha. unfold temperatures in H.
    destruct (for_in_Ok_each _ _ _ _ H item Hitem) as (s & s' & Hs).
    by eapply temperature_step_Ok_int.
  - intros Hconv. apply for_in_all_Ok.
    intros item [hs ls] Hitem. unfold temperature_step.
    destruct (String.eqb_spec (Dom.getAttribute item "type") "maximum") as [Emax|_].
    + destruct (fill_slots_total (Dom.getElementsByTagName item "value") hs)
        as (hs' & ->).
      { intros i x Hx. eapply (Hconv item "maximum"); [done|by left|done]. }
      simpl. rewrite Emax. simpl. eauto.
    + simpl.
      destruct (String.eqb_spec (Dom.getAttribute item "type") "minimum") as [Emin|_];
        [|simpl; eauto].
      destruct (fill_slots_total (Dom.getElementsByTagName item "value") ls)
        as (ls' & ->).
      { intros i x Hx. eapply (Hconv item "minimum"); [done|by right|done]. }
      simpl. eauto.
Qed.

(** After the loop no slot is [None] exactly when every slot has an
    element that assigns it. *)
Lemma slots_complete slots kind items :
  length slots = NUM_DAYS →
  (∀ j, slots !! j = match last_source kind items j with
                     | Some x => to_slot x
                     | None => replicate NUM_DAYS None !! j
                     end) →
  existsb is_None slots = false ↔
  ∀ i, (i < NUM_DAYS)%nat → ∃ item x, item ∈ items ∧ assigns kind item i x.
Proof.
  intros Hlen Hlook. rewrite existsb_is_None, Forall_lookup. split.
  - intros Hall i Hi.
    destruct (lookup_lt_is_Some_2 slots i ltac:(lia)) as [v Hv].
    destruct (Hall i v Hv) as (z & ->). rewrite Hlook in Hv.
    destruct (last_source kind items i) as [x|] eqn:E.
    + apply last_source_Some in E as (before & item & after & -> & Ha & _).
      exists item, x. split; [|done]. apply elem_of_app; right; by left.
    + rewrite lookup_replicate_2 in Hv by lia. discriminate.
  - intros Hall i v Hv.
    assert (Hi : (i < NUM_DAYS)%nat) by (rewrite <- Hlen; by eapply lookup_lt_Some).
    destruct (Hall i Hi) as (item & x & Hitem & Ha).
    rewrite Hlook in Hv.
    destruct (last_source kind items i) as [x'|] eqn:E.
    + unfold to_slot in Hv. destruct (Int.int x'); [|discriminate].
      injection Hv as <-. eauto.
    + exfalso. eapply (proj1 (last_source_None kind items i) E); eauto.
Qed.

Lemma parse_document_returns dom :
  let items := Dom.documentElementsByTagName dom "temperature" in
  let xml_icons := Dom.documentElementsByTagName dom "icon-link" in
  (∃ r, parse_document dom = Ok r) ↔
  (∀ item kind i x,
      item ∈ items → kind = "maximum" ∨ kind = "minimum" →
      assigns kind item i x → ∃ z, Int.int x = Ok z)
  ∧ (∀ i, (i < NUM_DAYS)%nat → ¬ icon_without_text xml_icons i)
  ∧ (∃ day_one, start_day dom = Ok day_one)
  ∧ ∀ i, (i < NUM_DAYS)%nat →
         (∃ item x, item ∈ items ∧ assigns "maximum" item i x)
         ∧ (∃ item x, item ∈ items ∧ assigns "minimum" item i x).
Proof.
  intros items xml_icons.
  assert (Hslots : ∀ highs lows,
    temperatures dom = Ok (highs, lows) →
    (existsb is_None highs = false ↔
     ∀ i, (i < NUM_DAYS)%nat → ∃ item x, item ∈ items ∧ assigns "maximum" item i x)
    ∧ (existsb is_None lows = false ↔
       ∀ i, (i < NUM_DAYS)%nat → ∃ item x, item ∈ items ∧ assigns "minimum" item i x)).
  { intros highs lows Ht. destruct (temperatures_length _ _ _ Ht) as [Hlh Hll].
    unfold temperatures in Ht.
    pose proof (temperatures_lookup _ _ _ _ _ Ht eq_refl eq_refl) as Hlook.
    split; apply slots_complete; try done; intros j; apply Hlook. }
  split.
  - intros ([[[highs lows] icons] day_one] & H).
    apply parse_document_Ok in H as (Ht & Hi & Hd & Hh & Hl).
    destruct (Hslots _ _ Ht) as [Hsh Hsl]. split_and!.
    + apply temperatures_Ok_iff. eauto.
    + intros i Hi' Hbad.
      assert (Hr : icon_tokens dom = Raise (NoneAttributeError "split"))
        by (apply icon_tokens_Raise; eauto).
      congruence.
    + eauto.
    + intros i Hi'. split; [by apply Hsh|by apply Hsl].
  - intros (Hconv & Hicons & (day_one & Hd) & Hall).
    apply temperatures_Ok_iff in Hconv as ([highs lows] & Ht).
    destruct (Hslots _ _ Ht) as [Hsh Hsl].
    destruct (icon_tokens dom) as [icons|e] eqn:Hi.
    + exists (highs, lows, icons, day_one). apply parse_document_Ok. split_and!; try done.
      * apply Hsh. intros i Hi'. by apply Hall.
      * apply Hsl. intros i Hi'. by apply Hall.
    + apply icon_tokens_Raise in Hi as (_ & i & Hi' & Hbad). by destruct (Hicons i Hi').
Qed.

(** X6: lines 55 to 90 return exactly when the recursion limit leaves room
    for the traversal of the document, [int] accepts every text that a
    maximum or minimum element hands to it, none of the first [NUM_DAYS]
    icon-link elements begins with an element, the start day is read, and
    every one of the [NUM_DAYS] highs and lows is assigned by some
    element. *)
Theorem parse_fields_returns frames dom :
  let items := Dom.documentElementsByTagName dom "temperature" in
  let xml_icons := Dom.documentElementsByTagName dom "icon-link" in
  (∃ r, parse_fields frames dom = Ok r) ↔
  walkable frames dom
  ∧ (∀ item kind i x,
        item ∈ items → kind = "maximum" ∨ kind = "minimum" →
        assigns kind item i x → ∃ z, Int.int x = Ok z)
  ∧ (∀ i, (i < NUM_DAYS)%nat → ¬ icon_without_text xml_icons i)
  ∧ (∃ day_one, start_day dom = Ok day_one)
  ∧ ∀ i, (i < NUM_DAYS)%nat →
         (∃ item x, item ∈ items ∧ assigns "maximum" item i x)
         ∧ (∃ item x, item ∈ items ∧ assigns "minimum" item i x).
Proof.
  intros items xml_icons. split.
  - intros (r & H). apply parse_fields_Ok in H as [Hw H]. split; [done|].
    apply parse_document_returns. eauto.
  - intros [Hw H]. apply parse_document_returns in H as (r & H).
    exists r. by apply parse_fields_Ok.
Qed.

Lemma parse_fields_returns_witness :
  ∃ item x,
    item ∈ Dom.documentElementsByTagName sample_feed "temperature"
    ∧ assigns "maximum" item 0 x.
Proof.
  destruct (proj1 (parse_fields_returns 100 sample_feed)
              (ex_intro _ ([Some 70; Some 72; Some 68; Some 65],
                           [Some 55; Some 58; Some 50; Some 48],
                           ["icon"; "bkn"; "na"; "token"],
                           Datetime.mk_datetime 2024 3 10) eq_refl))
    as (_ & _ & _ & _ & H).
  exact (proj1 (H 0%nat ltac:(unfold NUM_DAYS; lia))).
Defined.
(** ** More on the icon tokens *)

Lemma split_no_sep (sep : ascii) (s : string) :
  Str.mem_char sep s = false → Str.split sep s = [s].
Proof.
  induction s as [|c s IH]; simpl; [done|].
  intros H. apply orb_false_iff in H as [Hc Hs].
  rewrite Ascii.eqb_sym, Hc, (IH Hs). done.
Qed.

Lemma icon_char_no_sep (c : ascii) :
  icon_token_char c = true →
  Ascii.eqb "/" c = false ∧ Ascii.eqb "." c = false ∧ Str.lower_char c = c.
Proof. by_char c. Qed.

Lemma icon_chars_no_sep (s : string) :
  Str.all_chars icon_token_char s = true →
  Str.mem_char "/" s = false ∧ Str.mem_char "." s = false ∧ Str.lower s = s.
Proof.
  induction s as [|c s IH]; [done|].
  cbn [Str.all_chars Str.mem_char Str.lower]. intros H.
  apply andb_true_iff in H as [Hc Hs].
  destruct (icon_char_no_sep c Hc) as (-> & -> & ->).
  destruct (IH Hs) as (-> & -> & ->). done.
Qed.

Lemma rstrip_fixed (s : string) :
  ends_with_digit s = false → Str.rstrip "0123456789" s = s.
Proof.
  intros H. eapply without_trailing_digits_unique; [apply rstrip_spec|].
  split; [done|]. exists "". by rewrite sapp_nil_r.
Qed.

Lemma is_digit_lower_char (c : ascii) :
  Str.is_digit (Str.lower_char c) = Str.is_digit c.
Proof. by_char c. Qed.

Lemma ends_with_digit_lower (s : string) :
  ends_with_digit (Str.lower s) = ends_with_digit s.
Proof.
  induction s as [|c s IH]; [done|].
  destruct s as [|d s]; [apply is_digit_lower_char|exact IH].
Qed.

(** A token is the fallback or the lower-cased stem, which does not end
    in a digit. *)
Lemma icon_token_no_digit xml_icons i t :
  icon_token xml_icons i = Ok t → ends_with_digit t = false.
Proof.
  unfold icon_token.
  destruct (xml_icons !! i) as [e|]; [|by intros [= <-]].
  destruct (Dom.firstChild e) as [fc|]; [|by intros [= <-]].
  destruct (Dom.nodeValue fc) as [text|]; [|discriminate].
  intros H. apply bind_Ok in H as (seg & _ & H). apply bind_Ok in H as (stem & _ & H).
  injection H as <-.
  destruct (ICON_TOKEN_RE_fullmatch _); [|done].
  rewrite ends_with_digit_lower. apply rstrip_spec.
Qed.

Lemma icon_token_of_token (t : string) :
  ICON_TOKEN_RE_fullmatch t = true → ends_with_digit t = false →
  icon_token [icon_link t] 0 = Ok t.
Proof.
  intros Hm Hd. pose proof Hm as Hm'. unfold ICON_TOKEN_RE_fullmatch in Hm'.
  apply andb_true_iff in Hm' as [_ Hchars].
  destruct (icon_chars_no_sep t Hchars) as (Hslash & Hdot & Hlow).
  unfold icon_token, icon_link. cbn [lookup list_lookup Dom.firstChild Dom.childNodes
    head Dom.nodeValue].
  rewrite (split_no_sep "/" t Hslash). cbn [Str.last mbind result_bind].
  rewrite (split_no_sep "." t Hdot). cbn [Str.first mbind result_bind].
  by rewrite (rstrip_fixed t Hd), Hlow, Hm.
Qed.

(** X7: a token is a fixed point of the derivation: an icon-link whose text
    is a token that the icon loop produced gives that token again. *)
Theorem icon_token_idempotent xml_icons i t :
  icon_token xml_icons i = Ok t → icon_token [icon_link t] 0 = Ok t.
Proof.
  intros H. apply icon_token_of_token.
  - by eapply icon_token_allowed.
  - by eapply icon_token_no_digit.
Qed.

Lemma icon_token_idempotent_witness : icon_token [icon_link "icon"] 0 = Ok "icon".
Proof.
  apply (icon_token_idempotent
           (Dom.documentElementsByTagName sample_feed "icon-link") 0).
  reflexivity.
Defined.

(** *** Letter case *)

Lemma lower_char_sep (c : ascii) :
  Ascii.eqb (Str.lower_char c) "/" = Ascii.eqb c "/"
  ∧ Ascii.eqb (Str.lower_char c) "." = Ascii.eqb c "."
  ∧ Str.mem_char (Str.lower_char c) "0123456789" = Str.mem_char c "0123456789"
  ∧ Str.lower_char (Str.lower_char c) = Str.lower_char c.
Proof. by_char c. Qed.

Lemma split_lower (sep : ascii) (s : string) :
  (∀ c, Ascii.eqb (Str.lower_char c) sep = Ascii.eqb c sep) →
  Str.split sep (Str.lower s) = map Str.lower (Str.split sep s).
Proof.
  intros Hsep. induction s as [|c s IH]; [done|].
  cbn [Str.lower Str.split]. rewrite Hsep, IH.
  destruct (Ascii.eqb c sep); [done|].
  by destruct (Str.split sep s).
Qed.

Lemma last_map (f : string → string) (ws : list string) :
  Str.last (map f ws) = (w ← Str.last ws; Ok (f w)).
Proof.
  induction ws as [|w ws IH]; [done|].
  destruct ws as [|w' ws]; [done|]. exact IH.
Qed.

Lemma first_map (f : string → string) (ws : list string) :
  Str.first (map f ws) = (w ← Str.first ws; Ok (f w)).
Proof. by destruct ws. Qed.

Lemma is_empty_lower (s : string) : Str.is_empty (Str.lower s) = Str.is_empty s.
Proof. by destruct s. Qed.

Lemma rstrip_lower (s : string) :
  Str.rstrip "0123456789" (Str.lower s) = Str.lower (Str.rstrip "0123456789" s).
Proof.
  induction s as [|c s IH]; [done|].
  cbn [Str.lower]. rewrite !rstrip_cons, IH, is_empty_lower.
  rewrite (proj1 (proj2 (proj2 (lower_char_sep c)))).
  by destruct (_ && _).
Qed.

Lemma lower_idem (s : string) : Str.lower (Str.lower s) = Str.lower s.
Proof.
  induction s as [|c s IH]; [done|].
  cbn [Str.lower]. by rewrite IH, (proj2 (proj2 (proj2 (lower_char_sep c)))).
Qed.

(** X8: the token does not depend on the letter case of the icon text:
    two texts with the same lower-case form give the same token. *)
Theorem icon_token_ignores_case (text text' : string) :
  Str.lower text = Str.lower text' →
  icon_token [icon_link text] 0 = icon_token [icon_link text'] 0.
Proof.
  assert (Hlow : ∀ t, icon_token [icon_link (Str.lower t)] 0
                      = icon_token [icon_link t] 0).
  { intros t. unfold icon_token, icon_link.
    cbn [lookup list_lookup Dom.firstChild Dom.childNodes head Dom.nodeValue].
    rewrite split_lower by (intros c; apply lower_char_sep).
    rewrite last_map. destruct (split_last "/" t) as (seg & -> & _).
    cbn [mbind result_bind].
    rewrite split_lower by (intros c; apply lower_char_sep).
    rewrite first_map. destruct (first_split "." seg) as (stem & -> & _).
    cbn [mbind result_bind]. by rewrite rstrip_lower, lower_idem. }
  intros H. by rewrite <- (Hlow text), H, Hlow.
Qed.

Lemma icon_token_ignores_case_witness :
  icon_token [icon_link "http://forecast.weather.gov/images/wtf/BKN.JPG"] 0
  = icon_token [icon_link "HTTP://forecast.weather.gov/images/WTF/bkn.jpg"] 0.
Proof. apply icon_token_ignores_case. reflexivity. Defined.
(** * [int] and [str] *)

Lemma digits_cons (c : ascii) (v : Z) (s : string) st acc n :
  Int.digit_val c = Some v →
  Int.digits (String c s) st acc n
  = Int.digits s Int.AfterDigit (10 * acc + v) (S n).
Proof.
  intros H. cbn [Int.digits].
  destruct (Ascii.eqb_spec c "_") as [->|_]; [vm_compute in H; discriminate|].
  by rewrite H.
Qed.

Lemma digit_val_range (c : ascii) (v : Z) : Int.digit_val c = Some v → 0 ≤ v ≤ 9.
Proof. intros H. digit_case H; lia. Qed.

Lemma push_digit_spec (v : Z) (d : Decimal.uint) :
  0 ≤ v ≤ 9 →
  Decimal.nb_digits (push_digit v d) = S (Decimal.nb_digits d)
  ∧ push_digit v d ≠ Decimal.Nil
  ∧ Z.of_N (Pos.of_uint (push_digit v d))
    = (if v =? 0 then Z.of_N (Pos.of_uint d)
       else Z.pos (Pos.of_uint_acc d (Z.to_pos v)))
  ∧ ∀ p, Pos.of_uint_acc (push_digit v d) p
         = Pos.of_uint_acc d (Z.to_pos (10 * Z.pos p + v)).
Proof.
  intros Hv.
  assert (H : v = 0 ∨ v = 1 ∨ v = 2 ∨ v = 3 ∨ v = 4 ∨ v = 5 ∨ v = 6 ∨ v = 7
              ∨ v = 8 ∨ v = 9) by lia.
  destruct H as [->|[->|[->|[->|[->|[->|[->|[->|[->| ->]]]]]]]]];
    (split_and!; [reflexivity|discriminate|reflexivity|]);
    intros p; cbn [push_digit Pos.of_uint_acc]; f_equal;
    apply Pos2Z.inj; rewrite Z2Pos.id by lia; lia.
Qed.

(** The digits that [int] accepts are a decimal numeral: the value read
    is the value of the numeral, and the count is its number of digits. *)
Lemma digits_uint (s : string) : ∀ st acc n v n',
  Int.digits s st acc n = Some (v, n') → 0 ≤ acc →
  ∃ d, n' = (n + Decimal.nb_digits d)%nat
       ∧ (st = Int.AtStart → d ≠ Decimal.Nil)
       ∧ (acc = 0 → v = Z.of_N (Pos.of_uint d))
       ∧ ∀ p, acc = Z.pos p → v = Z.pos (Pos.of_uint_acc d p).
Proof.
  induction s as [|c s IH]; intros st acc n v n' H Hacc.
  - cbn [Int.digits] in H. destruct st; try discriminate. injection H as <- <-.
    exists Decimal.Nil. split_and!; [cbn; lia|discriminate| |].
    + by intros ->.
    + by intros p ->.
  - cbn [Int.digits] in H. destruct (Ascii.eqb c "_").
    + destruct st; try discriminate.
      destruct (IH _ _ _ _ _ H Hacc) as (d & Hn & _ & H0 & Hp).
      exists d. split_and!; [done|discriminate|done|done].
    + destruct (Int.digit_val c) as [dv|] eqn:Hc; [|discriminate].
      apply digit_val_range in Hc.
      destruct (IH _ _ _ _ _ H ltac:(lia)) as (d & Hn & _ & H0 & Hp).
      destruct (push_digit_spec dv d Hc) as (Hnb & Hnil & Hzero & Hpush).
      exists (push_digit dv d). split_and!.
      * rewrite Hnb. lia.
      * done.
      * intros ->. rewrite Hzero. destruct (Z.eqb_spec dv 0) as [->|Hdv].
        -- by apply H0.
        -- apply Hp. lia.
      * intros p ->. rewrite Hpush. apply Hp. lia.
Qed.

Lemma digits_of_uint_acc (d : Decimal.uint) : ∀ acc p n,
  acc = Z.pos p →
  Int.digits (NilEmpty.string_of_uint d) Int.AfterDigit acc n
  = Some (Z.pos (Pos.of_uint_acc d p), (n + Decimal.nb_digits d)%nat).
Proof.
  induction d as [|d IH|d IH|d IH|d IH|d IH|d IH|d IH|d IH|d IH|d IH];
    intros acc p n ->;
    cbn [NilEmpty.string_of_uint Decimal.nb_digits Pos.of_uint_acc].
  - cbn [Int.digits]. by rewrite Nat.add_0_r.
  - rewrite (digits_cons _ 0) by reflexivity.
    rewrite (IH _ (10 * p)%positive) by lia. f_equal; f_equal; lia.
  - rewrite (digits_cons _ 1) by reflexivity.
    rewrite (IH _ (1 + 10 * p)%positive) by lia. f_equal; f_equal; lia.
  - rewrite (digits_cons _ 2) by reflexivity.
    rewrite (IH _ (2 + 10 * p)%positive) by lia. f_equal; f_equal; lia.
  - rewrite (digits_cons _ 3) by reflexivity.
    rewrite (IH _ (3 + 10 * p)%positive) by lia. f_equal; f_equal; lia.
  - rewrite (digits_cons _ 4) by reflexivity.
    rewrite (IH _ (4 + 10 * p)%positive) by lia. f_equal; f_equal; lia.
  - rewrite (digits_cons _ 5) by reflexivity.
    rewrite (IH _ (5 + 10 * p)%positive) by lia. f_equal; f_equal; lia.
  - rewrite (digits_cons _ 6) by reflexivity.
    rewrite (IH _ (6 + 10 * p)%positive) by lia. f_equal; f_equal; lia.
  - rewrite (digits_cons _ 7) by reflexivity.
    rewrite (IH _ (7 + 10 * p)%positive) by lia. f_equal; f_equal; lia.
  - rewrite (digits_cons _ 8) by reflexivity.
    rewrite (IH _ (8 + 10 * p)%positive) by lia. f_equal; f_equal; lia.
  - rewrite (digits_cons _ 9) by reflexivity.
    rewrite (IH _ (9 + 10 * p)%positive) by lia. f_equal; f_equal; lia.
Qed.

Lemma digits_of_uint (d : Decimal.uint) : ∀ st n,
  d ≠ Decimal.Nil ∨ st = Int.AfterDigit →
  Int.digits (NilEmpty.string_of_uint d) st 0 n
  = Some (Z.of_N (Pos.of_uint d), (n + Decimal.nb_digits d)%nat).
Proof.
  induction d as [|d IH|d IH|d IH|d IH|d IH|d IH|d IH|d IH|d IH|d IH];
    intros st n Hst;
    cbn [NilEmpty.string_of_uint Decimal.nb_digits Pos.of_uint].
  - destruct Hst as [?| ->]; [done|]. cbn [Int.digits]. by rewrite Nat.add_0_r.
  - rewrite (digits_cons _ 0) by reflexivity. change (10 * 0 + 0) with 0.
    rewrite IH by (by right). f_equal; f_equal; lia.
  - rewrite (digits_cons _ 1) by reflexivity.
    rewrite (digits_of_uint_acc d _ 1%positive) by lia. f_equal; f_equal; lia.
  - rewrite (digits_cons _ 2) by reflexivity.
    rewrite (digits_of_uint_acc d _ 2%positive) by lia. f_equal; f_equal; lia.
  - rewrite (digits_cons _ 3) by reflexivity.
    rewrite (digits_of_uint_acc d _ 3%positive) by lia. f_equal; f_equal; lia.
  - rewrite (digits_cons _ 4) by reflexivity.
    rewrite (digits_of_uint_acc d _ 4%positive) by lia. f_equal; f_equal; lia.
  - rewrite (digits_cons _ 5) by reflexivity.
    rewrite (digits_of_uint_acc d _ 5%positive) by lia. f_equal; f_equal; lia.
  - rewrite (digits_cons _ 6) by reflexivity.
    rewrite (digits_of_uint_acc d _ 6%positive) by lia. f_equal; f_equal; lia.
  - rewrite (digits_cons _ 7) by reflexivity.
    rewrite (digits_of_uint_acc d _ 7%positive) by lia. f_equal; f_equal; lia.
  - rewrite (digits_cons _ 8) by reflexivity.
    rewrite (digits_of_uint_acc d _ 8%positive) by lia. f_equal; f_equal; lia.
  - rewrite (digits_cons _ 9) by reflexivity.
    rewrite (digits_of_uint_acc d _ 9%positive) by lia. f_equal; f_equal; lia.
Qed.

(** ** The text of a numeral *)

Lemma string_of_uint_length (d : Decimal.uint) :
  String.length (NilEmpty.string_of_uint d) = Decimal.nb_digits d.
Proof. induction d; cbn [NilEmpty.string_of_uint Decimal.nb_digits String.length]; congruence. Qed.

Lemma nilzero_nonnil (d : Decimal.uint) :
  d ≠ Decimal.Nil → NilZero.string_of_uint d = NilEmpty.string_of_uint d.
Proof. by destruct d. Qed.

Lemma nilzero_length (d : Decimal.uint) :
  d ≠ Decimal.Nil → String.length (NilZero.string_of_uint d) = Decimal.nb_digits d.
Proof. intros H. rewrite nilzero_nonnil by done. apply string_of_uint_length. Qed.

Lemma string_of_uint_all_digits (d : Decimal.uint) :
  Str.all_chars Str.is_digit (NilEmpty.string_of_uint d) = true.
Proof.
  induction d; cbn [NilEmpty.string_of_uint Str.all_chars]; [done|..];
    rewrite IHd; reflexivity.
Qed.

Lemma to_int_of_N (x : N) : Z.to_int (Z.of_N x) = Decimal.Pos (N.to_uint x).
Proof. by destruct x. Qed.

Lemma rstrip_by_fixed (p : ascii → bool) (s : string) :
  Str.all_chars (λ c, negb (p c)) s = true → Str.rstrip_by p s = s.
Proof.
  induction s as [|c s IH]; [done|]. cbn [Str.all_chars Str.rstrip_by].
  intros H. apply andb_true_iff in H as [Hc Hs]. rewrite (IH Hs).
  apply negb_true_iff in Hc. rewrite Hc, andb_false_r. done.
Qed.

Lemma digit_not_space (c : ascii) :
  Str.is_digit c = true → negb (Int.is_space c) = true.
Proof. by_char c. Qed.

Lemma digits_not_space (s : string) :
  Str.all_chars Str.is_digit s = true →
  Str.all_chars (λ c, negb (Int.is_space c)) s = true.
Proof.
  induction s as [|c s IH]; [done|]. cbn [Str.all_chars]. intros H.
  apply andb_true_iff in H as [Hc Hs]. by rewrite (digit_not_space c Hc), (IH Hs).
Qed.

(** [int] on a numeral without sign and behind a minus sign. *)
Lemma of_str_numeral (c : ascii) (s : string) (v : Z) (n : nat) :
  Str.is_digit c = true → Str.all_chars Str.is_digit s = true →
  Int.digits (String c s) Int.AtStart 0 0 = Some (v, n) →
  (n ≤ Int.max_str_digits)%nat →
  Int.of_str (String c s) = Some v ∧ Int.of_str (String "-" (String c s)) = Some (- v).
Proof.
  intros Hc Hs Hd Hn.
  assert (Hsp : Str.all_chars (λ c, negb (Int.is_space c)) (String c s) = true).
  { apply digits_not_space. cbn [Str.all_chars]. by rewrite Hc, Hs. }
  pose proof (digit_not_space c Hc) as Hc'. apply negb_true_iff in Hc'.
  apply Nat.leb_le in Hn. unfold Int.of_str. split.
  - cbn [Str.lstrip_by]. rewrite Hc', (rstrip_by_fixed _ _ Hsp).
    assert (Hsig : Int.signed (String c s) = (false, String c s)).
    { clear -Hc. destruct c as [[] [] [] [] [] [] [] []]; try reflexivity;
        vm_compute in Hc; discriminate Hc. }
    by rewrite Hsig, Hd, Hn.
  - cbn [Str.lstrip_by]. change (Int.is_space "-") with false. cbn iota.
    rewrite (rstrip_by_fixed Int.is_space (String "-" (String c s))).
    + cbn [Int.signed]. by rewrite Hd, Hn.
    + cbn [Str.all_chars] in *. rewrite Hsp. reflexivity.
Qed.

Lemma of_str_of_uint (d : Decimal.uint) :
  d ≠ Decimal.Nil → (Decimal.nb_digits d ≤ Int.max_str_digits)%nat →
  Int.of_str (NilEmpty.string_of_uint d) = Some (Z.of_N (Pos.of_uint d))
  ∧ Int.of_str (String "-" (NilEmpty.string_of_uint d))
    = Some (- Z.of_N (Pos.of_uint d)).
Proof.
  intros Hd Hn.
  pose proof (digits_of_uint d Int.AtStart 0 (or_introl Hd)) as Hdig.
  pose proof (string_of_uint_all_digits d) as Hall.
  destruct (NilEmpty.string_of_uint d) as [|c s] eqn:E.
  - destruct d; done.
  - cbn [Str.all_chars] in Hall. apply andb_true_iff in Hall as [Hc Hs].
    by apply (of_str_numeral c s _ _ Hc Hs Hdig).
Qed.

(** X14: [int] reads back what [str] writes: when [str(z)] returns the
    text [s], [int(s)] is [z]. *)
Theorem int_of_str (z : Z) (s : string) :
  Int.str z = Ok s → Int.int (Some s) = Ok z.
Proof.
  unfold Int.str, Int.int.
  destruct (Nat.leb_spec (String.length (Str.of_int (Z.abs z))) Int.max_str_digits)
    as [Hlen|]; [|discriminate].
  intros [= <-]. unfold Str.of_int in *. destruct z as [|p|p].
  - reflexivity.
  - change (String.length (NilZero.string_of_uint (Pos.to_uint p))
            ≤ Int.max_str_digits)%nat in Hlen.
    change (Z.to_int (Z.pos p)) with (Decimal.Pos (Pos.to_uint p)).
    cbn [NilZero.string_of_int].
    pose proof (DecimalPos.Unsigned.to_uint_nonnil p) as Hnil.
    rewrite nilzero_length in Hlen by done.
    destruct (of_str_of_uint (Pos.to_uint p) Hnil Hlen) as [H _].
    rewrite DecimalPos.Unsigned.of_to in H.
    rewrite nilzero_nonnil by done. by rewrite H.
  - change (String.length (NilZero.string_of_uint (Pos.to_uint p))
            ≤ Int.max_str_digits)%nat in Hlen.
    change (Z.to_int (Z.neg p)) with (Decimal.Neg (Pos.to_uint p)).
    cbn [NilZero.string_of_int].
    pose proof (DecimalPos.Unsigned.to_uint_nonnil p) as Hnil.
    rewrite nilzero_length in Hlen by done.
    destruct (of_str_of_uint (Pos.to_uint p) Hnil Hlen) as [_ H].
    rewrite DecimalPos.Unsigned.of_to in H.
    rewrite nilzero_nonnil by done. by rewrite H.
Qed.

Lemma int_of_str_witness : Int.int (Some "-68") = Ok (-68).
Proof. apply (int_of_str (-68) "-68"). reflexivity. Defined.

(** [str] accepts every integer that [int] has read from a text: the
    numeral that [str] writes has no more digits than the text. *)
Lemma str_of_int (x : option string) (z : Z) :
  Int.int x = Ok z → ∃ s, Int.str z = Ok s.
Proof.
  unfold Int.int. destruct x as [text|]; [|discriminate].
  destruct (Int.of_str text) as [z'|] eqn:E; [|discriminate]. intros [= ->].
  unfold Int.of_str in E. destruct (Int.signed _) as [neg body].
  destruct (Int.digits body Int.AtStart 0 0) as [[v n]|] eqn:Hd; [|discriminate].
  destruct (Nat.leb_spec n Int.max_str_digits) as [Hn|]; [|discriminate].
  injection E as <-.
  destruct (digits_uint _ _ _ _ _ _ Hd ltac:(lia)) as (d & -> & Hnil & Hv & _).
  specialize (Hnil eq_refl). specialize (Hv eq_refl).
  assert (Habs : Z.abs (if neg then - v else v) = v) by (destruct neg; lia).
  unfold Int.str. rewrite Habs.
  assert (Hlen : (String.length (Str.of_int v) ≤ Int.max_str_digits)%nat).
  { unfold Str.of_int. rewrite Hv, to_int_of_N, DecimalPos.Unsigned.to_of.
    cbn [NilZero.string_of_int]. rewrite nilzero_length by apply DecimalFacts.unorm_nonnil.
    pose proof (DecimalFacts.nb_digits_unorm d Hnil). simpl in Hn. lia. }
  apply Nat.leb_le in Hlen. rewrite Hlen. eauto.
Qed.
(** * What is left of the placeholders *)

(** ** Occurrences *)

Lemma sapp_eq_app (a b c d : string) :
  a +:+ b = c +:+ d →
  (∃ k, c = a +:+ k ∧ b = k +:+ d) ∨ (∃ k, a = c +:+ k ∧ d = k +:+ b).
Proof.
  revert c. induction a as [|x a IH]; intros c H.
  - left. exists c. by rewrite !sapp_nil_l in *.
  - destruct c as [|y c].
    + right. exists (String x a). by rewrite !sapp_nil_l in *.
    + rewrite !sapp_cons in H. injection H as -> H.
      destruct (IH c H) as [(k & -> & ->)|(k & -> & ->)]; [left|right];
        exists k; by rewrite sapp_cons.
Qed.

Lemma occurs_app_l (q x y : string) : occurs q x → occurs q (x +:+ y).
Proof. intros (a & b & ->). exists a, (b +:+ y). by rewrite !sapp_assoc. Qed.

Lemma occurs_app_r (q x y : string) : occurs q y → occurs q (x +:+ y).
Proof. intros (a & b & ->). exists (x +:+ a), b. by rewrite !sapp_assoc. Qed.

Lemma free_no_occurs (old s r : string) : old ≠ "" → free old s r → ¬ occurs old s.
Proof.
  intros Hne Hfree (a & b & ->).
  specialize (Hfree a (old +:+ b) eq_refl).
  rewrite !sapp_assoc, startswith_refl_app in Hfree.
  assert (old +:+ b ≠ "") by (intros [? _]%sapp_eq_nil; done).
  by discriminate Hfree.
Qed.

(** A match of [q] in a text around a piece [w] that no match of [q]
    touches lies before the piece or behind it. *)
Lemma occurs_around (q w x z : string) :
  inert q w = true → occurs q (x +:+ w +:+ z) → occurs q x ∨ occurs q z.
Proof.
  intros Hin (a & b & H). apply andb_true_iff in Hin as [Hdet Hcl].
  pose proof (closed_free q w z Hcl) as Hfree.
  assert (Hw : w ≠ "").
  { apply andb_true_iff in Hcl as [Hw _]. by destruct w. }
  symmetry in H. apply sapp_eq_app in H as [(k & -> & H)|(k & -> & H)].
  - destruct k as [|c k].
    + rewrite sapp_nil_l in H. exfalso.
      specialize (Hfree "" w ltac:(by rewrite sapp_nil_l) Hw).
      rewrite <- H, startswith_refl_app in Hfree. discriminate.
    + left. assert (Hs : Str.startswith q (String c k +:+ w +:+ z) = true)
        by (apply startswith_app; by exists b).
      apply detached_before in Hs; [|done..].
      apply startswith_app in Hs as (r & ->). by exists a, r.
  - apply sapp_eq_app in H as [(k' & -> & ->)|(k' & -> & H)].
    + right. by exists k', b.
    + destruct k' as [|c k'].
      * right. exists "", b. by rewrite sapp_nil_l in *.
      * exfalso. specialize (Hfree k (String c k') eq_refl ltac:(done)).
        assert (Hs : Str.startswith q (String c k' +:+ z) = true)
          by (apply startswith_app; by exists b).
        congruence.
Qed.

(** ** One replacement *)

(** After [replace(old, new)] a pattern [q] that the text [new] cannot
    complete is absent when it was absent before, and when it is [old]
    itself. *)
Lemma replace_absent (q old new : string) :
  old ≠ "" → inert q new = true →
  ∀ s, q = old ∨ ¬ occurs q s → ¬ occurs q (Str.replace old new s).
Proof.
  intros Hold Hin s. remember (String.length s) as n eqn:Hn.
  revert s Hn. induction n as [n IH] using lt_wf_ind. intros s -> Hq.
  destruct (first_match old old s Hold Hold) as [[Hfree _]|(x & t & y & -> & Ht & Hfree & _)].
  - rewrite replace_no_match by done. destruct Hq as [->|Hq]; [|done].
    by eapply free_no_occurs.
  - assert (t = old) as -> by (by destruct Ht).
    rewrite replace_free, replace_hit by done. intros Hocc.
    apply (occurs_around _ _ _ _ Hin) in Hocc as [Hocc|Hocc].
    + destruct Hq as [->|Hq].
      * by eapply free_no_occurs.
      * apply Hq. by apply occurs_app_l.
    + revert Hocc. eapply IH; [|reflexivity|].
      * rewrite !slength_app. pose proof (nonempty_length old Hold). lia.
      * destruct Hq as [->|Hq]; [by left|right].
        intros Hy. apply Hq. by do 2 apply occurs_app_r.
Qed.

(** ** All replacements *)

Lemma apply_all_absent (q : string) (steps : list (string * string)) :
  (∀ st, st ∈ steps → st.1 ≠ "" ∧ inert q st.2 = true) →
  ∀ s, q ∈ steps.*1 ∨ ¬ occurs q s → ¬ occurs q (apply_all steps s).
Proof.
  induction steps as [|st steps IH]; intros Hsteps s Hq.
  - destruct Hq as [Hq|Hq]; [by apply elem_of_nil in Hq|done].
  - rewrite apply_all_cons. destruct (Hsteps st ltac:(by left)) as [Hne Hin].
    apply IH; [intros st' Hst'; apply Hsteps; by right|].
    destruct Hq as [Hq|Hq].
    + rewrite fmap_cons in Hq. apply elem_of_cons in Hq as [->|Hq]; [|by left].
      right. apply replace_absent; [done..|by left].
    + right. apply replace_absent; [done..|by right].
Qed.

(** ** The replacements of a rendering *)

Lemma value_steps_inert highs lows icons vs :
  value_steps highs lows icons = Ok vs →
  (∀ i t, (i < NUM_DAYS)%nat → icons !! i = Some t →
          ICON_TOKEN_RE_fullmatch t = true ∧ t ≠ "_") →
  ∀ st q, st ∈ vs → q ∈ placeholders → inert q st.2 = true.
Proof.
  intros H Hicons st q Hst Hq.
  destruct (value_steps_clear _ _ _ _ H) as [_ Hclear].
  { intros i t Hi Ht. by apply (Hicons i t). }
  apply Hclear; [done| |done]. intros Heq.
  unfold value_steps in H.
  repeat (let x := fresh "x" in let Hx := fresh "Hx" in
          apply bind_Ok in H as (x & Hx & H); try apply item_Ok in Hx).
  injection H as <-.
  assert (Hplain : ∀ v, str v = Ok "_" → False).
  { intros v Hw. apply (str_inert "ICON_ONE") in Hw; [|by left].
    vm_compute in Hw. discriminate Hw. }
  assert (Hicon : ∀ i, (i < NUM_DAYS)%nat → icons !! i = Some "_" → False).
  { intros i Hi Ht. by destruct (Hicons i "_" Hi Ht). }
  repeat (apply elem_of_cons in Hst as [->|Hst];
          [simpl in Heq; subst;
           first [ by eapply Hplain
                 | eapply Hicon; [|eassumption]; unfold NUM_DAYS; lia ]|]).
  by apply elem_of_nil in Hst.
Qed.

Lemma substitutions_clear highs lows icons day_one steps :
  substitutions highs lows icons day_one = Ok steps →
  (∀ i t, (i < NUM_DAYS)%nat → icons !! i = Some t →
          ICON_TOKEN_RE_fullmatch t = true ∧ t ≠ "_") →
  clear_steps steps.
Proof.
  intros H Hicons. split; [by eapply substitutions_patterns|].
  unfold substitutions in H. apply bind_Ok in H as (vs & Hvs & H).
  apply bind_Ok in H as (ds & Hds & H). injection H as <-.
  intros st q Hst Hq. apply elem_of_app in Hst as [Hst|Hst].
  - by eapply value_steps_inert.
  - by eapply day_steps_clear.
Qed.

Lemma clear_steps_absent (steps : list (string * string)) (s q : string) :
  clear_steps steps → q ∈ placeholders → ¬ occurs q (apply_all steps s).
Proof.
  intros [Hpat Hin] Hq. apply apply_all_absent; [|left; by rewrite Hpat].
  intros st Hst. split; [|by apply Hin].
  by destruct (placeholders_apart st.1 st.1) as (? & _);
    [eapply steps_pattern..|].
Qed.

(** X10: when the icon tokens match the allow-list and none is ["_"], the
    text that [render_svg] returns contains none of the fourteen
    placeholders, whatever the template. *)
Theorem render_svg_no_placeholder highs lows icons day_one template out :
  (∀ i t, (i < NUM_DAYS)%nat → icons !! i = Some t →
          ICON_TOKEN_RE_fullmatch t = true ∧ t ≠ "_") →
  render_svg highs lows icons day_one template = Ok out →
  ∀ q, q ∈ placeholders → ¬ occurs q out.
Proof.
  intros Hicons H q Hq. rewrite render_svg_steps in H.
  apply bind_Ok in H as (steps & Hsteps & H). injection H as <-.
  apply clear_steps_absent; [|done]. by eapply substitutions_clear.
Qed.

Lemma sample_icons_clear (i : nat) (t : string) :
  (i < NUM_DAYS)%nat → sample_icons !! i = Some t →
  ICON_TOKEN_RE_fullmatch t = true ∧ t ≠ "_".
Proof.
  intros _ Ht. destruct i as [|[|[|[|i]]]]; simpl in Ht; [..|discriminate Ht];
    injection Ht as <-; (split; [reflexivity|discriminate]).
Defined.

Lemma render_svg_no_placeholder_witness : ¬ occurs "HIGH_ONE" "x7070y".
Proof.
  apply (render_svg_no_placeholder sample_highs sample_lows sample_icons sample_day
           "xHIGH_ONEHIGH_ONEy" "x7070y" sample_icons_clear eq_refl).
  unfold placeholders. do 4 right. left.
Defined.

(** X11: under the same condition rendering is idempotent: with the
    returned text as the template, [render_svg] returns that text. *)
Theorem render_svg_idempotent highs lows icons day_one template out :
  (∀ i t, (i < NUM_DAYS)%nat → icons !! i = Some t →
          ICON_TOKEN_RE_fullmatch t = true ∧ t ≠ "_") →
  render_svg highs lows icons day_one template = Ok out →
  render_svg highs lows icons day_one out = Ok out.
Proof.
  intros Hicons H. rewrite render_svg_steps in *.
  apply bind_Ok in H as (steps & Hsteps & H). injection H as <-.
  rewrite Hsteps. cbn [mbind result_bind]. f_equal.
  pose proof (substitutions_clear _ _ _ _ _ Hsteps Hicons) as Hclear.
  apply steps_no_match; [apply Hclear|].
  intros q Hq. by apply clear_steps_absent.
Qed.

Lemma render_svg_idempotent_witness :
  render_svg sample_highs sample_lows sample_icons sample_day "<a>Wednesday</a>48"
  = Ok "<a>Wednesday</a>48".
Proof.
  apply (render_svg_idempotent sample_highs sample_lows sample_icons sample_day
           "<a>DAY_THREE</a>LOW_FOUR" "<a>Wednesday</a>48" sample_icons_clear eq_refl).
Defined.

(** With the token ["_"] a placeholder can be left: the replacement of
    [ICON_TWO] completes an [ICON_ONE] behind the pass that replaces it. *)
Example underscore_completes_placeholder :
  render_svg sample_highs sample_lows ["few"; "_"; "na"; "rain"] sample_day
    "ICONICON_TWOONE"
  = Ok "ICON_ONE".
Proof. vm_compute. reflexivity. Qed.
(** * When [render_svg] returns *)

Lemma value_steps_returns highs lows icons :
  (∃ vs, value_steps highs lows icons = Ok vs) ↔
  ((NUM_DAYS ≤ length icons)%nat ∧ (NUM_DAYS ≤ length highs)%nat
   ∧ (NUM_DAYS ≤ length lows)%nat)
  ∧ ∀ i v, (i < NUM_DAYS)%nat → highs !! i = Some v ∨ lows !! i = Some v →
           ∃ s, str v = Ok s.
Proof.
  unfold NUM_DAYS. split.
  - intros (vs & H). unfold value_steps in H.
    repeat (let x := fresh "x" in let Hx := fresh "Hx" in
            apply bind_Ok in H as (x & Hx & H); try apply item_Ok in Hx).
    split.
    + split_and!;
        match goal with
        | H : ?l !! 3%nat = Some _ |- (4 ≤ length ?l)%nat =>
            apply lookup_lt_Some in H; lia
        end.
    + intros i v Hi [Hv|Hv]; destruct i as [|[|[|[|i]]]]; try lia;
        simplify_eq; eauto.
  - intros ((Hi & Hh & Hl) & Hstr). unfold value_steps.
    destruct (lookup_lt_is_Some_2 icons 0) as [i0 Hi0]; [lia|].
    destruct (lookup_lt_is_Some_2 icons 1) as [i1 Hi1]; [lia|].
    destruct (lookup_lt_is_Some_2 icons 2) as [i2 Hi2]; [lia|].
    destruct (lookup_lt_is_Some_2 icons 3) as [i3 Hi3]; [lia|].
    destruct (lookup_lt_is_Some_2 highs 0) as [h0 Hh0]; [lia|].
    destruct (lookup_lt_is_Some_2 highs 1) as [h1 Hh1]; [lia|].
    destruct (lookup_lt_is_Some_2 highs 2) as [h2 Hh2]; [lia|].
    destruct (lookup_lt_is_Some_2 highs 3) as [h3 Hh3]; [lia|].
    destruct (lookup_lt_is_Some_2 lows 0) as [l0 Hl0]; [lia|].
    destruct (lookup_lt_is_Some_2 lows 1) as [l1 Hl1]; [lia|].
    destruct (lookup_lt_is_Some_2 lows 2) as [l2 Hl2]; [lia|].
    destruct (lookup_lt_is_Some_2 lows 3) as [l3 Hl3]; [lia|].
    destruct (Hstr 0%nat h0 ltac:(lia) (or_introl Hh0)) as [sh0 Hsh0].
    destruct (Hstr 1%nat h1 ltac:(lia) (or_introl Hh1)) as [sh1 Hsh1].
    destruct (Hstr 2%nat h2 ltac:(lia) (or_introl Hh2)) as [sh2 Hsh2].
    destruct (Hstr 3%nat h3 ltac:(lia) (or_introl Hh3)) as [sh3 Hsh3].
    destruct (Hstr 0%nat l0 ltac:(lia) (or_intror Hl0)) as [sl0 Hsl0].
    destruct (Hstr 1%nat l1 ltac:(lia) (or_intror Hl1)) as [sl1 Hsl1].
    destruct (Hstr 2%nat l2 ltac:(lia) (or_intror Hl2)) as [sl2 Hsl2].
    destruct (Hstr 3%nat l3 ltac:(lia) (or_intror Hl3)) as [sl3 Hsl3].
    unfold item.
    rewrite Hi0, Hi1, Hi2, Hi3, Hh0, Hh1, Hh2, Hh3, Hl0, Hl1, Hl2, Hl3.
    cbn [mbind result_bind].
    rewrite Hsh0; cbn [mbind result_bind]. rewrite Hsh1; cbn [mbind result_bind].
    rewrite Hsh2; cbn [mbind result_bind]. rewrite Hsh3; cbn [mbind result_bind].
    rewrite Hsl0; cbn [mbind result_bind]. rewrite Hsl1; cbn [mbind result_bind].
    rewrite Hsl2; cbn [mbind result_bind]. rewrite Hsl3; cbn [mbind result_bind].
    eauto.
Qed.

Lemma day_name_returns (day_one : Datetime.datetime) (k : Z) :
  Datetime.valid (Datetime.year day_one) (Datetime.month day_one)
    (Datetime.day day_one) = true →
  0 ≤ k →
  (∃ w, day_name day_one k = Ok w) ↔
  Datetime.toordinal day_one + k ≤ Datetime.MAXORDINAL.
Proof.
  intros Hv Hk. split.
  - intros (w & H). apply day_name_Ok in H as (t & H & _).
    unfold Datetime.add_days in H.
    destruct (_ && _) eqn:E; [|discriminate].
    apply andb_true_iff in E as [_ E]. by apply Z.leb_le in E.
  - intros Hmax. destruct (add_days_Ok day_one k Hv Hk Hmax) as (t & Ht & _).
    unfold day_name. rewrite Ht. cbn [mbind result_bind].
    pose proof (weekday_range t) as R.
    destruct (lookup_lt_is_Some_2 days_of_week (Z.to_nat (Datetime.weekday t)))
      as [w Hw]; [simpl; lia|].
    exists w. by apply item_Ok.
Qed.

Lemma day_name_Raise (day_one : Datetime.datetime) (k : Z) (e : exn) :
  day_name day_one k = Raise e → e = OverflowError.
Proof.
  unfold day_name. intros H. apply bind_Raise in H as [H|(t & _ & H)].
  - unfold Datetime.add_days in H. destruct (_ && _); [discriminate|].
    by injection H as <-.
  - pose proof (weekday_range t) as R.
    destruct (lookup_lt_is_Some_2 days_of_week (Z.to_nat (Datetime.weekday t)))
      as [w Hw]; [simpl; lia|].
    unfold item in H. rewrite Hw in H. discriminate.
Qed.

Lemma substitutions_returns highs lows icons day_one :
  Datetime.valid (Datetime.year day_one) (Datetime.month day_one)
    (Datetime.day day_one) = true →
  (∃ steps, substitutions highs lows icons day_one = Ok steps) ↔
  (∃ vs, value_steps highs lows icons = Ok vs)
  ∧ Datetime.toordinal day_one + 3 ≤ Datetime.MAXORDINAL.
Proof.
  intros Hv. unfold substitutions, day_steps. split.
  - intros (steps & H). apply bind_Ok in H as (vs & Hvs & H).
    apply bind_Ok in H as (ds & Hds & _). apply bind_Ok in Hds as (d3 & _ & Hds).
    apply bind_Ok in Hds as (d4 & Hd4 & _). split; [eauto|].
    apply (day_name_returns day_one 3 Hv); [lia|eauto].
  - intros [(vs & ->) Hmax]. cbn [mbind result_bind].
    destruct (proj2 (day_name_returns day_one 2 Hv ltac:(lia)) ltac:(lia)) as (d3 & ->).
    destruct (proj2 (day_name_returns day_one 3 Hv ltac:(lia)) ltac:(lia)) as (d4 & ->).
    cbn [mbind result_bind]. eauto.
Qed.


(** * From the values to the text written *)

(** ** [render_svg] on temperatures that [int] has read *)



(** ** The texts that are written into the template *)

Lemma all_chars_impl (p q : ascii → bool) (s : string) :
  (∀ c, p c = true → q c = true) →
  Str.all_chars p s = true → Str.all_chars q s = true.
Proof.
  intros Hpq. induction s as [|c s IH]; [done|]. cbn [Str.all_chars].
  intros H. apply andb_true_iff in H as [Hc Hs]. by rewrite (Hpq c Hc), (IH Hs).
Qed.

Lemma digit_plain (c : ascii) : Str.is_digit c = true → plain_char c = true.
Proof. by_char c. Qed.

Lemma icon_char_plain (c : ascii) : icon_token_char c = true → plain_char c = true.
Proof. by_char c. Qed.

Lemma of_int_plain (z : Z) : Str.all_chars plain_char (Str.of_int z) = true.
Proof.
  assert (H : ∀ d, Str.all_chars plain_char (NilZero.string_of_uint d) = true).
  { intros d.
    assert (Hd : d = Decimal.Nil ∨ d ≠ Decimal.Nil)
      by (destruct d; [by left|by right..]).
    destruct Hd as [->|Hd]; [done|].
    rewrite nilzero_nonnil by done.
    apply (all_chars_impl Str.is_digit); [apply digit_plain|].
    apply string_of_uint_all_digits. }
  unfold Str.of_int. destruct (Z.to_int z) as [d|d]; cbn [NilZero.string_of_int].
  - apply H.
  - cbn [Str.all_chars]. by rewrite H.
Qed.

Lemma str_plain (v : option Z) (w : string) :
  str v = Ok w → w ≠ "" ∧ Str.all_chars plain_char w = true.
Proof.
  destruct v as [z|]; cbn [str]; [|by intros [= <-]].
  unfold Int.str. destruct (_ <=? _)%nat; [|discriminate]. intros [= <-].
  split; [apply of_int_foreign|apply of_int_plain].
Qed.

Lemma day_name_plain (day_one : Datetime.datetime) (k : Z) (w : string) :
  day_name day_one k = Ok w → w ≠ "" ∧ Str.all_chars plain_char w = true.
Proof.
  intros H. apply day_name_Ok in H as (t & _ & H).
  apply list_elem_of_lookup_2 in H. unfold days_of_week in H.
  repeat (apply elem_of_cons in H as [->|H]; [by split|]).
  by apply elem_of_nil in H.
Qed.

(** X12: when the icon tokens match the allow-list, every text that
    [render_svg] puts into the template is non-empty and made of letters,
    digits, underscores and hyphens: nothing that could be markup. *)
Theorem replacement_texts_plain highs lows icons day_one steps :
  (∀ i t, (i < NUM_DAYS)%nat → icons !! i = Some t →
          ICON_TOKEN_RE_fullmatch t = true) →
  substitutions highs lows icons day_one = Ok steps →
  ∀ old new, (old, new) ∈ steps →
             new ≠ "" ∧ Str.all_chars plain_char new = true.
Proof.
  intros Hicons Hs old new Hin.
  assert (Hicon : ∀ i t, (i < NUM_DAYS)%nat → icons !! i = Some t →
                         t ≠ "" ∧ Str.all_chars plain_char t = true).
  { intros i t Hi Ht. pose proof (Hicons i t Hi Ht) as Hm.
    unfold ICON_TOKEN_RE_fullmatch in Hm.
    apply andb_true_iff in Hm as [Hne Hall]. split; [by destruct t|].
    by apply (all_chars_impl icon_token_char); [apply icon_char_plain|]. }
  unfold substitutions in Hs. apply bind_Ok in Hs as (vs & Hvs & Hs).
  apply bind_Ok in Hs as (ds & Hds & Hs). injection Hs as <-.
  apply elem_of_app in Hin as [Hin|Hin].
  - unfold value_steps in Hvs.
    repeat (let x := fresh "x" in let Hx := fresh "Hx" in
            apply bind_Ok in Hvs as (x & Hx & Hvs); try apply item_Ok in Hx).
    injection Hvs as <-.
    repeat (apply elem_of_cons in Hin as [[= -> ->]|Hin];
            [first [ by eapply str_plain
                   | eapply Hicon; [|eassumption]; unfold NUM_DAYS; lia ]|]).
    by apply elem_of_nil in Hin.
  - unfold day_steps in Hds. apply bind_Ok in Hds as (d3 & Hd3 & Hds).
    apply bind_Ok in Hds as (d4 & Hd4 & Hds). injection Hds as <-.
    repeat (apply elem_of_cons in Hin as [[= -> ->]|Hin];
            [by eapply day_name_plain|]).
    by apply elem_of_nil in Hin.
Qed.

Lemma replacement_texts_plain_witness :
  "70" ≠ "" ∧ Str.all_chars plain_char "70" = true.
Proof.
  apply (replacement_texts_plain sample_highs sample_lows sample_icons sample_day
           sample_steps sample_icons_allowed eq_refl "HIGH_ONE" "70").
  unfold sample_steps. do 4 right. left.
Defined.

(** ** The two weekdays *)

Lemma days_of_week_NoDup : NoDup days_of_week.
Proof. apply (bool_decide_unpack _). by vm_compute. Qed.

Lemma add_days_weekday (day_one t : Datetime.datetime) (k : Z) :
  Datetime.add_days day_one k = Ok t →
  Datetime.weekday t = (Datetime.toordinal day_one + k + 6) mod 7.
Proof.
  unfold Datetime.add_days.
  destruct (Z.ltb_spec 0 (Datetime.toordinal day_one + k)); [|discriminate].
  destruct (Z.leb_spec (Datetime.toordinal day_one + k) Datetime.MAXORDINAL);
    [|discriminate].
  cbn [andb]. intros [= <-]. unfold Datetime.weekday.
  by rewrite (proj1 (toordinal_fromordinal (Datetime.toordinal day_one + k)
                       ltac:(lia))).
Qed.

(** X15: the name written for [DAY_FOUR] is the entry of [days_of_week]
    that follows the one written for [DAY_THREE], cyclically, and the two
    names differ. *)
Theorem day_four_follows_day_three day_one name3 name4 :
  day_name day_one 2 = Ok name3 → day_name day_one 3 = Ok name4 →
  ∃ k, 0 ≤ k < 7
       ∧ days_of_week !! Z.to_nat k = Some name3
       ∧ days_of_week !! Z.to_nat ((k + 1) mod 7) = Some name4
       ∧ name3 ≠ name4.
Proof.
  intros H3 H4.
  apply day_name_Ok in H3 as (t3 & Ht3 & Hn3).
  apply day_name_Ok in H4 as (t4 & Ht4 & Hn4).
  apply add_days_weekday in Ht3, Ht4.
  pose proof (weekday_range t3) as R3.
  assert (Hnext : Datetime.weekday t4 = (Datetime.weekday t3 + 1) mod 7).
  { rewrite Ht3, Ht4, Zplus_mod_idemp_l. f_equal. lia. }
  exists (Datetime.weekday t3). rewrite <- Hnext. split_and!; [lia|lia|done|done|].
  intros ->.
  pose proof (NoDup_lookup _ _ _ _ days_of_week_NoDup Hn3 Hn4) as Heq.
  pose proof (weekday_range t4) as R4.
  assert (Hw : Datetime.weekday t3 = Datetime.weekday t4) by lia.
  rewrite Hnext in Hw.
  assert (Hc : Datetime.weekday t3 + 1 < 7 ∨ Datetime.weekday t3 = 6) by lia.
  destruct Hc as [Hc|Hc].
  - rewrite Z.mod_small in Hw by lia. lia.
  - rewrite Hc in Hw. vm_compute in Hw. discriminate.
Qed.

Lemma day_four_follows_day_three_witness :
  ∃ k, 0 ≤ k < 7
       ∧ days_of_week !! Z.to_nat k = Some "Sunday"
       ∧ days_of_week !! Z.to_nat ((k + 1) mod 7) = Some "Monday"
       ∧ "Sunday" ≠ "Monday".
Proof.
  apply (day_four_follows_day_three (Datetime.mk_datetime 2024 3 15));
    vm_compute; reflexivity.
Defined.

(** ** [main] *)

Lemma str_NUM_DAYS : Int.str (Z.of_nat NUM_DAYS) = Ok "4".
Proof. vm_compute. reflexivity. Qed.

(** X16: as shipped, no run gets past line 52: [parse_weather] raises
    the [AttributeError] of the missing [DefusedExpatBuilderNS] on every
    input, before the bytes are parsed, and [main] ends with the exception
    of the network layer or with that [AttributeError]; nothing is handed
    to [write_text]. *)
Theorem main_stops_at_line_52 E :
  (∀ weather_xml,
      parse_weather E weather_xml
      = Raise (ModuleAttributeError "xml.dom.expatbuilder" "DefusedExpatBuilderNS"))
  ∧ (main E = UrlopenRaised
     ∨ main E
       = Raised (ModuleAttributeError "xml.dom.expatbuilder" "DefusedExpatBuilderNS"))
  ∧ ∀ output, main E ≠ Done output.
Proof.
  assert (Hmain : main E = UrlopenRaised
                  ∨ main E = Raised (ModuleAttributeError "xml.dom.expatbuilder"
                                       "DefusedExpatBuilderNS")).
  { unfold main, fetch_weather_xml. rewrite str_NUM_DAYS.
    destruct (urlopen E _ _) as [weather_xml|]; [right|by left].
    by rewrite parse_weather_line_52. }
  split_and!; [apply parse_weather_line_52|done|].
  intros output. destruct Hmain as [-> | ->]; discriminate.
Qed.

Lemma main_stops_at_line_52_witness :
  main (sample_environment "HIGH_ONE")
  = Raised (ModuleAttributeError "xml.dom.expatbuilder" "DefusedExpatBuilderNS").
Proof.
  destruct (proj1 (proj2 (main_stops_at_line_52 (sample_environment "HIGH_ONE"))))
    as [H|H]; [discriminate H|exact H].
Defined.

(** The request of [fetch_weather_xml]: one call of [urlopen], with the
    six parameters in the query and the timeout of 15 seconds. *)
Example fetch_weather_xml_request (E : environment) :
  fetch_weather_xml E
  = match
      urlopen E
        "https://graphical.weather.gov/xml/SOAP_server/ndfdSOAPclientByDay.php?whichClient=NDFDgenByDay&lat=38.7197&lon=-77.1546&format=24+hourly&numDays=4&Unit=e"
        15
    with
    | Some body => Done body
    | None => UrlopenRaised
    end.
Proof. unfold fetch_weather_xml. rewrite str_NUM_DAYS. reflexivity. Qed.

Example quote_plus_examples :
  Url.quote_plus "24 hourly" = "24+hourly"
  ∧ Url.quote_plus "a+b&c=d/e" = "a%2Bb%26c%3Dd%2Fe"
  ∧ Url.quote_plus "-77.1546" = "-77.1546".
Proof. vm_compute. done. Qed.
